(** * WallpaperAnalyzer: a shallow embedding of the wallpaper style classifier

    The development follows [WallpaperAnalyzer] of the Nowa panel extension:
    [analyze], [#analyzeTopRegion], [#analyzePixels] and [#determineStyle].
    It goes on with [AdaptivePanel], the module that puts the style on the
    panel and follows windows, settings and the wallpaper file, and with
    the mode tables of [PanelPrefs].  [analyze] is given twice: as a
    function of what the image library returns, and, in [Effects], as the
    call that reads a file and writes to the console through [Logger].

    JavaScript numbers are IEEE-754 binary64 values; they are modelled by the
    primitive floats of the kernel ([PrimFloat]), whose operations round the
    way the JavaScript operators do.  Pixel coordinates, strides, image sizes
    and the sample counter only ever hold small non-negative integers, on
    which doubles are exact (below 2^53); they are modelled in [Z] and turned
    into a float where the source divides by them. *)

From Stdlib Require Import ZArith List String Bool Lia Floats Uint63.
From Stdlib Require Import Reals Lra Psatz.
From Stdlib Require Import Strings.Byte Strings.Ascii.
Import ListNotations.

(* Decimal literals denote the nearest double, as they do in JavaScript. *)
Set Warnings "-inexact-float".

Local Open Scope Z_scope.

(* ===================================================================== *)
(** ** JavaScript numbers *)
(* ===================================================================== *)

Module JS.

Definition number := float.

(** An integer held in a double (exact below 2^53). *)
Definition of_int (n : Z) : number :=
  if n <? 0 then PrimFloat.opp (PrimFloat.of_uint63 (Uint63.of_Z (- n)))
  else PrimFloat.of_uint63 (Uint63.of_Z n).

Definition NaN : number := PrimFloat.nan.

Definition isNaN (x : number) : bool := negb (PrimFloat.eqb x x).

(** The sign bit, which tells [-0] from [+0]. *)
Definition sign_bit (x : number) : bool :=
  match Prim2SF x with
  | S754_zero s | S754_infinity s | S754_finite s _ _ => s
  | S754_nan => false
  end.

(** [Math.max(x, y)]: NaN if either is NaN, and [+0] is larger than [-0]. *)
Definition Math_max (x y : number) : number :=
  if isNaN x || isNaN y then NaN
  else if PrimFloat.ltb x y then y
  else if PrimFloat.ltb y x then x
  else if sign_bit x then y else x.

Definition Math_sqrt (x : number) : number := PrimFloat.sqrt x.

(** [Math.round(x)]: the integer nearest to [x], ties towards +infinity,
    that is floor(x + 1/2) computed exactly; the sign of [x] is kept on a
    zero result.  A double with a non-negative exponent is an integer. *)
Definition Math_round (x : number) : number :=
  match Prim2SF x with
  | S754_finite s m e =>
      if 0 <=? e then x
      else
        let v2 := 2 * (if s then Z.neg m else Z.pos m) in
        let n := (v2 + 2 ^ (- e)) / 2 ^ (1 - e) in
        if n =? 0 then (if s then PrimFloat.opp PrimFloat.zero else PrimFloat.zero)
        else of_int n
  | _ => x
  end.

(** [typedArray[i]] of a [Uint8Array]: the byte, or [undefined] outside
    the array, which arithmetic turns into NaN. *)
Definition index (pixels : list byte) (i : Z) : number :=
  if i <? 0 then NaN
  else match nth_error pixels (Z.to_nat i) with
       | Some b => of_int (Z.of_N (Byte.to_N b))
       | None => NaN
       end.

End JS.

(* ===================================================================== *)
(** ** Data model *)
(* ===================================================================== *)

(** A decoded [GdkPixbuf.Pixbuf]: what [get_width], [get_height],
    [get_rowstride], [get_has_alpha] and [get_pixels] return. *)
Record Pixbuf := mkPixbuf {
  get_width : Z;
  get_height : Z;
  get_rowstride : Z;
  get_has_alpha : bool;
  get_pixels : list byte
}.

(** The object literals [{ r, g, b }]. *)
Record RGB := mkRGB { rgb_r : JS.number; rgb_g : JS.number; rgb_b : JS.number }.

(** The object returned by [#analyzePixels]. *)
Record Analysis := mkAnalysis {
  meanLuminance : JS.number;
  luminanceStd : JS.number;
  minLuminosity : JS.number;
  maxLuminosity : JS.number;
  minRGB : RGB;
  maxRGB : RGB;
  sampleCount : Z;
  width : Z;
  height : Z
}.

(** The two shapes of object [analyze] returns: [{ style, ...analysis }],
    and the fallback [{ style, meanLuminance, error }] of the catch block. *)
Inductive StyleResult :=
| Analyzed (style : string) (analysis : Analysis)
| Fallback (style : string) (meanLuminance : JS.number) (error : string).

Definition style_of (r : StyleResult) : string :=
  match r with
  | Analyzed s _ => s
  | Fallback s _ _ => s
  end.

(** A call that either throws (with [error.message]) or returns. *)
Definition throws (A : Type) : Type := (string + A)%type.

(* ===================================================================== *)
(** ** #analyzePixels *)
(* ===================================================================== *)

(** The mutable locals of [#analyzePixels]. *)
Record Acc := mkAcc {
  totalLuminosity : JS.number;
  luminositySquaredSum : JS.number;
  acc_minLuminosity : JS.number;
  acc_maxLuminosity : JS.number;
  acc_minRGB : RGB;
  acc_maxRGB : RGB;
  acc_sampleCount : Z
}.

Definition acc0 : Acc :=
  mkAcc 0%float 0%float 1%float 0%float
        (mkRGB 255%float 255%float 255%float)
        (mkRGB 0%float 0%float 0%float)
        0.

Definition luminosity_of (r g b : JS.number) : JS.number :=
  (0.299 * r + 0.587 * g + 0.114 * b)%float.

Definition roundRGB (r g b : JS.number) : RGB :=
  mkRGB (JS.Math_round (r * 255)%float)
        (JS.Math_round (g * 255)%float)
        (JS.Math_round (b * 255)%float).

Section AnalyzePixels.

Variable pixels : list byte.
Variables width height rowstride channels : Z.

(** The body of the inner loop, at column [x] of row [y]. *)
Definition sample (y x : Z) (a : Acc) : Acc :=
  let pixelIndex := y * rowstride + x * channels in
  let r := (JS.index pixels pixelIndex / 255)%float in
  let g := (JS.index pixels (pixelIndex + 1) / 255)%float in
  let b := (JS.index pixels (pixelIndex + 2) / 255)%float in
  let luminosity := luminosity_of r g b in
  let total := (totalLuminosity a + luminosity)%float in
  let squares := (luminositySquaredSum a + luminosity * luminosity)%float in
  let lower := PrimFloat.ltb luminosity (acc_minLuminosity a) in
  let minL := if lower then luminosity else acc_minLuminosity a in
  let minC := if lower then roundRGB r g b else acc_minRGB a in
  let higher := PrimFloat.ltb (acc_maxLuminosity a) luminosity in
  let maxL := if higher then luminosity else acc_maxLuminosity a in
  let maxC := if higher then roundRGB r g b else acc_maxRGB a in
  mkAcc total squares minL maxL minC maxC (acc_sampleCount a + 1).

(** [for (let x = ...; x < width; x += 4)], with the iterations left as
    fuel. *)
Fixpoint columns (fuel : nat) (y x : Z) (a : Acc) : Acc :=
  match fuel with
  | O => a
  | S fuel' =>
      if x <? width then columns fuel' y (x + 4) (sample y x a) else a
  end.

(** [for (let y = ...; y < height; y += 2)]. *)
Fixpoint rows (fuel : nat) (y : Z) (a : Acc) : Acc :=
  match fuel with
  | O => a
  | S fuel' =>
      if y <? height then
        let xOffset := if Z.rem y 4 =? 0 then 0 else 2 in
        rows fuel' (y + 2) (columns (Z.to_nat width) y xOffset a)
      else a
  end.

Definition analyzePixels : Analysis :=
  let a := rows (Z.to_nat height) 0 acc0 in
  let count := JS.of_int (acc_sampleCount a) in
  let meanLuminance := (totalLuminosity a / count)%float in
  let variance :=
    (luminositySquaredSum a / count - meanLuminance * meanLuminance)%float in
  let luminanceStd := JS.Math_sqrt (JS.Math_max 0%float variance) in
  mkAnalysis meanLuminance luminanceStd
             (acc_minLuminosity a) (acc_maxLuminosity a)
             (acc_minRGB a) (acc_maxRGB a)
             (acc_sampleCount a) width height.

End AnalyzePixels.

(* ===================================================================== *)
(** ** #analyzeTopRegion *)
(* ===================================================================== *)

Definition analyzeTopRegion (bgSlice : Pixbuf) : Analysis :=
  let width := get_width bgSlice in
  let height := get_height bgSlice in
  let rowstride := get_rowstride bgSlice in
  let pixels := get_pixels bgSlice in
  let hasAlpha := get_has_alpha bgSlice in
  let channels := if hasAlpha then 4 else 3 in
  analyzePixels pixels width height rowstride channels.

(* ===================================================================== *)
(** ** #determineStyle *)
(* ===================================================================== *)

Definition STD_THRESHOLD : JS.number := (45 / 255)%float.

(** The logging of [#determineStyle] formats numbers with [toFixed] and
    builds strings; it neither throws on numbers nor changes [state], and
    is left out. *)
Definition determineStyle (analysis : Analysis) (LUMINANCE_THRESHOLD : JS.number)
  : string :=
  let meanLuminance := meanLuminance analysis in
  let luminanceStd := luminanceStd analysis in
  let minColor := minLuminosity analysis in
  let maxColor := maxLuminosity analysis in
  let isBgDark := PrimFloat.ltb meanLuminance LUMINANCE_THRESHOLD in
  let highVariance := PrimFloat.ltb STD_THRESHOLD luminanceStd in
  let nearBoundary :=
    PrimFloat.ltb meanLuminance LUMINANCE_THRESHOLD &&
    PrimFloat.ltb LUMINANCE_THRESHOLD (meanLuminance + 1.645 * luminanceStd)%float in
  let range := (maxColor - minColor)%float in
  let highContrast := PrimFloat.ltb 0.5%float range in
  let isBusy := highVariance || nearBoundary || highContrast in
  if isBgDark then
    if isBusy then "translucent-dark"%string else "dark"%string
  else
    if isBusy then "translucent-light"%string else "light"%string.

(* ===================================================================== *)
(** ** analyze *)
(* ===================================================================== *)

Definition PADDING : Z := 4.

Section Analyze.

(** The image library, outside the repository: decoding a file
    ([GdkPixbuf.Pixbuf.new_from_file]) and taking a sub-region
    ([new_subpixbuf(src_x, src_y, width, height)]).  Either may fail; a
    failure reaches [analyze] as a thrown error with a message.  For
    [new_subpixbuf], which returns null where it refuses its arguments,
    the error is that of the method call on null that follows in the
    [try] block. *)
Variable new_from_file : string -> throws Pixbuf.
Variable new_subpixbuf : Pixbuf -> Z -> Z -> Z -> Z -> throws Pixbuf.

(** The body of the [try] block. *)
Definition analyze_try (wallpaperPath : string) (luminanceThreshold : JS.number)
           (panelHeight : Z) : throws StyleResult :=
  match new_from_file wallpaperPath with
  | inl e => inl e
  | inr fullPixbuf =>
      let fullWidth := get_width fullPixbuf in
      let fullHeight := get_height fullPixbuf in
      match new_subpixbuf fullPixbuf PADDING PADDING
              (Z.max 1 (fullWidth - PADDING * 2))
              (Z.max 0 (Z.min panelHeight fullHeight - PADDING)) with
      | inl e => inl e
      | inr bgSlice =>
          let analysis := analyzeTopRegion bgSlice in
          let style := determineStyle analysis luminanceThreshold in
          inr (Analyzed style analysis)
      end
  end.

Definition analyze (wallpaperPath : string) (luminanceThreshold : JS.number)
           (panelHeight : Z) : StyleResult :=
  match analyze_try wallpaperPath luminanceThreshold panelHeight with
  | inr result => result
  | inl message => Fallback "dark" 0.5%float message
  end.

End Analyze.

(** The default arguments of [analyze]. *)
Definition default_luminanceThreshold : JS.number := 0.575%float.
Definition default_panelHeight : Z := 32.

(* ===================================================================== *)
(** ** The analyzer with its effects *)
(* ===================================================================== *)

(** A call of [analyze] reads a file and writes to the console.  Here the
    code is given once more with these two effects: the world it runs in
    is passed from statement to statement, and a thrown error is a result
    that [try] and [catch] handle. *)

Module Effects.

(** [console.log] and [console.error]. *)
Inductive Level := LOG | ERROR.

(** What a call can reach outside of its arguments: the files, by path
    ([None] where there is none), and the lines written to the console,
    oldest first. *)
Record World := mkWorld {
  files : string -> option (list byte);
  console : list (Level * string)
}.

(** A computation: from a world, a value or a thrown error, and the world
    it leaves. *)
Definition M (A : Type) : Type := World -> throws A * World.

Definition ret {A : Type} (a : A) : M A := fun w => (inr a, w).

Definition bind {A B : Type} (m : M A) (f : A -> M B) : M B :=
  fun w =>
    match m w with
    | (inr a, w') => f a w'
    | (inl e, w') => (inl e, w')
    end.

(** [try { body } catch (error) { handler(error.message) }]. *)
Definition try_catch {A : Type} (body : M A) (handler : string -> M A) : M A :=
  fun w =>
    match body w with
    | (inr a, w') => (inr a, w')
    | (inl e, w') => handler e w'
    end.

(** A call of the library that reads nothing but its arguments. *)
Definition call {A : Type} (r : throws A) : M A := fun w => (r, w).

Notation "x <- m ;; f" := (bind m (fun x => f))
  (at level 61, m at next level, right associativity).
Notation "m ;; f" := (bind m (fun _ => f))
  (at level 61, right associativity).

(** *** Logger *)

Definition prefix : string := "Nowa Desktop".

Definition write (level : Level) (line : string) : M unit :=
  fun w => (inr tt, mkWorld (files w) (console w ++ [(level, line)])).

Definition Logger_log (message : string) : M unit :=
  write LOG (prefix ++ ": " ++ message).

Definition Logger_error (message : string) : M unit :=
  write ERROR (prefix ++ ": " ++ message).

(** *** Strings *)

(** [s.padStart(targetLength, pad)], for a pad of one character. *)
Definition padStart (s : string) (targetLength : nat) (pad : ascii) : string :=
  string_of_list_ascii (repeat pad (targetLength - String.length s)) ++ s.

(** [s.toUpperCase()], on the ASCII letters number formatting yields. *)
Definition upper (c : ascii) : ascii :=
  let n := nat_of_ascii c in
  if ((97 <=? n) && (n <=? 122))%nat then ascii_of_nat (n - 32) else c.

Fixpoint toUpperCase (s : string) : string :=
  match s with
  | EmptyString => EmptyString
  | String c rest => String (upper c) (toUpperCase rest)
  end.

Definition of_bool (b : bool) : string := if b then "true" else "false".

Section Analyzer.

(** The image library.  [decode path content] is what [new_from_file]
    returns or throws for [path] when the file there holds [content]. *)
Variable decode : string -> option (list byte) -> throws Pixbuf.
Variable new_subpixbuf : Pixbuf -> Z -> Z -> Z -> Z -> throws Pixbuf.

(** Number formatting, part of the language: [x.toFixed(3)],
    [x.toString(16)] and the conversion of a number in a template
    literal.  None of them throws on a number. *)
Variable toFixed3 : JS.number -> string.
Variable toString16 : JS.number -> string.
Variable to_string : JS.number -> string.

Definition new_from_file (wallpaperPath : string) : M Pixbuf :=
  fun w => (decode wallpaperPath (files w wallpaperPath), w).

Definition toHex (rgb : RGB) : string :=
  let r := padStart (toString16 (rgb_r rgb)) 2 "0" in
  let g := padStart (toString16 (rgb_g rgb)) 2 "0" in
  let b := padStart (toString16 (rgb_b rgb)) 2 "0" in
  toUpperCase ("#" ++ r ++ g ++ b).

Definition colorSquare (rgb : RGB) : string :=
  String "027" "[48;2;" ++ to_string (rgb_r rgb) ++ ";"
    ++ to_string (rgb_g rgb) ++ ";" ++ to_string (rgb_b rgb)
    ++ "m  " ++ String "027" "[0m".

Definition determineStyle (analysis : Analysis) (LUMINANCE_THRESHOLD : JS.number)
  : M string :=
  let meanLuminance := meanLuminance analysis in
  let luminanceStd := luminanceStd analysis in
  let minColor := minLuminosity analysis in
  let maxColor := maxLuminosity analysis in
  let minRGB := minRGB analysis in
  let maxRGB := maxRGB analysis in
  Logger_log "=== WALLPAPER ANALYSIS ===" ;;
  Logger_log ("sample: " ++ to_string (JS.of_int (width analysis)) ++ "x"
              ++ to_string (JS.of_int (height analysis)) ++ " ("
              ++ to_string (JS.of_int (sampleCount analysis)) ++ " pixels)") ;;
  Logger_log ("mean_luminance: " ++ toFixed3 meanLuminance) ;;
  Logger_log ("std: " ++ toFixed3 luminanceStd) ;;
  Logger_log ("darkest_color: " ++ toFixed3 minColor ++ " ("
              ++ colorSquare minRGB ++ " " ++ toHex minRGB ++ ")") ;;
  Logger_log ("lightest_color: " ++ toFixed3 maxColor ++ " ("
              ++ colorSquare maxRGB ++ " " ++ toHex maxRGB ++ ")") ;;
  let isBgDark := PrimFloat.ltb meanLuminance LUMINANCE_THRESHOLD in
  Logger_log ("is_bg_dark: " ++ of_bool isBgDark ++ " (threshold: "
              ++ toFixed3 LUMINANCE_THRESHOLD ++ ")") ;;
  let highVariance := PrimFloat.ltb STD_THRESHOLD luminanceStd in
  let nearBoundary :=
    PrimFloat.ltb meanLuminance LUMINANCE_THRESHOLD &&
    PrimFloat.ltb LUMINANCE_THRESHOLD
                  (meanLuminance + 1.645 * luminanceStd)%float in
  let range := (maxColor - minColor)%float in
  let highContrast := PrimFloat.ltb 0.5%float range in
  let isBusy := highVariance || nearBoundary || highContrast in
  Logger_log ("is_busy: " ++ of_bool isBusy ++ " (high_variance: "
              ++ of_bool highVariance ++ ", near_boundary: "
              ++ of_bool nearBoundary ++ ", high_contrast: "
              ++ of_bool highContrast ++ ", range: " ++ toFixed3 range
              ++ ")") ;;
  let '(state, description) :=
    (if isBgDark then
       if isBusy then ("translucent-dark", "dark panel + white text")
       else ("dark", "transparent + white text")
     else
       if isBusy then ("translucent-light", "light panel + black text")
       else ("light", "transparent + black text"))%string in
  Logger_log ("=== RESULT: " ++ state ++ " (" ++ description ++ ") ===") ;;
  ret state.

Definition analyze (wallpaperPath : string) (luminanceThreshold : JS.number)
           (panelHeight : Z) : M StyleResult :=
  try_catch
    (fullPixbuf <- new_from_file wallpaperPath ;;
     let fullWidth := get_width fullPixbuf in
     let fullHeight := get_height fullPixbuf in
     bgSlice <- call (new_subpixbuf fullPixbuf PADDING PADDING
                        (Z.max 1 (fullWidth - PADDING * 2))
                        (Z.max 0 (Z.min panelHeight fullHeight - PADDING))) ;;
     let analysis := analyzeTopRegion bgSlice in
     style <- determineStyle analysis luminanceThreshold ;;
     ret (Analyzed style analysis))
    (fun message =>
       Logger_error ("WallpaperAnalyzer: Failed to analyze - " ++ message) ;;
       ret (Fallback "dark" 0.5%float message)).

End Analyzer.

End Effects.

(* ===================================================================== *)
(** ** The classifier and the sampling as the specification words them *)
(* ===================================================================== *)

Module Spec.

(** *** classify(stats, luminanceThreshold) *)

Definition isDark (stats : Analysis) (luminanceThreshold : JS.number) : bool :=
  PrimFloat.ltb (meanLuminance stats) luminanceThreshold.

Definition highVariance (stats : Analysis) : bool :=
  PrimFloat.ltb (45 / 255)%float (luminanceStd stats).

Definition nearBoundary (stats : Analysis) (luminanceThreshold : JS.number) : bool :=
  PrimFloat.ltb (meanLuminance stats) luminanceThreshold &&
  PrimFloat.ltb luminanceThreshold
    (meanLuminance stats + 1.645 * luminanceStd stats)%float.

Definition highContrast (stats : Analysis) : bool :=
  PrimFloat.ltb 0.5%float (maxLuminosity stats - minLuminosity stats)%float.

Definition isBusy (stats : Analysis) (luminanceThreshold : JS.number) : bool :=
  highVariance stats || nearBoundary stats luminanceThreshold || highContrast stats.

(** The 2x2 decision table. *)
Definition label (isDark isBusy : bool) : string :=
  match isDark, isBusy with
  | true, true => "translucent-dark"
  | true, false => "dark"
  | false, true => "translucent-light"
  | false, false => "light"
  end.

Definition classify (stats : Analysis) (luminanceThreshold : JS.number) : string :=
  label (isDark stats luminanceThreshold) (isBusy stats luminanceThreshold).

(** *** The checkerboard *)

(** [start, start + step, ...], [n] of them. *)
Definition stepping (start step : Z) (n : nat) : list Z :=
  map (fun k => start + step * Z.of_nat k) (seq 0 n).

(** How many of [start, start + step, ...] lie below [bound]. *)
Definition steps_below (start step bound : Z) : nat :=
  Z.to_nat ((bound - start + step - 1) / step).

(** Rows 0, 2, 4, ... below [height]. *)
Definition sample_rows (height : Z) : list Z :=
  stepping 0 2 (steps_below 0 2 height).

Definition column_offset (y : Z) : Z := if y mod 4 =? 0 then 0 else 2.

(** Columns offset, offset + 4, ... below [width]. *)
Definition sample_columns (width y : Z) : list Z :=
  stepping (column_offset y) 4 (steps_below (column_offset y) 4 width).

(** The sampled pixels [(y, x)], in the order they are visited. *)
Definition sample_points (width height : Z) : list (Z * Z) :=
  flat_map (fun y => map (fun x => (y, x)) (sample_columns width y))
           (sample_rows height).

(** The luminosity of the pixel at [(y, x)]: the bytes at offset
    [y*rowStride + x*channels], normalised by 255 and weighted. *)
Definition pixel_luminosity (pixels : list byte) (rowStride channels : Z)
           (p : Z * Z) : JS.number :=
  let offset := fst p * rowStride + snd p * channels in
  let R := (JS.index pixels offset / 255)%float in
  let G := (JS.index pixels (offset + 1) / 255)%float in
  let B := (JS.index pixels (offset + 2) / 255)%float in
  (0.299 * R + 0.587 * G + 0.114 * B)%float.

Definition luminosities (pixels : list byte) (width height rowStride channels : Z)
  : list JS.number :=
  map (pixel_luminosity pixels rowStride channels) (sample_points width height).

Definition sum (l : list JS.number) : JS.number :=
  fold_left (fun s x => (s + x)%float) l 0%float.

Definition sumSquares (l : list JS.number) : JS.number :=
  fold_left (fun s x => (s + x * x)%float) l 0%float.

Definition count (l : list JS.number) : JS.number :=
  JS.of_int (Z.of_nat (List.length l)).

Definition mean (l : list JS.number) : JS.number := (sum l / count l)%float.

Definition std (l : list JS.number) : JS.number :=
  JS.Math_sqrt
    (JS.Math_max 0%float (sumSquares l / count l - mean l * mean l)%float).

End Spec.

Definition light_family (style : string) : bool :=
  String.eqb style "light" || String.eqb style "translucent-light".

Definition dark_family (style : string) : bool :=
  String.eqb style "dark" || String.eqb style "translucent-dark".

(** The labels the classifier may produce. *)
Definition core_labels : list string :=
  ["dark"; "light"; "translucent-dark"; "translucent-light"]%string.

(* ===================================================================== *)
(** ** Stand-ins for the image library at concrete inputs *)
(* ===================================================================== *)

(** A file system holding one image: decoding succeeds at [path] only. *)
Definition one_file (path : string) (image : Pixbuf) : string -> throws Pixbuf :=
  fun p => if String.eqb p path then inr image
           else inl "Failed to open file"%string.

(** What [gdk_pixbuf_new_subpixbuf] requires of its arguments: the region
    lies inside the source and, a requirement of the
    [gdk_pixbuf_new_from_data] it ends with, has a column and a row. *)
Definition accepted (src : Pixbuf) (src_x src_y w h : Z) : bool :=
  (0 <=? src_x) && (src_x + w <=? get_width src)
  && (0 <=? src_y) && (src_y + h <=? get_height src)
  && (0 <? w) && (0 <? h).

(** The sub-pixbuf GdkPixbuf makes of a region: it shares the pixel data of
    the source, from the pixel [(src_x, src_y)] on and with the row stride
    of the source; [get_pixels] ends with the last pixel of the last
    row. *)
Definition cropped (src : Pixbuf) (src_x src_y w h : Z) : Pixbuf :=
  let channels := if get_has_alpha src then 4 else 3 in
  mkPixbuf w h (get_rowstride src) (get_has_alpha src)
    (firstn (Z.to_nat ((h - 1) * get_rowstride src + w * channels))
       (skipn (Z.to_nat (src_y * get_rowstride src + src_x * channels))
              (get_pixels src))).

(** [new_subpixbuf] as GdkPixbuf has it.  Where the arguments are refused
    the library returns null, and the next statement of [analyze] calls
    [bgSlice.get_width()] on it: a TypeError, raised inside the same [try]
    block.  For [analyze] a refusal is thus a thrown error; the words of
    its message are the engine's, and nothing below depends on them. *)
Definition gdk_pixbuf_new_subpixbuf (src : Pixbuf) (src_x src_y w h : Z)
  : throws Pixbuf :=
  if accepted src src_x src_y w h then inr (cropped src src_x src_y w h)
  else inl "bgSlice is null"%string.

(** What the statements on the analysed region ask of an image library:
    it crops the regions GdkPixbuf accepts and refuses the others. *)
Definition crops_as_GdkPixbuf
           (new_subpixbuf : Pixbuf -> Z -> Z -> Z -> Z -> throws Pixbuf)
  : Prop :=
  forall src src_x src_y w h,
    if accepted src src_x src_y w h
    then new_subpixbuf src src_x src_y w h = inr (cropped src src_x src_y w h)
    else exists message, new_subpixbuf src src_x src_y w h = inl message.

(** An opaque RGB image of one colour, rows packed. *)
Definition uniform_image (w h : Z) (r g b : byte) : Pixbuf :=
  mkPixbuf w h (3 * w) false
           (List.concat (repeat [r; g; b] (Z.to_nat (w * h)))).

(* ===================================================================== *)
(** ** The real value of a double *)
(* ===================================================================== *)

(** The statements about ranges go through the specification of the
    primitive operations ([SpecFloat]): a finite double is [m * 2^e], and
    each operation rounds the exact real result to nearest, ties to even. *)

(** [2^e], for any integer exponent. *)
Definition bpow (e : Z) : R := powerRZ 2 e.

(** The real value of a finite number; 0 for zeros, infinities and NaN. *)
Definition SFval (f : spec_float) : R :=
  match f with
  | S754_finite s m e => ((if s then -1 else 1) * IZR (Z.pos m) * bpow e)%R
  | _ => 0%R
  end.

Definition fval (x : float) : R := SFval (Prim2SF x).

(** Finite and not negative: a zero or a positive finite number. *)
Definition SFnonneg (f : spec_float) : bool :=
  match f with
  | S754_zero _ | S754_finite false _ _ => true
  | _ => false
  end.

Definition fnn (x : float) : Prop := SFnonneg (Prim2SF x) = true.

(** Where the real [x] lies from the integer [m], as a location says. *)
Definition located (m : Z) (l : location) (x : R) : Prop :=
  match l with
  | loc_Exact => x = IZR m
  | loc_Inexact Lt => (IZR m < x < IZR m + /2)%R
  | loc_Inexact Eq => x = (IZR m + /2)%R
  | loc_Inexact Gt => (IZR m + /2 < x < IZR m + 1)%R
  end.

(** The value of the mantissa [m] at the exponent [e]. *)
Definition F2R (m : positive) (e : Z) : R := (IZR (Z.pos m) * bpow e)%R.

(** [r] is zero or a positive finite number at most [B]. *)
Definition SF_le (r : spec_float) (B : R) : Prop :=
  match r with
  | S754_zero _ => True
  | S754_finite false m e => (F2R m e <= B)%R
  | _ => False
  end.

(** [r] is a positive number, finite or not, at least [b]. *)
Definition SF_ge (r : spec_float) (b : R) : Prop :=
  match r with
  | S754_finite false m e => (b <= F2R m e)%R
  | S754_infinity false => True
  | _ => False
  end.

(** [r] is a rounding of the real [v]: every representable bound on [v]
    bounds [r]. *)
Definition round_of (v : R) (r : spec_float) : Prop :=
  forall mB eB, SpecFloat.bounded prec emax mB eB = true ->
    ((v <= F2R mB eB)%R -> SF_le r (F2R mB eB))
    /\ ((F2R mB eB <= v)%R -> SF_ge r (F2R mB eB)).

(** Zero or finite, of either sign. *)
Definition SFfinite (r : spec_float) : bool :=
  match r with
  | S754_zero _ | S754_finite _ _ _ => true
  | _ => false
  end.

(** Not NaN and not below zero: zero, positive or +infinity. *)
Definition SFnot_negative (r : spec_float) : bool :=
  match r with
  | S754_zero _ | S754_finite false _ _ | S754_infinity false => true
  | _ => false
  end.

Definition located_record (mrs : shr_record) (x : R) : Prop :=
  located (shr_m mrs) (loc_of_shr_record mrs) x.

(** The result of [binary_round_aux], from the mantissa [m1] and the
    exponent [e] its first shift leaves. *)
Definition rounded (sx : bool) (m1 : Z) (l1 : location) (e : Z) : spec_float :=
  let m2 := round_nearest_even m1 l1 in
  if m2 =? 0 then S754_zero sx
  else if m2 =? 2 ^ 53 then
    if e + 1 <=? 971 then S754_finite sx (Z.to_pos (2 ^ 52)) (e + 1)
    else S754_infinity sx
  else
    if e <=? 971 then S754_finite sx (Z.to_pos m2) e else S754_infinity sx.

(* ===================================================================== *)
(** ** Ranges of the statistics *)
(* ===================================================================== *)

(** A colour byte, normalised as [#analyzePixels] does. *)
Definition channel (b : byte) : JS.number :=
  (JS.of_int (Z.of_N (Byte.to_N b)) / 255)%float.

(** The 256 values a normalised channel takes. *)
Definition channel_values : list JS.number :=
  map (fun n => (JS.of_int (Z.of_nat n) / 255)%float) (seq 0 256).

(** [0 <= x <= 1], on doubles. *)
Definition unit_range (x : JS.number) : bool :=
  PrimFloat.leb 0 x && PrimFloat.leb x 1.

(** Whether every colour made of the given channel values has its
    luminosity in the unit range. *)
Definition luminosity_table (values : list JS.number) : bool :=
  forallb (fun r =>
    forallb (fun g =>
      forallb (fun b => unit_range (luminosity_of r g b)) values)
      values)
    values.

(** The buffer holds a [width] x [height] image of [channels] >= 3 bytes a
    pixel, rows [rowstride] apart (the last row need not be padded). *)
Definition holds_image (pixels : list byte) (width height rowstride channels : Z)
  : Prop :=
  3 <= channels /\ 0 <= rowstride /\
  (height - 1) * rowstride + width * channels <= Z.of_nat (List.length pixels).

(** The running minimum and maximum, with the strict comparisons and the
    initial values of [#analyzePixels]. *)
Definition minimum (l : list JS.number) : JS.number :=
  fold_left (fun m x => if PrimFloat.ltb x m then x else m) l 1%float.

Definition maximum (l : list JS.number) : JS.number :=
  fold_left (fun m x => if PrimFloat.ltb m x then x else m) l 0%float.

(** What the running minimum and maximum satisfy, before ([started] is
    false) and after the first sample. *)
Definition min_max_inv (mn mx : float) (started : bool) : Prop :=
  fnn mn /\ fnn mx /\ (fval mn <= 1)%R /\ (fval mx <= 1)%R /\
  if started then (fval mn <= fval mx)%R
  else fval mn = 1%R /\ fval mx = 0%R.

(* ===================================================================== *)
(** ** The darkest and the lightest sample *)
(* ===================================================================== *)

(** The colour [#analyzePixels] records for the pixel at [(y, x)]:
    [{ r: Math.round(r * 255), g: ..., b: ... }]. *)
Definition pixel_rgb (pixels : list byte) (rowStride channels : Z) (p : Z * Z)
  : RGB :=
  let offset := fst p * rowStride + snd p * channels in
  roundRGB (JS.index pixels offset / 255)%float
           (JS.index pixels (offset + 1) / 255)%float
           (JS.index pixels (offset + 2) / 255)%float.

(** The three colour bytes of the pixel at [(y, x)], when the buffer holds
    them. *)
Definition pixel_bytes (pixels : list byte) (rowStride channels : Z) (p : Z * Z)
  : option (byte * byte * byte) :=
  let offset := fst p * rowStride + snd p * channels in
  if offset <? 0 then None
  else
    match nth_error pixels (Z.to_nat offset),
          nth_error pixels (Z.to_nat (offset + 1)),
          nth_error pixels (Z.to_nat (offset + 2)) with
    | Some r, Some g, Some b => Some (r, g, b)
    | _, _, _ => None
    end.

(** A colour as [minRGB] and [maxRGB] hold it. *)
Definition rgb_of_bytes (c : byte * byte * byte) : RGB :=
  let '(r, g, b) := c in
  mkRGB (JS.of_int (Z.of_N (Byte.to_N r)))
        (JS.of_int (Z.of_N (Byte.to_N g)))
        (JS.of_int (Z.of_N (Byte.to_N b))).

(** One step of a running extreme with its colour: a strictly better
    candidate takes the place of the holder. *)
Definition keep_best {A : Type} (better : float -> float -> bool)
           (held : float * A) (candidate : float * A) : float * A :=
  if better (fst candidate) (fst held) then candidate else held.

(** Whether every colour is darker than 1, and brighter than 0 unless it is
    black. *)
Definition extremes_table (values : list JS.number) : bool :=
  forallb (fun r =>
    forallb (fun g =>
      forallb (fun b =>
        PrimFloat.ltb (luminosity_of r g b) 1
        && (PrimFloat.ltb 0 (luminosity_of r g b)
            || (PrimFloat.eqb r 0 && PrimFloat.eqb g 0 && PrimFloat.eqb b 0)))
        values)
      values)
    values.

(* ===================================================================== *)
(** ** AdaptivePanel *)
(* ===================================================================== *)

(** The module [AdaptivePanel] reacts to signals of the shell and to
    timeouts.  Its private fields and the part of the shell it acts on (the
    panel, the signal handlers it connects, the timeouts it adds, the file
    monitors it creates) are one state, passed explicitly; what it reads of
    the shell when it runs (settings, the windows of the workspace, the lock
    state) is an environment. *)

Module AdaptivePanel.

(** *** Windows *)

(** [Meta.WindowType]: the code only tells [NORMAL] from the others. *)
Inductive WindowType := NORMAL | other_type.

(** [Meta.MaximizeFlags.BOTH], the value of [get_maximized()] of a window
    maximized in both directions. *)
Definition BOTH : Z := 3.

(** A [Meta.WindowActor], with the window [get_meta_window()] returns. *)
Record Actor := mkActor { actor_id : Z; get_meta_window : Z }.

(** A [Meta.Window], as the code reads it; [get_compositor_private()]
    returns the actor or null. *)
Record Window := mkWindow {
  window_id : Z;
  is_hidden : bool;
  minimized : bool;
  get_compositor_private : option Actor;
  window_type : WindowType;
  get_maximized : Z
}.

(** *** Signals and timeouts *)

(** The objects the module connects handlers to. *)
Inductive Emitter :=
| settings
| backgroundSettings
| interfaceSettings
| overview
| screenShield
| display
| metaWindow (id : Z)
| windowActor (id : Z).

(** The closures passed to [connect]. *)
Inductive Handler :=
| on_background_changed           (* 'changed::picture-uri' *)
| on_dark_background_changed      (* 'changed::picture-uri-dark' *)
| on_color_scheme_changed         (* 'changed::color-scheme' *)
| on_panel_mode_changed           (* 'changed::panel-mode' *)
| on_luminance_threshold_changed  (* 'changed::luminance-threshold' *)
| on_overview_showing             (* 'showing' of Main.overview *)
| on_overview_hiding              (* 'hiding' of Main.overview *)
| on_active_changed               (* 'active-changed' of Main.screenShield *)
| on_window_created               (* 'window-created' of global.display *)
| on_size_changed                 (* 'size-changed' of a window *)
| on_actor_destroy (metaWindow metaWindowActor : Z).
                                  (* 'destroy' of a window actor *)

(** The closures passed to [GLib.timeout_add] and the [onComplete] of the
    panel's [ease]; each runs once ([GLib.SOURCE_REMOVE]). *)
Inductive Callback :=
| wallpaper_callback  (* the callback of #onWallpaperChanged, after 100 ms *)
| initial_check       (* enable: #onWallpaperChanged(), after 100 ms *)
| maximized_check     (* #updateMaximizedState(), after 300 or 100 ms *)
| unlocked            (* after an unlock: forget the style, start over *)
| file_changed        (* the wallpaper file changed: start over, after 200 ms *)
| hiding_complete.    (* the panel has eased back in, after 200 ms *)

(** [Gio.FileMonitorEvent]: the three events the monitor reacts to, and
    the others. *)
Inductive FileMonitorEvent := CHANGED | CREATED | ATTRIBUTE_CHANGED | other_event.

Definition Emitter_eqb (a b : Emitter) : bool :=
  match a, b with
  | settings, settings
  | backgroundSettings, backgroundSettings
  | interfaceSettings, interfaceSettings
  | overview, overview
  | screenShield, screenShield
  | display, display => true
  | metaWindow i, metaWindow j => i =? j
  | windowActor i, windowActor j => i =? j
  | _, _ => false
  end.

(** A connected handler: the object, the id [connect] returned, the
    closure. *)
Record Connection := mkConnection {
  emitter : Emitter;
  handler_id : Z;
  handler : Handler
}.

(** *** The state *)

(** [Main.panel], an [St.Widget]: its style classes (a list without
    repetition), and the properties the module sets or reads. *)
Record Panel := mkPanel {
  style_class : list string;
  opacity : Z;
  translation_y : Z;
  panel_height : Z
}.

(** What the module changes outside of itself: the panel, the connected
    handlers (ids are handed out in sequence), the pending timeouts with
    their delays, and the file monitors not yet cancelled with the paths
    they watch. *)
Record Shell := mkShell {
  panel : Panel;
  connections : list Connection;
  next_id : Z;
  timeouts : list (Z * Callback);
  monitors : list (Z * string);
  next_monitor : Z
}.

(** The private fields that change; a [Map] is the list of its entries in
    insertion order, [null] is [None]. *)
Record Fields := mkFields {
  currentStyle : option string;
  fileMonitor : option Z;
  windowSignalIds : option (list (Z * list Z));
  actorSignalIds : option (list (Z * Z));
  isWindowMaximized : bool;
  overviewShowingConnection : option Z;
  overviewHidingConnection : option Z;
  screenShieldConnection : option Z;
  backgroundSignals : list Z;
  settingsConnections : list Z
}.

Record State := mkState { shell : Shell; this : Fields }.

(** The fields as the class declares them. *)
Definition new_fields : Fields :=
  mkFields None None None None false None None None [] [].

(** What the module reads when it runs: the keys of the three
    [Gio.Settings], the windows of the active workspace and
    [Main.screenShield.locked]. *)
Record Env := mkEnv {
  panel_mode : string;
  luminance_threshold : JS.number;
  color_scheme : string;
  picture_uri : string;
  picture_uri_dark : string;
  list_windows : list Window;
  locked : bool
}.

(** *** Field updates *)

Definition set_shell (sh : Shell) (s : State) : State := mkState sh (this s).

Definition set_this (f : Fields) (s : State) : State := mkState (shell s) f.

Definition set_panel (p : Panel) (s : State) : State :=
  let sh := shell s in
  set_shell (mkShell p (connections sh) (next_id sh) (timeouts sh)
                     (monitors sh) (next_monitor sh)) s.

Definition set_connections (c : list Connection) (s : State) : State :=
  let sh := shell s in
  set_shell (mkShell (panel sh) c (next_id sh) (timeouts sh)
                     (monitors sh) (next_monitor sh)) s.

Definition set_currentStyle (v : option string) (s : State) : State :=
  let f := this s in
  set_this (mkFields v (fileMonitor f) (windowSignalIds f) (actorSignalIds f)
                     (isWindowMaximized f) (overviewShowingConnection f)
                     (overviewHidingConnection f) (screenShieldConnection f)
                     (backgroundSignals f) (settingsConnections f)) s.

Definition set_fileMonitor (v : option Z) (s : State) : State :=
  let f := this s in
  set_this (mkFields (currentStyle f) v (windowSignalIds f) (actorSignalIds f)
                     (isWindowMaximized f) (overviewShowingConnection f)
                     (overviewHidingConnection f) (screenShieldConnection f)
                     (backgroundSignals f) (settingsConnections f)) s.

Definition set_windowSignalIds (v : option (list (Z * list Z))) (s : State)
  : State :=
  let f := this s in
  set_this (mkFields (currentStyle f) (fileMonitor f) v (actorSignalIds f)
                     (isWindowMaximized f) (overviewShowingConnection f)
                     (overviewHidingConnection f) (screenShieldConnection f)
                     (backgroundSignals f) (settingsConnections f)) s.

Definition set_actorSignalIds (v : option (list (Z * Z))) (s : State) : State :=
  let f := this s in
  set_this (mkFields (currentStyle f) (fileMonitor f) (windowSignalIds f) v
                     (isWindowMaximized f) (overviewShowingConnection f)
                     (overviewHidingConnection f) (screenShieldConnection f)
                     (backgroundSignals f) (settingsConnections f)) s.

Definition set_isWindowMaximized (v : bool) (s : State) : State :=
  let f := this s in
  set_this (mkFields (currentStyle f) (fileMonitor f) (windowSignalIds f)
                     (actorSignalIds f) v (overviewShowingConnection f)
                     (overviewHidingConnection f) (screenShieldConnection f)
                     (backgroundSignals f) (settingsConnections f)) s.

Definition set_overviewShowingConnection (v : option Z) (s : State) : State :=
  let f := this s in
  set_this (mkFields (currentStyle f) (fileMonitor f) (windowSignalIds f)
                     (actorSignalIds f) (isWindowMaximized f) v
                     (overviewHidingConnection f) (screenShieldConnection f)
                     (backgroundSignals f) (settingsConnections f)) s.

Definition set_overviewHidingConnection (v : option Z) (s : State) : State :=
  let f := this s in
  set_this (mkFields (currentStyle f) (fileMonitor f) (windowSignalIds f)
                     (actorSignalIds f) (isWindowMaximized f)
                     (overviewShowingConnection f) v (screenShieldConnection f)
                     (backgroundSignals f) (settingsConnections f)) s.

Definition set_screenShieldConnection (v : option Z) (s : State) : State :=
  let f := this s in
  set_this (mkFields (currentStyle f) (fileMonitor f) (windowSignalIds f)
                     (actorSignalIds f) (isWindowMaximized f)
                     (overviewShowingConnection f) (overviewHidingConnection f) v
                     (backgroundSignals f) (settingsConnections f)) s.

Definition set_backgroundSignals (v : list Z) (s : State) : State :=
  let f := this s in
  set_this (mkFields (currentStyle f) (fileMonitor f) (windowSignalIds f)
                     (actorSignalIds f) (isWindowMaximized f)
                     (overviewShowingConnection f) (overviewHidingConnection f)
                     (screenShieldConnection f) v (settingsConnections f)) s.

Definition set_settingsConnections (v : list Z) (s : State) : State :=
  let f := this s in
  set_this (mkFields (currentStyle f) (fileMonitor f) (windowSignalIds f)
                     (actorSignalIds f) (isWindowMaximized f)
                     (overviewShowingConnection f) (overviewHidingConnection f)
                     (screenShieldConnection f) (backgroundSignals f) v) s.

(** *** The calls into the shell *)

(** [St.Widget]: [has_style_class_name], [add_style_class_name] (nothing
    to do when the class is there) and [remove_style_class_name]. *)
Definition has_style_class_name (p : Panel) (c : string) : bool :=
  existsb (String.eqb c) (style_class p).

Definition add_style_class_name (c : string) (p : Panel) : Panel :=
  if has_style_class_name p c then p
  else mkPanel (style_class p ++ [c]) (opacity p) (translation_y p)
               (panel_height p).

Definition remove_style_class_name (c : string) (p : Panel) : Panel :=
  mkPanel (filter (fun c' => negb (String.eqb c c')) (style_class p))
          (opacity p) (translation_y p) (panel_height p).

Definition set_opacity (v : Z) (p : Panel) : Panel :=
  mkPanel (style_class p) v (translation_y p) (panel_height p).

Definition set_translation_y (v : Z) (p : Panel) : Panel :=
  mkPanel (style_class p) (opacity p) v (panel_height p).

(** [object.connect(signal, handler)]: the handler is connected and its
    id returned. *)
Definition connect (e : Emitter) (h : Handler) (s : State) : Z * State :=
  let sh := shell s in
  let id := next_id sh in
  (id, set_shell (mkShell (panel sh) (connections sh ++ [mkConnection e id h])
                          (id + 1) (timeouts sh) (monitors sh)
                          (next_monitor sh)) s).

(** [object.disconnect(id)]: the handler of that id on that object is
    removed; an id the object does not know removes nothing. *)
Definition disconnect (e : Emitter) (id : Z) (s : State) : State :=
  set_connections
    (filter (fun c => negb (Emitter_eqb (emitter c) e && (handler_id c =? id)))
            (connections (shell s))) s.

(** [GLib.timeout_add(GLib.PRIORITY_DEFAULT, delay, callback)]. *)
Definition timeout_add (delay : Z) (callback : Callback) (s : State) : State :=
  let sh := shell s in
  set_shell (mkShell (panel sh) (connections sh) (next_id sh)
                     (timeouts sh ++ [(delay, callback)]) (monitors sh)
                     (next_monitor sh)) s.

(** [monitor.cancel()]. *)
Definition cancel (m : Z) (s : State) : State :=
  let sh := shell s in
  set_shell (mkShell (panel sh) (connections sh) (next_id sh) (timeouts sh)
                     (filter (fun e => negb (fst e =? m)) (monitors sh))
                     (next_monitor sh)) s.

(** A new monitor on [path], returned by [file.monitor_file]. *)
Definition new_monitor (path : string) (s : State) : Z * State :=
  let sh := shell s in
  let m := next_monitor sh in
  (m, set_shell (mkShell (panel sh) (connections sh) (next_id sh) (timeouts sh)
                         (monitors sh ++ [(m, path)]) (m + 1)) s).

(** A number used as a condition: 0 is false. *)
Definition truthy (id : option Z) : option Z :=
  match id with
  | Some n => if n =? 0 then None else Some n
  | None => None
  end.

(** [map.has(key)], [map.set(key, value)] (a known key keeps its place)
    and [map.delete(key)]. *)
Definition map_has {V : Type} (m : list (Z * V)) (k : Z) : bool :=
  existsb (fun e => fst e =? k) m.

Fixpoint map_set {V : Type} (m : list (Z * V)) (k : Z) (v : V) : list (Z * V) :=
  match m with
  | [] => [(k, v)]
  | e :: m' => if fst e =? k then (k, v) :: m' else e :: map_set m' k v
  end.

Definition map_delete {V : Type} (m : list (Z * V)) (k : Z) : list (Z * V) :=
  filter (fun e => negb (fst e =? k)) m.

Definition map_get {V : Type} (m : list (Z * V)) (k : Z) : option V :=
  option_map snd (find (fun e => fst e =? k) m).

(** *** The methods *)

Definition adaptive_classes : list string :=
  ["dark"; "light"; "translucent-dark"; "translucent-light"; "maximized"]%string.

(** [#detectMaximizedWindow], on the windows of the active workspace. *)
Fixpoint detectMaximizedWindow (windows : list Window) : bool :=
  match windows with
  | [] => false
  | window :: rest =>
      if is_hidden window || minimized window then detectMaximizedWindow rest
      else
        match get_compositor_private window with
        | None => detectMaximizedWindow rest
        | Some _ =>
            match window_type window with
            | other_type => detectMaximizedWindow rest
            | NORMAL =>
                if get_maximized window =? BOTH then true
                else detectMaximizedWindow rest
            end
        end
  end.

(** A window that makes the panel take the maximized style: shown, with
    an actor, of the normal type, maximized in both directions. *)
Definition counts_as_maximized (window : Window) : bool :=
  negb (is_hidden window) && negb (minimized window)
  && (match get_compositor_private window with Some _ => true | None => false end)
  && (match window_type window with NORMAL => true | other_type => false end)
  && (get_maximized window =? BOTH).

(** [#applyStyle(style)]; [#currentStyle] is null or a string. *)
Definition applyStyle (style : string) (s : State) : State :=
  let unchanged := match currentStyle (this s) with
                   | Some current => String.eqb current style
                   | None => false
                   end in
  if unchanged then s
  else
    let p := panel (shell s) in
    let p := remove_style_class_name "dark" p in
    let p := remove_style_class_name "light" p in
    let p := remove_style_class_name "translucent-dark" p in
    let p := remove_style_class_name "translucent-light" p in
    let p := remove_style_class_name "maximized" p in
    let p := if String.eqb style "maximized"
             then add_style_class_name "maximized" p
             else add_style_class_name style p in
    set_currentStyle (Some style) (set_panel p s).

(** [#restoreOriginalStyle()]; [#panel] is never null. *)
Definition restoreOriginalStyle (s : State) : State :=
  let p := panel (shell s) in
  let p := set_opacity 255 p in
  let p := remove_style_class_name "dark" p in
  let p := remove_style_class_name "light" p in
  let p := remove_style_class_name "translucent-dark" p in
  let p := remove_style_class_name "translucent-light" p in
  let p := remove_style_class_name "maximized" p in
  set_panel p s.

(** [#onWallpaperChanged()]: the work is put off by 100 ms. *)
Definition onWallpaperChanged (s : State) : State :=
  timeout_add 100 wallpaper_callback s.

(** [#updateMaximizedState()]. *)
Definition updateMaximizedState (env : Env) (s : State) : State :=
  let state := detectMaximizedWindow (list_windows env) in
  let wasMaximized := isWindowMaximized (this s) in
  let s := set_isWindowMaximized state s in
  if Bool.eqb wasMaximized state then s else onWallpaperChanged s.

(** [#onWindowActorAdded(container, metaWindowActor)]; the container is
    not used. *)
Definition onWindowActorAdded (metaWindowActor : Actor) (s : State) : State :=
  let s := match windowSignalIds (this s) with
           | None => set_windowSignalIds (Some []) s
           | Some _ => s
           end in
  let s := match actorSignalIds (this s) with
           | None => set_actorSignalIds (Some []) s
           | Some _ => s
           end in
  let window := get_meta_window metaWindowActor in
  match windowSignalIds (this s), actorSignalIds (this s) with
  | Some windows, Some actors =>
      if map_has windows window then s
      else
        let '(id, s) := connect (metaWindow window) on_size_changed s in
        let signalIds := [id] in
        let s := set_windowSignalIds (Some (map_set windows window signalIds)) s in
        let '(actorSignalId, s) :=
          connect (windowActor (actor_id metaWindowActor))
                  (on_actor_destroy window (actor_id metaWindowActor)) s in
        set_actorSignalIds
          (Some (map_set actors (actor_id metaWindowActor) actorSignalId)) s
  | _, _ => s
  end.

(** [#onWindowActorRemoved(metaWindow, metaWindowActor)]. *)
Definition onWindowActorRemoved (window actor : Z) (s : State) : State :=
  let s := match windowSignalIds (this s) with
           | Some windows =>
               match map_get windows window with
               | Some signalIds =>
                   let s := fold_left
                              (fun s signalId =>
                                 disconnect (metaWindow window) signalId s)
                              signalIds s in
                   set_windowSignalIds (Some (map_delete windows window)) s
               | None => s
               end
           | None => s
           end in
  let s := match actorSignalIds (this s) with
           | Some actors =>
               if map_has actors actor
               then set_actorSignalIds (Some (map_delete actors actor)) s
               else s
           | None => s
           end in
  timeout_add 100 maximized_check s.

(** The handler of ['window-created']. *)
Definition window_created (window : Window) (s : State) : State :=
  match get_compositor_private window with
  | Some metaWindowActor => onWindowActorAdded metaWindowActor s
  | None => s
  end.

(** [#setupWindowTracking()]; the id of the ['window-created'] handler is
    not kept. *)
Definition setupWindowTracking (env : Env) (s : State) : State :=
  let s := set_windowSignalIds (Some []) s in
  let s := set_actorSignalIds (Some []) s in
  let s := fold_left (fun s window => window_created window s)
                     (list_windows env) s in
  snd (connect display on_window_created s).

(** [#cleanupWindowTracking()]. *)
Definition cleanupWindowTracking (s : State) : State :=
  let s := match windowSignalIds (this s) with
           | Some windows =>
               let s := fold_left
                          (fun s entry =>
                             fold_left
                               (fun s signalId =>
                                  disconnect (metaWindow (fst entry)) signalId s)
                               (snd entry) s)
                          windows s in
               set_windowSignalIds None s
           | None => s
           end in
  match actorSignalIds (this s) with
  | Some actors =>
      let s := fold_left
                 (fun s entry => disconnect (windowActor (fst entry)) (snd entry) s)
                 actors s in
      set_actorSignalIds None s
  | None => s
  end.

Section Runtime.

(** Outside the repository: [decodeURIComponent], which throws on a
    malformed escape; the image library of [WallpaperAnalyzer]; and
    [Gio.File.monitor_file], which may fail. *)
Variable decodeURIComponent : string -> throws string.
Variable new_from_file : string -> throws Pixbuf.
Variable new_subpixbuf : Pixbuf -> Z -> Z -> Z -> Z -> throws Pixbuf.
Variable monitor_file : string -> throws unit.

(** [#getWallpaperPath()]: the path, or null when decoding throws. *)
Definition getWallpaperPath (env : Env) : option string :=
  let colorScheme := color_scheme env in
  let isDarkMode := String.eqb colorScheme "prefer-dark" in
  let uri := if isDarkMode then picture_uri_dark env else picture_uri env in
  let uri := if String.prefix "file://" uri
             then String.substring 7 (String.length uri - 7) uri
             else uri in
  match decodeURIComponent uri with
  | inr uri => Some uri
  | inl _ => None
  end.

(** [#setupFileMonitor()]; a failure is logged and nothing is changed. *)
Definition setupFileMonitor (env : Env) (s : State) : State :=
  match getWallpaperPath env with
  | Some wallpaperPath =>
      if String.eqb wallpaperPath "" then s
      else
        match monitor_file wallpaperPath with
        | inr _ =>
            let '(m, s) := new_monitor wallpaperPath s in
            set_fileMonitor (Some m) s
        | inl _ => s
        end
  | None => s
  end.

(** The handler of the monitor's ['changed']; a cancelled monitor emits
    nothing. *)
Definition monitor_changed (m : Z) (eventType : FileMonitorEvent) (s : State)
  : State :=
  if map_has (monitors (shell s)) m then
    match eventType with
    | CHANGED | CREATED | ATTRIBUTE_CHANGED => timeout_add 200 file_changed s
    | other_event => s
    end
  else s.

(** The callback of [#onWallpaperChanged()]. *)
Definition wallpaperChanged (env : Env) (s : State) : State :=
  let panelMode := panel_mode env in
  if negb (String.eqb panelMode "automatic") then applyStyle panelMode s
  else if isWindowMaximized (this s) then applyStyle "maximized" s
  else
    match getWallpaperPath env with
    | None => applyStyle "light" s
    | Some wallpaperPath =>
        if String.eqb wallpaperPath "" then applyStyle "light" s
        else
          let s := match fileMonitor (this s) with
                   | Some m => set_fileMonitor None (cancel m s)
                   | None => s
                   end in
          let s := setupFileMonitor env s in
          let threshold := luminance_threshold env in
          let panelHeight :=
            if panel_height (panel (shell s)) =? 0 then 32
            else panel_height (panel (shell s)) in
          let result :=
            analyze new_from_file new_subpixbuf wallpaperPath threshold
                    panelHeight in
          applyStyle (style_of result) s
    end.

(** The style that callback hands to [#applyStyle]. *)
Definition chosen_style (env : Env) (s : State) : string :=
  if negb (String.eqb (panel_mode env) "automatic") then panel_mode env
  else if isWindowMaximized (this s) then "maximized"%string
  else
    match getWallpaperPath env with
    | None => "light"%string
    | Some wallpaperPath =>
        if String.eqb wallpaperPath "" then "light"%string
        else
          style_of (analyze new_from_file new_subpixbuf wallpaperPath
                            (luminance_threshold env)
                            (if panel_height (panel (shell s)) =? 0 then 32
                             else panel_height (panel (shell s))))
    end.

(** What each callback does when its time has come. *)
Definition run (callback : Callback) (env : Env) (s : State) : State :=
  match callback with
  | wallpaper_callback => wallpaperChanged env s
  | initial_check => onWallpaperChanged s
  | maximized_check => updateMaximizedState env s
  | unlocked => onWallpaperChanged (set_currentStyle None s)
  | file_changed => onWallpaperChanged s
  | hiding_complete =>
      let p := set_opacity 255 (set_translation_y 0 (panel (shell s))) in
      let s := set_panel p s in
      match currentStyle (this s) with
      | Some savedStyle =>
          if String.eqb savedStyle "" then s
          else applyStyle savedStyle (set_currentStyle None s)
      | None => s
      end
  end.

(** What each handler does when its signal is emitted; [created] is the
    window a ['window-created'] comes with. *)
Definition handle (h : Handler) (created : Window) (env : Env) (s : State)
  : State :=
  match h with
  | on_background_changed
  | on_dark_background_changed
  | on_color_scheme_changed
  | on_panel_mode_changed
  | on_luminance_threshold_changed => onWallpaperChanged s
  | on_overview_showing =>
      let p := panel (shell s) in
      let panelHeight := panel_height p in
      set_panel (set_opacity 0 (set_translation_y (- panelHeight) p)) s
  | on_overview_hiding =>
      let p := panel (shell s) in
      let s := set_panel (set_opacity 0 (set_translation_y (-6) p)) s in
      timeout_add 200 hiding_complete s
  | on_active_changed =>
      if negb (locked env) then timeout_add 500 unlocked s else s
  | on_window_created => window_created created s
  | on_size_changed => updateMaximizedState env s
  | on_actor_destroy window actor => onWindowActorRemoved window actor s
  end.

(** [enable()]. *)
Definition enable (env : Env) (s : State) : State :=
  let '(id, s) := connect backgroundSettings on_background_changed s in
  let s := set_backgroundSignals (backgroundSignals (this s) ++ [id]) s in
  let '(id, s) := connect backgroundSettings on_dark_background_changed s in
  let s := set_backgroundSignals (backgroundSignals (this s) ++ [id]) s in
  let '(id, s) := connect interfaceSettings on_color_scheme_changed s in
  let s := set_backgroundSignals (backgroundSignals (this s) ++ [id]) s in
  let '(id, s) := connect settings on_panel_mode_changed s in
  let s := set_settingsConnections (settingsConnections (this s) ++ [id]) s in
  let '(id, s) := connect settings on_luminance_threshold_changed s in
  let s := set_settingsConnections (settingsConnections (this s) ++ [id]) s in
  let s := setupFileMonitor env s in
  let '(id, s) := connect overview on_overview_showing s in
  let s := set_overviewShowingConnection (Some id) s in
  let '(id, s) := connect overview on_overview_hiding s in
  let s := set_overviewHidingConnection (Some id) s in
  let '(id, s) := connect screenShield on_active_changed s in
  let s := set_screenShieldConnection (Some id) s in
  let s := setupWindowTracking env s in
  let s := timeout_add 100 initial_check s in
  timeout_add 300 maximized_check s.

(** [disable()]. *)
Definition disable (s : State) : State :=
  let s := match fileMonitor (this s) with
           | Some m => set_fileMonitor None (cancel m s)
           | None => s
           end in
  let s := match truthy (overviewShowingConnection (this s)) with
           | Some id => set_overviewShowingConnection None (disconnect overview id s)
           | None => s
           end in
  let s := match truthy (overviewHidingConnection (this s)) with
           | Some id => set_overviewHidingConnection None (disconnect overview id s)
           | None => s
           end in
  let s := match truthy (screenShieldConnection (this s)) with
           | Some id => set_screenShieldConnection None (disconnect screenShield id s)
           | None => s
           end in
  let s := fold_left (fun s id => disconnect backgroundSettings id s)
                     (backgroundSignals (this s)) s in
  let s := set_backgroundSignals [] s in
  let s := fold_left (fun s id => disconnect settings id s)
                     (settingsConnections (this s)) s in
  let s := set_settingsConnections [] s in
  let s := cleanupWindowTracking s in
  restoreOriginalStyle s.

(** *** The main loop *)

(** What the shell may do next: run the pending timeout at a position, call
    the handler of an id on an object (with the window of
    ['window-created']), or report a file event on a monitor. *)
Inductive Event :=
| timeout (position : nat)
| signal (e : Emitter) (id : Z) (created : Window)
| file_event (m : Z) (eventType : FileMonitorEvent).

(** The handler of the id [id] on the object [e], if there is one. *)
Definition connection_of (e : Emitter) (id : Z) (s : State) : option Connection :=
  find (fun c => Emitter_eqb (emitter c) e && (handler_id c =? id))
       (connections (shell s)).

(** The pending timeouts without the one at [position]. *)
Definition drop_timeout (position : nat) (s : State) : State :=
  let sh := shell s in
  set_shell (mkShell (panel sh) (connections sh) (next_id sh)
                     (firstn position (timeouts sh)
                      ++ skipn (S position) (timeouts sh))
                     (monitors sh) (next_monitor sh)) s.

Definition step (ev : Event) (env : Env) (s : State) : State :=
  match ev with
  | timeout position =>
      match nth_error (timeouts (shell s)) position with
      | Some (_, callback) => run callback env (drop_timeout position s)
      | None => s
      end
  | signal e id created =>
      match connection_of e id s with
      | Some c => handle (handler c) created env s
      | None => s
      end
  | file_event m eventType => monitor_changed m eventType s
  end.

(** A run of the main loop: the events in order, each with the
    environment it finds. *)
Definition steps (events : list (Event * Env)) (s : State) : State :=
  fold_left (fun s e => step (fst e) (snd e) s) events s.

End Runtime.

(** The panel once the five classes are removed and [style] is added. *)
Definition restyled (style : string) (p : Panel) : Panel :=
  let p := remove_style_class_name "dark" p in
  let p := remove_style_class_name "light" p in
  let p := remove_style_class_name "translucent-dark" p in
  let p := remove_style_class_name "translucent-light" p in
  let p := remove_style_class_name "maximized" p in
  add_style_class_name style p.

(** The adaptive classes the panel carries. *)
Definition carried (p : Panel) : list string :=
  filter (has_style_class_name p) adaptive_classes.

(** The panel carries at most one adaptive class, and the style the module
    believes it applied is on the panel. *)
Definition consistent (s : State) : Prop :=
  (List.length (carried (panel (shell s))) <= 1)%nat
  /\ forall style, currentStyle (this s) = Some style ->
                   has_style_class_name (panel (shell s)) style = true.

(** What the style of the panel depends on. *)
Definition view (s : State) : list string * option string :=
  (style_class (panel (shell s)), currentStyle (this s)).

(** What connecting, disconnecting and monitoring leave alone. *)
Definition kept (s : State) : Panel * list (Z * Callback) * option string * bool :=
  (panel (shell s), timeouts (shell s), currentStyle (this s),
   isWindowMaximized (this s)).

(** *** What [disable] disconnects *)

(** A handler seen as [disconnect] sees it: the object and the id. *)
Definition matches (c : Connection) (k : Emitter * Z) : bool :=
  Emitter_eqb (emitter c) (fst k) && (handler_id c =? snd k).

(** The pairs the two maps of the window tracking hold. *)
Definition recorded (windows : list (Z * list Z)) (actors : list (Z * Z))
  : list (Emitter * Z) :=
  flat_map (fun e => map (fun id => (metaWindow (fst e), id)) (snd e)) windows
  ++ map (fun e => (windowActor (fst e), snd e)) actors.

Definition entries {V : Type} (m : option (list (Z * V))) : list (Z * V) :=
  match m with Some l => l | None => [] end.

Definition one (e : Emitter) (id : option Z) : list (Emitter * Z) :=
  match truthy id with Some n => [(e, n)] | None => [] end.

(** The calls of [disconnect] that [disable] makes, each with the object
    it is made on. *)
Definition disconnected (f : Fields) : list (Emitter * Z) :=
  one overview (overviewShowingConnection f)
  ++ one overview (overviewHidingConnection f)
  ++ one screenShield (screenShieldConnection f)
  ++ map (fun id => (backgroundSettings, id)) (backgroundSignals f)
  ++ map (fun id => (settings, id)) (settingsConnections f)
  ++ recorded (entries (windowSignalIds f)) (entries (actorSignalIds f)).

(** Disconnecting a list of handlers, one call after the other. *)
Definition disconnect_all (keys : list (Emitter * Z)) (s : State) : State :=
  fold_left (fun s k => disconnect (fst k) (snd k) s) keys s.

(** The actors of the windows that have one. *)
Definition actor_ids (windows : list Window) : list Z :=
  flat_map (fun w => match get_compositor_private w with
                     | Some a => [actor_id a]
                     | None => []
                     end) windows.

(** What the tracking holds: every handler in [added] is recorded in the
    maps, the recorded ids are new, and the actors in the map are among
    those seen. *)
Definition tracked (n : Z) (seen : list Z) (added : list Connection)
           (wm : list (Z * list Z)) (am : list (Z * Z)) : Prop :=
  (forall x, In x added -> existsb (matches x) (recorded wm am) = true)
  /\ (forall k, In k (recorded wm am) -> n <= snd k)
  /\ (forall a, In a (map fst am) -> In a seen).

(** The file monitors: those not cancelled, the one the module holds, and
    the number the next one gets. *)
Definition watch (s : State) : list (Z * string) * option Z * Z :=
  (monitors (shell s), fileMonitor (this s), next_monitor (shell s)).

(** The only monitor not cancelled is the one in [#fileMonitor]. *)
Definition owns_monitors (s : State) : Prop :=
  map fst (monitors (shell s))
  = match fileMonitor (this s) with Some m => [m] | None => [] end.

(** *** Stand-ins at concrete inputs *)

(** A shell with a panel of height 32 and nothing connected, and the
    module as constructed. *)
Definition idle : State :=
  mkState (mkShell (mkPanel ["panel"%string] 255 0 32) [] 1 [] [] 1) new_fields.

(** A shown window of the normal type, with its actor. *)
Definition normal_window (id maximized : Z) : Window :=
  mkWindow id false false (Some (mkActor (id + 1000) id)) NORMAL maximized.

(** Automatic mode, the default threshold, a light colour scheme. *)
Definition automatic (uri : string) (windows : list Window) : Env :=
  mkEnv "automatic" default_luminanceThreshold "default" uri uri windows false.

(** A decoder that leaves the text as it is, and one that rejects it. *)
Definition decode_plain (uri : string) : throws string := inr uri.

Definition decode_malformed (uri : string) : throws string :=
  inl "URI malformed"%string.

(** Every file can be monitored. *)
Definition monitor_any (path : string) : throws unit := inr tt.

End AdaptivePanel.

(* ===================================================================== *)
(** ** PanelPrefs *)
(* ===================================================================== *)

Module PanelPrefs.

(** A property looked up on an object literal: a number of its own,
    something inherited from [Object.prototype], or [undefined]. *)
Inductive Property := own (n : Z) | inherited_value | undefined.

(** The object literal [modeMap] and the array [reverseModeMap] of
    [buildPage]. *)
Definition modeMap : list (string * Z) :=
  [("automatic", 0); ("dark", 1); ("light", 2);
   ("translucent-dark", 3); ("translucent-light", 4)]%string.

Definition reverseModeMap : list string :=
  ["automatic"; "dark"; "light"; "translucent-dark"; "translucent-light"]%string.

Section Lookup.

(** Whether a name is a property of [Object.prototype]. *)
Variable inherited : string -> bool.

(** [modeMap[currentMode]]. *)
Definition modeMap_get (currentMode : string) : Property :=
  match find (fun e => String.eqb (fst e) currentMode) modeMap with
  | Some e => own (snd e)
  | None => if inherited currentMode then inherited_value else undefined
  end.

(** [modeMap[currentMode] || 0], the argument of [set_selected]: a
    position, or an inherited value that is not one. *)
Definition initial_selection (currentMode : string) : option Z :=
  match modeMap_get currentMode with
  | own n => Some (if n =? 0 then 0 else n)
  | inherited_value => None
  | undefined => Some 0
  end.

End Lookup.

(** [reverseModeMap[widget.selected]], the value written to ['panel-mode']:
    [None] is [undefined]. *)
Definition selected_mode (selected : Z) : option string :=
  if selected <? 0 then None else nth_error reverseModeMap (Z.to_nat selected).

End PanelPrefs.

(* ===================================================================== *)
(** * Properties *)
(* ===================================================================== *)

(* ===================================================================== *)
(** ** The order of doubles *)
(* ===================================================================== *)

(** [<] on doubles, through the specification of the primitive comparison:
    a strict order on the numbers, false whenever a NaN is involved. *)
Module FloatOrder.

Ltac cmp_cases :=
  repeat match goal with
  | |- context [Z.compare ?a ?b] => destruct (Z.compare_spec a b)
  | |- context [Pos.compare_cont Eq ?a ?b] =>
      change (Pos.compare_cont Eq a b) with (Pos.compare a b);
      destruct (Pos.compare_spec a b)
  end.

Lemma SFltb_trans (x y z : spec_float) :
  SFltb x y = true -> SFltb y z = true -> SFltb x z = true.
Proof.
  unfold SFltb, SFcompare.
  destruct x as [sx|sx| |sx mx ex], y as [sy|sy| |sy my ey],
           z as [sz|sz| |sz mz ez];
    try destruct sx; try destruct sy; try destruct sz;
    try reflexivity; try discriminate;
    cmp_cases; simpl; intros; subst;
    try reflexivity; try discriminate; try lia.
Qed.

Lemma SFltb_irrefl (x : spec_float) : SFltb x x = false.
Proof.
  unfold SFltb, SFcompare.
  destruct x as [sx|sx| |sx mx ex]; try destruct sx; try reflexivity;
    rewrite Z.compare_refl;
    change (Pos.compare_cont Eq mx mx) with (Pos.compare mx mx);
    rewrite Pos.compare_refl; reflexivity.
Qed.

Lemma SFltb_nan_l (y : spec_float) : SFltb S754_nan y = false.
Proof. reflexivity. Qed.

Lemma SFltb_nan_r (x : spec_float) : SFltb x S754_nan = false.
Proof. destruct x; reflexivity. Qed.

Lemma ltb_trans (x y z : float) :
  PrimFloat.ltb x y = true -> PrimFloat.ltb y z = true ->
  PrimFloat.ltb x z = true.
Proof. rewrite !FloatAxioms.ltb_spec. apply SFltb_trans. Qed.

Lemma ltb_irrefl (x : float) : PrimFloat.ltb x x = false.
Proof. rewrite FloatAxioms.ltb_spec. apply SFltb_irrefl. Qed.

Lemma ltb_nan_l (y : float) : PrimFloat.ltb JS.NaN y = false.
Proof. rewrite FloatAxioms.ltb_spec. reflexivity. Qed.

Lemma ltb_nan_r (x : float) : PrimFloat.ltb x JS.NaN = false.
Proof. rewrite FloatAxioms.ltb_spec. apply SFltb_nan_r. Qed.

End FloatOrder.

(* ===================================================================== *)
(** ** Rounding and bounds *)
(* ===================================================================== *)

Module FloatBounds.

Lemma bpow_pos (e : Z) : (0 < bpow e)%R.
Proof. apply powerRZ_lt. lra. Qed.

Lemma bpow_add (a b : Z) : bpow (a + b) = (bpow a * bpow b)%R.
Proof. apply powerRZ_add. lra. Qed.

Lemma bpow_0 : bpow 0 = 1%R.
Proof. reflexivity. Qed.

Lemma bpow_1 : bpow 1 = 2%R.
Proof. unfold bpow. simpl. lra. Qed.

Lemma bpow_m1 : bpow (-1) = (/ 2)%R.
Proof. unfold bpow. simpl. rewrite Rmult_1_r. reflexivity. Qed.

Lemma bpow_opp (a : Z) : bpow (- a) = (/ bpow a)%R.
Proof. apply powerRZ_neg'. Qed.

Lemma bpow_IZR (e : Z) : 0 <= e -> bpow e = IZR (2 ^ e).
Proof.
  intros He. unfold bpow.
  rewrite <- (Z2Nat.id e He), <- pow_powerRZ, pow_IZR. reflexivity.
Qed.

Lemma bpow_ge_1 (e : Z) : 0 <= e -> (1 <= bpow e)%R.
Proof.
  intros He. rewrite bpow_IZR by assumption. apply IZR_le.
  assert (0 < 2 ^ e) by (apply Z.pow_pos_nonneg; lia). lia.
Qed.

Lemma bpow_le (a b : Z) : a <= b -> (bpow a <= bpow b)%R.
Proof.
  intros H. replace b with (a + (b - a)) by lia. rewrite bpow_add.
  pose proof (bpow_pos a). pose proof (bpow_ge_1 (b - a) ltac:(lia)). nra.
Qed.

Lemma bpow_lt (a b : Z) : a < b -> (bpow a < bpow b)%R.
Proof.
  intros H. replace b with (a + 1 + (b - a - 1)) by lia. rewrite !bpow_add.
  pose proof (bpow_pos a). pose proof (bpow_ge_1 (b - a - 1) ltac:(lia)).
  rewrite bpow_1. nra.
Qed.

Lemma bpow_inv (a : Z) : (bpow a * bpow (- a) = 1)%R.
Proof. rewrite <- bpow_add, Z.add_opp_diag_r. reflexivity. Qed.

(** *** Digits *)

Lemma digits2_pos_bounds (m : positive) :
  2 ^ (Z.pos (digits2_pos m) - 1) <= Z.pos m < 2 ^ Z.pos (digits2_pos m).
Proof.
  induction m as [m IH|m IH|]; simpl digits2_pos.
  - rewrite Pos2Z.inj_succ.
    replace (Z.succ (Z.pos (digits2_pos m)) - 1)
      with (Z.succ (Z.pos (digits2_pos m) - 1)) by lia.
    rewrite !Z.pow_succ_r by lia. lia.
  - rewrite Pos2Z.inj_succ.
    replace (Z.succ (Z.pos (digits2_pos m)) - 1)
      with (Z.succ (Z.pos (digits2_pos m) - 1)) by lia.
    rewrite !Z.pow_succ_r by lia. lia.
  - simpl. lia.
Qed.

Lemma Zdigits2_bounds (m : Z) :
  0 < m -> 2 ^ (Zdigits2 m - 1) <= m < 2 ^ Zdigits2 m.
Proof.
  destruct m as [|p|p]; try lia. intros _. apply digits2_pos_bounds.
Qed.

Lemma Zdigits2_nonneg (m : Z) : 0 <= Zdigits2 m.
Proof. destruct m; simpl; lia. Qed.

Lemma Zdigits2_le (m : Z) (k : Z) : 0 <= k -> 0 <= m < 2 ^ k -> Zdigits2 m <= k.
Proof.
  intros Hk Hm. destruct (Z.eq_dec m 0) as [->|Hn]; [simpl; lia|].
  destruct (Zdigits2_bounds m ltac:(lia)) as [Hlo _].
  destruct (Z_le_gt_dec (Zdigits2 m) k) as [|Hgt]; [assumption|exfalso].
  assert (2 ^ k <= 2 ^ (Zdigits2 m - 1)) by (apply Z.pow_le_mono_r; lia).
  lia.
Qed.

Lemma Zdigits2_ge (m : Z) (k : Z) : 2 ^ k <= m -> 0 <= k -> k + 1 <= Zdigits2 m.
Proof.
  intros Hm Hk.
  assert (0 < 2 ^ k) by (apply Z.pow_pos_nonneg; lia).
  destruct (Zdigits2_bounds m ltac:(lia)) as [_ Hhi].
  destruct (Z_le_gt_dec (k + 1) (Zdigits2 m)) as [|Hgt]; [assumption|exfalso].
  assert (2 ^ Zdigits2 m <= 2 ^ k)
    by (apply Z.pow_le_mono_r; [lia|lia]).
  lia.
Qed.

(** *** Shifting right, with round and sticky bits *)

Lemma located_floor (m : Z) (l : location) (x : R) :
  located m l x -> (IZR m <= x < IZR m + 1)%R.
Proof. destruct l as [|[| |]]; simpl; lra. Qed.

Lemma loc_of_record_of_loc (m : Z) (l : location) :
  loc_of_shr_record (shr_record_of_loc m l) = l
  /\ shr_m (shr_record_of_loc m l) = m.
Proof. destruct l as [|[| |]]; split; reflexivity. Qed.

Lemma IZR_xO (p : positive) :
  IZR (Z.pos p~0) = (IZR (Z.pos p) + IZR (Z.pos p))%R.
Proof. rewrite Pos2Z.inj_xO, mult_IZR. lra. Qed.

Lemma IZR_xI (p : positive) :
  IZR (Z.pos p~1) = (IZR (Z.pos p) + IZR (Z.pos p) + 1)%R.
Proof. rewrite Pos2Z.inj_xI, plus_IZR, mult_IZR. lra. Qed.

Lemma shr_1_located (mrs : shr_record) (x : R) :
  0 <= shr_m mrs -> located_record mrs x ->
  0 <= shr_m (shr_1 mrs) /\ located_record (shr_1 mrs) (x / 2).
Proof.
  unfold located_record.
  destruct mrs as [m r s]. simpl shr_m. intros Hm.
  destruct m as [|[p|p|]|p]; [| | | |exfalso; lia];
    destruct r, s;
    cbn [shr_1 loc_of_shr_record shr_m located orb];
    try rewrite (IZR_xO p); try rewrite (IZR_xI p);
    intros H; (split; [lia|lra]).
Qed.

Lemma iter_pos_shr_1 (p : positive) (mrs : shr_record) (x : R) :
  0 <= shr_m mrs -> located_record mrs x ->
  0 <= shr_m (SpecFloat.iter_pos shr_1 p mrs)
  /\ located_record (SpecFloat.iter_pos shr_1 p mrs) (x * bpow (- Z.pos p)).
Proof.
  revert mrs x. induction p as [p IH|p IH|]; intros mrs x Hm Hx; simpl SpecFloat.iter_pos.
  - destruct (shr_1_located mrs x Hm Hx) as [Hm1 Hx1].
    destruct (IH _ _ Hm1 Hx1) as [Hm2 Hx2].
    destruct (IH _ _ Hm2 Hx2) as [Hm3 Hx3].
    split; [assumption|].
    replace (x * bpow (- Z.pos p~1))%R
      with (x / 2 * bpow (- Z.pos p) * bpow (- Z.pos p))%R; [assumption|].
    rewrite Pos2Z.inj_xI.
    replace (- (2 * Z.pos p + 1)) with (- Z.pos p + (- Z.pos p + -1)) by lia.
    rewrite !bpow_add, bpow_m1. lra.
  - destruct (IH _ _ Hm Hx) as [Hm2 Hx2].
    destruct (IH _ _ Hm2 Hx2) as [Hm3 Hx3].
    split; [assumption|].
    replace (x * bpow (- Z.pos p~0))%R
      with (x * bpow (- Z.pos p) * bpow (- Z.pos p))%R; [assumption|].
    rewrite Pos2Z.inj_xO.
    replace (- (2 * Z.pos p)) with (- Z.pos p + - Z.pos p) by lia.
    rewrite !bpow_add. lra.
  - destruct (shr_1_located mrs x Hm Hx) as [Hm1 Hx1].
    split; [assumption|].
    change (- Z.pos 1) with (-1). rewrite bpow_m1. exact Hx1.
Qed.


(** *** The format: binary64 *)

Lemma fexp_eq (e : Z) : fexp prec emax e = Z.max (e - 53) (-1074).
Proof. reflexivity. Qed.

Lemma bounded_facts (m : positive) (e : Z) :
  SpecFloat.bounded prec emax m e = true ->
  Z.pos m < 2 ^ 53 /\ -1074 <= e <= 971 /\ (e = -1074 \/ 2 ^ 52 <= Z.pos m).
Proof.
  unfold SpecFloat.bounded, canonical_mantissa. rewrite andb_true_iff, fexp_eq.
  rewrite Z.eqb_eq, Z.leb_le. change (emax - prec) with 971.
  intros [Hc He].
  pose proof (digits2_pos_bounds m) as [Hlo Hhi].
  set (d := Z.pos (digits2_pos m)) in *.
  assert (d <= 53) by lia.
  assert (2 ^ d <= 2 ^ 53) by (apply Z.pow_le_mono_r; lia).
  repeat split; try lia.
  destruct (Z.eq_dec e (-1074)) as [|Hn]; [left; assumption|right].
  assert (d = 53) as Hd by lia. rewrite Hd in Hlo. exact Hlo.
Qed.

Lemma IZR_bpow_scale (a : Z) (e1 e2 : Z) :
  e2 <= e1 -> (IZR a * bpow e1 = IZR (a * 2 ^ (e1 - e2)) * bpow e2)%R.
Proof.
  intros H. rewrite mult_IZR, <- bpow_IZR by lia.
  rewrite Rmult_assoc, <- bpow_add. f_equal. f_equal. lia.
Qed.

Lemma IZR_lt_bpow (m k : Z) : 0 <= k -> (IZR m < bpow k)%R -> m < 2 ^ k.
Proof. intros Hk H. rewrite bpow_IZR in H by assumption. apply lt_IZR, H. Qed.

Lemma bpow_le_IZR (m k : Z) : 0 <= k -> (bpow k < IZR m + 1)%R -> 2 ^ k <= m.
Proof.
  intros Hk H. rewrite bpow_IZR in H by assumption.
  rewrite <- (plus_IZR m 1) in H. apply lt_IZR in H. lia.
Qed.

(** *** The first shift of [binary_round_aux] *)

Lemma shr_fexp_located (mx ex : Z) (lx : location) (x : R) :
  0 <= mx -> located mx lx x -> ex <= fexp prec emax (Zdigits2 mx + ex) ->
  let e' := fexp prec emax (Zdigits2 mx + ex) in
  exists mrs,
    shr_fexp prec emax mx ex lx = (mrs, e')
    /\ 0 <= shr_m mrs
    /\ located_record mrs (x * bpow (ex - e')).
Proof.
  intros Hm Hx He e'. unfold shr_fexp, shr.
  destruct (loc_of_record_of_loc mx lx) as [Hl Hr].
  assert (located_record (shr_record_of_loc mx lx) x) as Hrec
    by (unfold located_record; rewrite Hl, Hr; exact Hx).
  destruct (fexp prec emax (Zdigits2 mx + ex) - ex) as [|p|p] eqn:Hn.
  - exists (shr_record_of_loc mx lx). subst e'.
    assert (fexp prec emax (Zdigits2 mx + ex) = ex) as -> by lia.
    rewrite Z.sub_diag, bpow_0, Rmult_1_r, Hr. auto.
  - destruct (iter_pos_shr_1 p (shr_record_of_loc mx lx) x) as [H1 H2];
      [rewrite Hr; assumption|assumption|].
    exists (SpecFloat.iter_pos shr_1 p (shr_record_of_loc mx lx)). subst e'.
    replace (fexp prec emax (Zdigits2 mx + ex)) with (ex + Z.pos p) by lia.
    replace (ex - (ex + Z.pos p)) with (- Z.pos p) by lia. auto.
  - lia.
Qed.

Lemma shr_fexp_mantissa (mx ex : Z) (x : R) (m1 : Z) (l1 : location) :
  0 <= mx -> (IZR mx <= x < IZR mx + 1)%R ->
  let e' := fexp prec emax (Zdigits2 mx + ex) in
  ex <= e' ->
  located m1 l1 (x * bpow (ex - e')) ->
  m1 < 2 ^ 53 /\ -1074 <= e' /\ (e' = -1074 \/ 2 ^ 52 <= m1).
Proof.
  intros Hm Hx e' He Hloc. apply located_floor in Hloc.
  assert (He' : e' = Z.max (Zdigits2 mx + ex - 53) (-1074)) by reflexivity.
  clearbody e'.
  pose proof (bpow_pos (ex - e')) as Hp.
  destruct (Z.eq_dec mx 0) as [->|Hnz].
  - simpl Zdigits2 in He'.
    assert (e' = -1074) by lia.
    pose proof (bpow_le (ex - e') 0 ltac:(lia)) as Hb. rewrite bpow_0 in Hb.
    assert (IZR m1 < 1)%R as H1 by (simpl in Hx; nra).
    apply lt_IZR in H1. lia.
  - destruct (Zdigits2_bounds mx ltac:(lia)) as [Hlo Hhi].
    assert (1 <= Zdigits2 mx) as Hd by (destruct mx; simpl; lia).
    set (d := Zdigits2 mx) in *.
    assert (x < bpow d)%R as Hxd.
    { rewrite bpow_IZR by lia.
      apply Rlt_le_trans with (IZR mx + 1)%R; [lra|].
      rewrite <- (plus_IZR mx 1). apply IZR_le. lia. }
    assert (bpow (d - 1) <= x)%R as Hxl.
    { rewrite bpow_IZR by lia.
      apply Rle_trans with (IZR mx); [apply IZR_le; lia|lra]. }
    split; [|split; [lia|]].
    + apply IZR_lt_bpow; [lia|].
      apply Rle_lt_trans with (x * bpow (ex - e'))%R; [lra|].
      apply Rlt_le_trans with (bpow d * bpow (ex - e'))%R; [nra|].
      rewrite <- bpow_add. apply bpow_le. lia.
    + destruct (Z.eq_dec e' (-1074)) as [|Hn]; [left; assumption|right].
      apply bpow_le_IZR; [lia|].
      apply Rle_lt_trans with (x * bpow (ex - e'))%R; [|lra].
      apply Rle_trans with (bpow (d - 1) * bpow (ex - e'))%R; [|nra].
      rewrite <- bpow_add. apply bpow_le. lia.
Qed.


(** *** Rounding to nearest, ties to even *)

Lemma round_nearest_even_cases (m : Z) (l : location) (x : R) :
  located m l x ->
  (round_nearest_even m l = m /\ (x <= IZR m + /2)%R)
  \/ (round_nearest_even m l = m + 1 /\ (IZR m + /2 <= x)%R).
Proof.
  destruct l as [|[| |]]; simpl; intros H.
  - left. split; [reflexivity|lra].
  - destruct (Z.even m); [left|right]; split; try reflexivity; lra.
  - left. split; [reflexivity|lra].
  - right. split; [reflexivity|lra].
Qed.

(** *** The second shift *)

Lemma shr_fexp_exact (m e : Z) :
  -1074 <= e -> 0 <= m < 2 ^ 53 ->
  shr_fexp prec emax m e loc_Exact
  = ({| shr_m := m; shr_r := false; shr_s := false |}, e).
Proof.
  intros He Hm. unfold shr_fexp, shr. rewrite fexp_eq. simpl shr_record_of_loc.
  pose proof (Zdigits2_le m 53 ltac:(lia) Hm).
  destruct (Z.max (Zdigits2 m + e - 53) (-1074) - e) eqn:Hn;
    [reflexivity|lia|reflexivity].
Qed.

Lemma shr_fexp_carry (e : Z) :
  -1074 <= e ->
  shr_fexp prec emax (2 ^ 53) e loc_Exact
  = ({| shr_m := 2 ^ 52; shr_r := false; shr_s := false |}, e + 1).
Proof.
  intros He. unfold shr_fexp, shr. rewrite fexp_eq.
  change (Zdigits2 (2 ^ 53)) with 54.
  replace (Z.max (54 + e - 53) (-1074) - e) with 1 by lia.
  reflexivity.
Qed.

Lemma binary_round_aux_shape (sx : bool) (mx ex : Z) (lx : location) (x : R) :
  0 <= mx -> located mx lx x -> ex <= fexp prec emax (Zdigits2 mx + ex) ->
  exists m1 l1 e,
    binary_round_aux prec emax sx mx ex lx = rounded sx m1 l1 e
    /\ located m1 l1 (x * bpow (ex - e))
    /\ 0 <= m1 < 2 ^ 53 /\ -1074 <= e /\ (e = -1074 \/ 2 ^ 52 <= m1).
Proof.
  intros Hm Hx He.
  destruct (shr_fexp_located mx ex lx x Hm Hx He) as (mrs & Hs & Hm1 & Hl1).
  set (e := fexp prec emax (Zdigits2 mx + ex)) in *.
  destruct (shr_fexp_mantissa mx ex x (shr_m mrs) (loc_of_shr_record mrs)
              Hm (located_floor _ _ _ Hx) He Hl1) as (Hlt & Hemin & Hnorm).
  exists (shr_m mrs), (loc_of_shr_record mrs), e.
  split; [|repeat split; assumption].
  unfold binary_round_aux, rounded. rewrite Hs.
  destruct (round_nearest_even_cases _ _ _ Hl1) as [[-> _]|[-> _]].
  - rewrite shr_fexp_exact by lia. simpl shr_m.
    destruct (Z.eqb_spec (shr_m mrs) 0) as [->|Hnz]; [reflexivity|].
    destruct (Z.eqb_spec (shr_m mrs) (2 ^ 53)); [lia|].
    change (emax - prec) with 971.
    destruct (shr_m mrs) as [|p|p]; [lia|reflexivity|lia].
  - destruct (Z.eqb_spec (shr_m mrs + 1) 0); [lia|].
    destruct (Z.eqb_spec (shr_m mrs + 1) (2 ^ 53)) as [E|Hne].
    + rewrite E, shr_fexp_carry by lia. reflexivity.
    + rewrite shr_fexp_exact by lia. simpl shr_m.
      change (emax - prec) with 971.
      destruct (shr_m mrs + 1) as [|p|p] eqn:E; [lia|reflexivity|lia].
Qed.


(** *** Representable bounds pass through rounding *)

Lemma bounded_lt_bpow (m : positive) (e : Z) :
  SpecFloat.bounded prec emax m e = true ->
  (IZR (Z.pos m) * bpow e < bpow (53 + e))%R.
Proof.
  intros H. destruct (bounded_facts m e H) as (Hm & _ & _).
  rewrite bpow_add. apply Rmult_lt_compat_r; [apply bpow_pos|].
  rewrite bpow_IZR by lia. apply IZR_lt. assumption.
Qed.

Lemma normal_ge_bpow (m e : Z) :
  2 ^ 52 <= m -> (bpow (52 + e) <= IZR m * bpow e)%R.
Proof.
  intros H. rewrite bpow_add. apply Rmult_le_compat_r.
  - apply Rlt_le, bpow_pos.
  - rewrite bpow_IZR by lia. apply IZR_le. assumption.
Qed.

Lemma grid_up (m1 e : Z) (mB : positive) (eB : Z) (x : R) :
  e = -1074 \/ 2 ^ 52 <= m1 ->
  SpecFloat.bounded prec emax mB eB = true ->
  (IZR m1 < x)%R -> (x * bpow e <= IZR (Z.pos mB) * bpow eB)%R ->
  (IZR (m1 + 1) * bpow e <= IZR (Z.pos mB) * bpow eB)%R.
Proof.
  intros Hn HB Hx Hle. pose proof (bpow_pos e) as Hp.
  destruct (bounded_facts mB eB HB) as (HmB & HeB & _).
  destruct (Z_le_gt_dec e eB) as [Hee|Hee].
  - rewrite (IZR_bpow_scale (Z.pos mB) eB e Hee) in *.
    apply Rmult_le_compat_r; [lra|].
    apply Rmult_le_reg_r in Hle; [|assumption].
    apply IZR_le.
    assert (IZR m1 < IZR (Z.pos mB * 2 ^ (eB - e)))%R as H by lra.
    apply lt_IZR in H. lia.
  - exfalso. destruct Hn as [->|Hn]; [lia|].
    pose proof (bounded_lt_bpow mB eB HB) as H1.
    pose proof (bpow_le (53 + eB) (52 + e) ltac:(lia)) as H2.
    pose proof (normal_ge_bpow m1 e Hn) as H3.
    assert (IZR m1 * bpow e < x * bpow e)%R
      by (apply Rmult_lt_compat_r; assumption).
    lra.
Qed.

Lemma grid_down (m1 e : Z) (mb : positive) (eb : Z) (x : R) :
  e = -1074 \/ 2 ^ 52 <= m1 ->
  SpecFloat.bounded prec emax mb eb = true ->
  (x < IZR m1 + 1)%R -> (IZR (Z.pos mb) * bpow eb <= x * bpow e)%R ->
  (IZR (Z.pos mb) * bpow eb <= IZR m1 * bpow e)%R.
Proof.
  intros Hn Hb Hx Hle. pose proof (bpow_pos e) as Hp.
  destruct (bounded_facts mb eb Hb) as (Hmb & Heb & _).
  destruct (Z_le_gt_dec e eb) as [Hee|Hee].
  - rewrite (IZR_bpow_scale (Z.pos mb) eb e Hee) in *.
    apply Rmult_le_compat_r; [lra|].
    apply Rmult_le_reg_r in Hle; [|assumption].
    apply IZR_le.
    assert (IZR (Z.pos mb * 2 ^ (eb - e)) < IZR (m1 + 1))%R as H
      by (rewrite plus_IZR; lra).
    apply lt_IZR in H. lia.
  - destruct Hn as [->|Hn]; [lia|].
    pose proof (bounded_lt_bpow mb eb Hb) as H1.
    pose proof (bpow_le (53 + eb) (52 + e) ltac:(lia)) as H2.
    pose proof (normal_ge_bpow m1 e Hn) as H3.
    lra.
Qed.

Lemma no_overflow (m e : Z) (mB : positive) (eB : Z) :
  2 ^ 52 <= m -> SpecFloat.bounded prec emax mB eB = true ->
  (IZR m * bpow e <= IZR (Z.pos mB) * bpow eB)%R -> e <= 971.
Proof.
  intros Hm HB Hle.
  destruct (Z_le_gt_dec e 971) as [|Hgt]; [assumption|exfalso].
  destruct (bounded_facts mB eB HB) as (_ & HeB & _).
  pose proof (bounded_lt_bpow mB eB HB) as H1.
  pose proof (bpow_le (53 + eB) (52 + e) ltac:(lia)) as H2.
  pose proof (normal_ge_bpow m e Hm) as H3.
  lra.
Qed.

Lemma rounded_upper (sx : bool) (m1 : Z) (l1 : location) (e : Z) (x : R)
      (mB : positive) (eB : Z) :
  located m1 l1 x -> 0 <= m1 < 2 ^ 53 -> -1074 <= e ->
  e = -1074 \/ 2 ^ 52 <= m1 ->
  SpecFloat.bounded prec emax mB eB = true ->
  (x * bpow e <= IZR (Z.pos mB) * bpow eB)%R ->
  match rounded sx m1 l1 e with
  | S754_zero s => s = sx
  | S754_finite s m e2 =>
      s = sx /\ (IZR (Z.pos m) * bpow e2 <= IZR (Z.pos mB) * bpow eB)%R
  | _ => False
  end.
Proof.
  intros Hloc Hm He Hn HB Hle. pose proof (bpow_pos e) as Hp.
  pose proof (located_floor _ _ _ Hloc) as Hfl.
  assert (IZR (round_nearest_even m1 l1) * bpow e
          <= IZR (Z.pos mB) * bpow eB)%R as Hr.
  { destruct (round_nearest_even_cases _ _ _ Hloc) as [[-> _]|[-> Hx]].
    - apply Rle_trans with (x * bpow e)%R; [|assumption].
      apply Rmult_le_compat_r; lra.
    - apply (grid_up m1 e mB eB x); try assumption. lra. }
  assert (m1 <= round_nearest_even m1 l1 <= m1 + 1) as Hm2
    by (destruct (round_nearest_even_cases _ _ _ Hloc) as [[-> _]|[-> _]]; lia).
  unfold rounded.
  set (m2 := round_nearest_even m1 l1) in *.
  destruct (Z.eqb_spec m2 0) as [|Hnz]; [reflexivity|].
  destruct (Z.eqb_spec m2 (2 ^ 53)) as [E|Hne].
  - rewrite E in Hr.
    assert (e + 1 <= 971) as Ho.
    { apply (no_overflow (2 ^ 52) (e + 1) mB eB); [lia|assumption|].
      rewrite bpow_add, bpow_1.
      replace (IZR (2 ^ 52) * (bpow e * 2))%R with (IZR (2 ^ 53) * bpow e)%R;
        [assumption|].
      change (2 ^ 53) with (2 ^ 52 * 2). rewrite mult_IZR. lra. }
    destruct (Z.leb_spec (e + 1) 971); [|lia].
    split; [reflexivity|].
    change (Z.pos (Z.to_pos (2 ^ 52))) with (2 ^ 52).
    rewrite bpow_add, bpow_1.
    replace (IZR (2 ^ 52) * (bpow e * 2))%R with (IZR (2 ^ 53) * bpow e)%R;
      [assumption|].
    change (2 ^ 53) with (2 ^ 52 * 2). rewrite mult_IZR. lra.
  - assert (e <= 971) as Ho.
    { destruct Hn as [->|Hn]; [lia|].
      apply (no_overflow m2 e mB eB); [lia|assumption|assumption]. }
    destruct (Z.leb_spec e 971); [|lia].
    split; [reflexivity|]. rewrite Z2Pos.id by lia. assumption.
Qed.

Lemma rounded_lower (sx : bool) (m1 : Z) (l1 : location) (e : Z) (x : R)
      (mb : positive) (eb : Z) :
  located m1 l1 x -> 0 <= m1 < 2 ^ 53 -> -1074 <= e ->
  e = -1074 \/ 2 ^ 52 <= m1 ->
  SpecFloat.bounded prec emax mb eb = true ->
  (IZR (Z.pos mb) * bpow eb <= x * bpow e)%R ->
  match rounded sx m1 l1 e with
  | S754_zero _ => False
  | S754_finite s m e2 =>
      s = sx /\ (IZR (Z.pos mb) * bpow eb <= IZR (Z.pos m) * bpow e2)%R
  | S754_infinity s => s = sx
  | S754_nan => False
  end.
Proof.
  intros Hloc Hm He Hn Hb Hle. pose proof (bpow_pos e) as Hp.
  pose proof (located_floor _ _ _ Hloc) as Hfl.
  assert (IZR (Z.pos mb) * bpow eb
          <= IZR (round_nearest_even m1 l1) * bpow e)%R as Hr.
  { destruct (round_nearest_even_cases _ _ _ Hloc) as [[-> _]|[-> Hx]].
    - apply (grid_down m1 e mb eb x); try assumption. lra.
    - apply Rle_trans with (x * bpow e)%R; [assumption|].
      apply Rmult_le_compat_r; [lra|]. rewrite plus_IZR. lra. }
  assert (m1 <= round_nearest_even m1 l1 <= m1 + 1) as Hm2
    by (destruct (round_nearest_even_cases _ _ _ Hloc) as [[-> _]|[-> _]]; lia).
  assert (0 < IZR (Z.pos mb) * bpow eb)%R as Hpos.
  { apply Rmult_lt_0_compat; [apply IZR_lt; lia|apply bpow_pos]. }
  unfold rounded.
  set (m2 := round_nearest_even m1 l1) in *.
  destruct (Z.eqb_spec m2 0) as [E|Hnz].
  - rewrite E in Hr. lra.
  - destruct (Z.eqb_spec m2 (2 ^ 53)) as [E|Hne].
    + rewrite E in Hr.
      destruct (Z.leb_spec (e + 1) 971); [|reflexivity].
      split; [reflexivity|].
      change (Z.pos (Z.to_pos (2 ^ 52))) with (2 ^ 52).
      rewrite bpow_add, bpow_1.
      replace (IZR (2 ^ 52) * (bpow e * 2))%R with (IZR (2 ^ 53) * bpow e)%R;
        [assumption|].
      change (2 ^ 53) with (2 ^ 52 * 2). rewrite mult_IZR. lra.
    + destruct (Z.leb_spec e 971); [|reflexivity].
      split; [reflexivity|]. rewrite Z2Pos.id by lia. assumption.
Qed.


Lemma binary_round_aux_round_of (mx ex : Z) (lx : location) (v : R) :
  0 <= mx -> located mx lx (v * bpow (- ex)) ->
  ex <= fexp prec emax (Zdigits2 mx + ex) ->
  round_of v (binary_round_aux prec emax false mx ex lx).
Proof.
  intros Hm Hx He.
  destruct (binary_round_aux_shape false mx ex lx _ Hm Hx He)
    as (m1 & l1 & e & -> & Hl & Hm1 & He1 & Hn).
  assert (v * bpow (- ex) * bpow (ex - e) * bpow e = v)%R as Hv.
  { rewrite !Rmult_assoc, <- !bpow_add.
    replace (- ex + (ex - e + e)) with 0 by lia. rewrite bpow_0. lra. }
  intros mB eB HB. unfold F2R. split; intros Hle.
  - rewrite <- Hv in Hle.
    pose proof (rounded_upper false m1 l1 e _ mB eB Hl Hm1 He1 Hn HB Hle) as H.
    destruct (rounded false m1 l1 e) as [s|s| |s m e2]; simpl; try exact H;
      try exact I.
    destruct H as [-> H]. exact H.
  - rewrite <- Hv in Hle.
    pose proof (rounded_lower false m1 l1 e _ mB eB Hl Hm1 He1 Hn HB Hle) as H.
    destruct (rounded false m1 l1 e) as [s|s| |s m e2]; simpl; try exact H.
    + rewrite H. exact I.
    + destruct H as [-> H]. exact H.
Qed.

(** *** Aligning mantissas *)

Lemma iter_xO (m d : positive) :
  Z.pos (Pos.iter xO m d) = Z.pos m * 2 ^ Z.pos d.
Proof.
  induction d as [|d IH] using Pos.peano_ind.
  - simpl. lia.
  - rewrite Pos.iter_succ, Pos2Z.inj_xO, IH, Pos2Z.inj_succ, Z.pow_succ_r by lia.
    lia.
Qed.

Lemma shl_align_spec (mx : positive) (ex ex' : Z) :
  snd (shl_align mx ex ex') = Z.min ex ex'
  /\ Z.pos (fst (shl_align mx ex ex'))
     = Z.pos mx * 2 ^ (ex - Z.min ex ex').
Proof.
  unfold shl_align. destruct (ex' - ex) as [|d|d] eqn:Hd; simpl.
  - replace (Z.min ex ex') with ex by lia. rewrite Z.sub_diag, Z.pow_0_r. lia.
  - replace (Z.min ex ex') with ex by lia. rewrite Z.sub_diag, Z.pow_0_r. lia.
  - replace (Z.min ex ex') with ex' by lia.
    split; [reflexivity|].
    rewrite iter_xO. replace (ex - ex') with (Z.pos d) by lia. reflexivity.
Qed.

Lemma Zdigits2_shift (m k : Z) :
  0 < m -> 0 <= k -> Zdigits2 (m * 2 ^ k) = Zdigits2 m + k.
Proof.
  intros Hm Hk.
  destruct (Zdigits2_bounds m Hm) as [Hlo Hhi].
  assert (1 <= Zdigits2 m) by (destruct m; simpl; lia).
  assert (0 < 2 ^ k) by (apply Z.pow_pos_nonneg; lia).
  apply Z.le_antisymm.
  - apply Zdigits2_le; [lia|]. rewrite Z.pow_add_r by lia. nia.
  - replace (Zdigits2 m + k) with (Zdigits2 m - 1 + k + 1) by lia.
    apply Zdigits2_ge; [|lia]. rewrite Z.pow_add_r by lia. nia.
Qed.

Lemma binary_round_round_of (mx : positive) (ex : Z) :
  round_of (F2R mx ex) (binary_round prec emax false mx ex).
Proof.
  unfold binary_round.
  destruct (shl_align_spec mx ex (fexp prec emax (Z.pos (digits2_pos mx) + ex)))
    as [He Hm].
  destruct (shl_align mx ex (fexp prec emax (Z.pos (digits2_pos mx) + ex)))
    as [mz ez]. cbn [fst snd] in He, Hm. rewrite <- He in Hm.
  assert (F2R mx ex = IZR (Z.pos mz) * bpow ez)%R as Hv.
  { unfold F2R. rewrite Hm. apply IZR_bpow_scale. lia. }
  rewrite Hv. apply binary_round_aux_round_of; [lia| |].
  - simpl. rewrite Rmult_assoc, <- bpow_add, Z.add_opp_diag_r, bpow_0. lra.
  - rewrite Hm, Zdigits2_shift by lia.
    change (Zdigits2 (Z.pos mx)) with (Z.pos (digits2_pos mx)).
    rewrite !fexp_eq in *. lia.
Qed.

(** *** Comparison and value of valid numbers *)

Lemma F2R_pos (m : positive) (e : Z) : (0 < F2R m e)%R.
Proof.
  unfold F2R. apply Rmult_lt_0_compat; [apply IZR_lt; lia|apply bpow_pos].
Qed.

Lemma F2R_lt_exponent (m1 m2 : positive) (e1 e2 : Z) :
  SpecFloat.bounded prec emax m1 e1 = true -> SpecFloat.bounded prec emax m2 e2 = true ->
  e1 < e2 -> (F2R m1 e1 < F2R m2 e2)%R.
Proof.
  intros H1 H2 He.
  destruct (bounded_facts m1 e1 H1) as (_ & He1 & _).
  destruct (bounded_facts m2 e2 H2) as (_ & _ & [->|Hn]); [lia|].
  pose proof (bounded_lt_bpow m1 e1 H1).
  pose proof (bpow_le (53 + e1) (52 + e2) ltac:(lia)).
  pose proof (normal_ge_bpow (Z.pos m2) e2 Hn).
  unfold F2R. lra.
Qed.

Lemma F2R_compare (m1 m2 : positive) (e1 e2 : Z) :
  SpecFloat.bounded prec emax m1 e1 = true -> SpecFloat.bounded prec emax m2 e2 = true ->
  match SFcompare (S754_finite false m1 e1) (S754_finite false m2 e2) with
  | Some Lt => (F2R m1 e1 < F2R m2 e2)%R
  | Some Eq => F2R m1 e1 = F2R m2 e2
  | Some Gt => (F2R m2 e2 < F2R m1 e1)%R
  | None => False
  end.
Proof.
  intros H1 H2. simpl.
  destruct (Z.compare_spec e1 e2) as [->|He|He].
  - change (Pos.compare_cont Eq m1 m2) with (Pos.compare m1 m2).
    pose proof (bpow_pos e2).
    destruct (Pos.compare_spec m1 m2) as [->|Hm|Hm]; unfold F2R.
    + reflexivity.
    + apply Rmult_lt_compat_r; [assumption|]. apply IZR_lt. lia.
    + apply Rmult_lt_compat_r; [assumption|]. apply IZR_lt. lia.
  - apply F2R_lt_exponent; assumption.
  - apply F2R_lt_exponent; assumption.
Qed.

Lemma SFleb_val (x y : spec_float) :
  valid_binary x = true -> valid_binary y = true ->
  SFnonneg x = true -> SFnonneg y = true ->
  (SFleb x y = true <-> (SFval x <= SFval y)%R).
Proof.
  intros Vx Vy Nx Ny. unfold SFleb.
  destruct x as [sx|sx| |[|] mx ex], y as [sy|sy| |[|] my ey];
    try discriminate Nx; try discriminate Ny.
  - simpl. split; [lra|reflexivity].
  - pose proof (F2R_pos my ey). unfold F2R in *. simpl.
    split; [lra|reflexivity].
  - pose proof (F2R_pos mx ex). unfold F2R in *. simpl.
    split; [discriminate|lra].
  - pose proof (F2R_compare mx my ex ey Vx Vy) as H. unfold F2R in H.
    unfold SFval.
    destruct (SFcompare (S754_finite false mx ex) (S754_finite false my ey))
      as [[| |]|]; split; try reflexivity; try discriminate; try lra;
      destruct H.
Qed.


Lemma SFltb_val (x y : spec_float) :
  valid_binary x = true -> valid_binary y = true ->
  SFnonneg x = true -> SFnonneg y = true ->
  (SFltb x y = true <-> (SFval x < SFval y)%R).
Proof.
  intros Vx Vy Nx Ny. unfold SFltb.
  destruct x as [sx|sx| |[|] mx ex], y as [sy|sy| |[|] my ey];
    try discriminate Nx; try discriminate Ny.
  - simpl. split; [discriminate|lra].
  - pose proof (F2R_pos my ey). unfold F2R in *. simpl.
    split; [lra|reflexivity].
  - pose proof (F2R_pos mx ex). unfold F2R in *. simpl.
    split; [discriminate|lra].
  - pose proof (F2R_compare mx my ex ey Vx Vy) as H. unfold F2R in H.
    unfold SFval.
    destruct (SFcompare (S754_finite false mx ex) (S754_finite false my ey))
      as [[| |]|]; split; try reflexivity; try discriminate; try lra;
      destruct H.
Qed.

Lemma SFval_nonneg (x : spec_float) : SFnonneg x = true -> (0 <= SFval x)%R.
Proof.
  destruct x as [s|s| |[|] m e]; try discriminate; intros _; simpl; try lra.
  pose proof (F2R_pos m e). unfold F2R in *. lra.
Qed.

Lemma SFval_F2R (m : positive) (e : Z) : SFval (S754_finite false m e) = F2R m e.
Proof. unfold SFval, F2R. lra. Qed.

(** *** What a rounding gives *)

Lemma round_of_exact (r : spec_float) :
  SFnonneg r = true -> round_of (SFval r) r.
Proof.
  intros Hr mB eB HB. pose proof (F2R_pos mB eB).
  destruct r as [s|s| |[|] m e]; try discriminate Hr; simpl.
  - split; [auto|lra].
  - pose proof (SFval_F2R m e) as E. simpl in E. rewrite E. split; auto.
Qed.

Lemma round_of_upper (v : R) (r : spec_float) (mB : positive) (eB : Z) :
  round_of v r -> SpecFloat.bounded prec emax mB eB = true -> (v <= F2R mB eB)%R ->
  SFnonneg r = true /\ (SFval r <= F2R mB eB)%R.
Proof.
  intros H HB Hle. destruct (H mB eB HB) as [Hu _]. specialize (Hu Hle).
  pose proof (F2R_pos mB eB).
  destruct r as [s|s| |[|] m e]; simpl in Hu; try contradiction.
  - split; [reflexivity|simpl; lra].
  - rewrite SFval_F2R. split; [reflexivity|assumption].
Qed.

Lemma round_of_lower (v : R) (r : spec_float) (mb : positive) (eb : Z) :
  round_of v r -> SpecFloat.bounded prec emax mb eb = true -> (F2R mb eb <= v)%R ->
  SFnonneg r = true -> (F2R mb eb <= SFval r)%R.
Proof.
  intros H Hb Hle Hr. destruct (H mb eb Hb) as [_ Hl]. specialize (Hl Hle).
  destruct r as [s|s| |[|] m e]; simpl in Hl; try contradiction;
    try discriminate Hr.
  rewrite SFval_F2R. assumption.
Qed.

(** *** Addition *)

Lemma SFadd_round_of (x y : spec_float) :
  SFnonneg x = true -> SFnonneg y = true ->
  round_of (SFval x + SFval y) (SF64add x y).
Proof.
  intros Hx Hy.
  destruct x as [sx|sx| |[|] mx ex]; try discriminate Hx;
    destruct y as [sy|sy| |[|] my ey]; try discriminate Hy.
  - replace (SFval (S754_zero sx) + SFval (S754_zero sy))%R
      with (SFval (SF64add (S754_zero sx) (S754_zero sy)))
      by (destruct sx, sy; simpl; lra).
    apply round_of_exact. destruct sx, sy; reflexivity.
  - replace (SFval (S754_zero sx) + SFval (S754_finite false my ey))%R
      with (SFval (S754_finite false my ey)) by (simpl; lra).
    apply (round_of_exact (S754_finite false my ey)). reflexivity.
  - replace (SFval (S754_finite false mx ex) + SFval (S754_zero sy))%R
      with (SFval (S754_finite false mx ex)) by (simpl; lra).
    apply (round_of_exact (S754_finite false mx ex)). reflexivity.
  - unfold SF64add, SFadd. cbn [cond_Zopp].
    destruct (shl_align_spec mx ex (Z.min ex ey)) as [_ Hmx].
    destruct (shl_align_spec my ey (Z.min ex ey)) as [_ Hmy].
    replace (Z.min ex (Z.min ex ey)) with (Z.min ex ey) in Hmx by lia.
    replace (Z.min ey (Z.min ex ey)) with (Z.min ex ey) in Hmy by lia.
    set (px := fst (shl_align mx ex (Z.min ex ey))) in *.
    set (py := fst (shl_align my ey (Z.min ex ey))) in *.
    change (Z.pos px + Z.pos py) with (Z.pos (px + py)).
    unfold binary_normalize.
    replace (SFval (S754_finite false mx ex) + SFval (S754_finite false my ey))%R
      with (F2R (px + py) (Z.min ex ey)); [apply binary_round_round_of|].
    rewrite !SFval_F2R. unfold F2R.
    rewrite Pos2Z.inj_add, plus_IZR, Hmx, Hmy.
    rewrite (IZR_bpow_scale (Z.pos mx) ex (Z.min ex ey)) by lia.
    rewrite (IZR_bpow_scale (Z.pos my) ey (Z.min ex ey)) by lia.
    lra.
Qed.

(** *** Multiplication *)

Lemma canonical_digits (m : positive) (e : Z) :
  SpecFloat.bounded prec emax m e = true ->
  e = -1074 \/ Z.pos (digits2_pos m) = 53.
Proof.
  unfold SpecFloat.bounded, canonical_mantissa. rewrite andb_true_iff, fexp_eq, Z.eqb_eq.
  intros [Hc _]. lia.
Qed.

Lemma round_of_zero (s : bool) : round_of 0 (S754_zero s).
Proof. apply (round_of_exact (S754_zero s)). reflexivity. Qed.

Lemma SFmul_round_of (x y : spec_float) :
  valid_binary x = true -> valid_binary y = true ->
  SFnonneg x = true -> SFnonneg y = true ->
  round_of (SFval x * SFval y) (SF64mul x y).
Proof.
  intros Vx Vy Hx Hy.
  destruct x as [sx|sx| |[|] mx ex]; try discriminate Hx;
    destruct y as [sy|sy| |[|] my ey]; try discriminate Hy;
    [replace (SFval _ * SFval _)%R with 0%R by (simpl; lra);
     apply round_of_zero ..|].
  unfold SF64mul, SFmul. cbn [xorb].
  simpl in Vx, Vy.
  apply binary_round_aux_round_of; [lia| |].
  - unfold located, SFval.
    rewrite Pos2Z.inj_mul, mult_IZR, bpow_opp, bpow_add.
    pose proof (bpow_pos ex). pose proof (bpow_pos ey).
    field. lra.
  - destruct (canonical_digits mx ex Vx) as [Ex|Dx];
      destruct (canonical_digits my ey Vy) as [Ey|Dy];
      destruct (bounded_facts mx ex Vx) as (_ & Hex & _);
      destruct (bounded_facts my ey Vy) as (_ & Hey & _);
      rewrite fexp_eq; try lia.
    + pose proof (digits2_pos_bounds my) as [Hlo _]. rewrite Dy in Hlo.
      assert (2 ^ 52 * 1 <= Z.pos mx * Z.pos my) by nia.
      pose proof (Zdigits2_ge (Z.pos (mx * my)) 52 ltac:(lia) ltac:(lia)).
      lia.
    + pose proof (digits2_pos_bounds mx) as [Hlo _]. rewrite Dx in Hlo.
      assert (2 ^ 52 * 1 <= Z.pos mx * Z.pos my) by nia.
      pose proof (Zdigits2_ge (Z.pos (mx * my)) 52 ltac:(lia) ltac:(lia)).
      lia.
    + pose proof (digits2_pos_bounds mx) as [Hlo _]. rewrite Dx in Hlo.
      assert (2 ^ 52 * 1 <= Z.pos mx * Z.pos my) by nia.
      pose proof (Zdigits2_ge (Z.pos (mx * my)) 52 ltac:(lia) ltac:(lia)).
      lia.
Qed.


(** *** Division *)

Lemma ratio_bounds (k n : Z) :
  0 < n -> (IZR k / IZR n * IZR n = IZR k)%R.
Proof. intros Hn. field. apply not_0_IZR. lia. Qed.

Lemma new_location_located (n k q : Z) :
  0 < n -> 0 <= k < n ->
  located q (new_location n k) (IZR q + IZR k / IZR n).
Proof.
  intros Hn Hk.
  pose proof (ratio_bounds k n Hn) as Ht.
  assert (0 < IZR n)%R as HnR by (apply IZR_lt; lia).
  set (t := (IZR k / IZR n)%R) in *.
  unfold new_location.
  destruct (Z.even n) eqn:Ev.
  - unfold new_location_even. destruct (Z.eqb_spec k 0) as [->|Hk0].
    + simpl. simpl in Ht. nra.
    + assert (0 < IZR k)%R by (apply IZR_lt; lia).
      assert (IZR k < IZR n)%R by (apply IZR_lt; lia).
      destruct (Z.compare_spec (2 * k) n) as [E|L|G]; simpl.
      * rewrite <- E, mult_IZR in Ht, HnR. nra.
      * apply IZR_lt in L. rewrite mult_IZR in L. nra.
      * apply IZR_lt in G. rewrite mult_IZR in G. nra.
  - unfold new_location_odd. destruct (Z.eqb_spec k 0) as [->|Hk0].
    + simpl. simpl in Ht. nra.
    + assert (0 < IZR k)%R by (apply IZR_lt; lia).
      assert (IZR k < IZR n)%R by (apply IZR_lt; lia).
      assert (Z.odd n = true) as Ho by (rewrite <- Z.negb_even, Ev; reflexivity).
      apply Z.odd_spec in Ho. destruct Ho as [a Ha].
      destruct (Z.compare_spec (2 * k + 1) n) as [E|L|G]; simpl.
      * assert (2 * k < n) as L' by lia.
        apply IZR_lt in L'. rewrite mult_IZR in L'. nra.
      * assert (2 * k < n) as L' by lia.
        apply IZR_lt in L'. rewrite mult_IZR in L'. nra.
      * assert (n < 2 * k) as G' by lia.
        apply IZR_lt in G'. rewrite mult_IZR in G'. nra.
Qed.

Lemma fexp_mono (a b : Z) : a <= b -> fexp prec emax a <= fexp prec emax b.
Proof. rewrite !fexp_eq. lia. Qed.

Lemma SFdiv_core_located (m1 m2 : positive) (e1 e2 : Z) :
  exists q e l,
    SFdiv_core_binary prec emax (Z.pos m1) e1 (Z.pos m2) e2 = (q, e, l)
    /\ 0 <= q
    /\ located q l (F2R m1 e1 / F2R m2 e2 * bpow (- e))
    /\ e <= fexp prec emax (Zdigits2 q + e).
Proof.
  unfold SFdiv_core_binary.
  set (d1 := Zdigits2 (Z.pos m1)). set (d2 := Zdigits2 (Z.pos m2)).
  set (e := Z.min (fexp prec emax (d1 + e1 - (d2 + e2))) (e1 - e2)).
  set (s := e1 - e2 - e).
  assert (0 <= s) as Hs by (subst s e; lia).
  set (m := match s with
            | 0 => Z.pos m1
            | Z.pos _ => Z.shiftl (Z.pos m1) s
            | Z.neg _ => 0
            end).
  assert (m = Z.pos m1 * 2 ^ s) as Hm.
  { subst m. destruct s as [|p|p] eqn:Es; [simpl; lia| |lia].
    apply Z.shiftl_mul_pow2. lia. }
  clearbody m.
  pose proof (Z_div_mod m (Z.pos m2) ltac:(lia)) as Hdiv.
  destruct (Z.div_eucl m (Z.pos m2)) as [q r]. destruct Hdiv as [Hq Hr].
  assert (0 < 2 ^ s) as Hp by (apply Z.pow_pos_nonneg; lia).
  assert (0 <= q) as Hq0 by nia.
  exists q, e, (new_location (Z.pos m2) r).
  split; [reflexivity|]. split; [assumption|]. split.
  - replace (F2R m1 e1 / F2R m2 e2 * bpow (- e))%R
      with (IZR q + IZR r / IZR (Z.pos m2))%R;
      [apply new_location_located; lia|].
    unfold F2R.
    replace e1 with (s + (e + e2)) by (subst s; lia).
    rewrite !bpow_add, bpow_opp, (bpow_IZR s Hs).
    assert (IZR (Z.pos m1) * IZR (2 ^ s)
            = IZR (Z.pos m2) * IZR q + IZR r)%R as Hreal
      by (rewrite <- !mult_IZR, <- plus_IZR; f_equal; lia).
    pose proof (bpow_pos e). pose proof (bpow_pos e2).
    assert (0 < IZR (Z.pos m2))%R by (apply IZR_lt; lia).
    apply Rmult_eq_reg_r with (IZR (Z.pos m2)); [|lra].
    field_simplify; [|lra|lra]. lra.
  - destruct (Zdigits2_bounds (Z.pos m1) ltac:(lia)) as [Hlo1 _].
    destruct (Zdigits2_bounds (Z.pos m2) ltac:(lia)) as [_ Hhi2].
    fold d1 in Hlo1. fold d2 in Hhi2.
    assert (1 <= d1) by (subst d1; simpl; lia).
    assert (1 <= d2) by (subst d2; simpl; lia).
    pose proof (Zdigits2_nonneg q) as Hdq.
    assert (d1 + s - d2 <= Zdigits2 q) as Hd.
    { destruct (Z_le_gt_dec (d1 + s - d2) 0) as [|Hgt]; [lia|].
      replace (d1 + s - d2) with ((d1 - 1 + s - d2) + 1) by lia.
      apply Zdigits2_ge; [|lia].
      assert (2 ^ (d1 - 1 + s) <= m) as Hm'.
      { rewrite Z.pow_add_r by lia. nia. }
      replace (d1 - 1 + s) with ((d1 - 1 + s - d2) + d2) in Hm' by lia.
      rewrite Z.pow_add_r in Hm' by lia.
      assert (0 < 2 ^ (d1 - 1 + s - d2)) by (apply Z.pow_pos_nonneg; lia).
      destruct (Z_le_gt_dec (2 ^ (d1 - 1 + s - d2)) q) as [|Hc];
        [assumption|exfalso].
      assert (q + 1 <= 2 ^ (d1 - 1 + s - d2)) by lia.
      assert (Z.pos m2 * (q + 1) <= 2 ^ d2 * 2 ^ (d1 - 1 + s - d2)) by nia.
      nia. }
    assert (d1 + e1 - (d2 + e2) <= Zdigits2 q + e) as Hle by (subst s; lia).
    apply fexp_mono in Hle. subst e. lia.
Qed.

Lemma SFdiv_round_of (x : spec_float) (my : positive) (ey : Z) :
  SFnonneg x = true ->
  round_of (SFval x / F2R my ey) (SF64div x (S754_finite false my ey)).
Proof.
  intros Hx. pose proof (F2R_pos my ey).
  destruct x as [sx|sx| |[|] mx ex]; try discriminate Hx.
  - replace (SFval (S754_zero sx) / F2R my ey)%R with 0%R
      by (simpl; field; lra).
    apply round_of_zero.
  - unfold SF64div, SFdiv. cbn [xorb].
    destruct (SFdiv_core_located mx my ex ey) as (q & e & l & -> & Hq & Hl & He).
    rewrite SFval_F2R. apply binary_round_aux_round_of; assumption.
Qed.


(** *** Signs, without any bound *)

Lemma shr_1_nonneg (mrs : shr_record) : 0 <= shr_m mrs -> 0 <= shr_m (shr_1 mrs).
Proof.
  destruct mrs as [m r s]. simpl shr_m.
  destruct m as [|[p|p|]|p]; simpl; lia.
Qed.

Lemma iter_pos_shr_1_nonneg (p : positive) (mrs : shr_record) :
  0 <= shr_m mrs -> 0 <= shr_m (SpecFloat.iter_pos shr_1 p mrs).
Proof.
  revert mrs. induction p as [p IH|p IH|]; intros mrs H; simpl.
  - apply IH, IH, shr_1_nonneg, H.
  - apply IH, IH, H.
  - apply shr_1_nonneg, H.
Qed.

Lemma shr_fexp_nonneg (m e : Z) (l : location) :
  0 <= m -> 0 <= shr_m (fst (shr_fexp prec emax m e l)).
Proof.
  intros Hm. unfold shr_fexp, shr.
  destruct (loc_of_record_of_loc m l) as [_ Hr].
  destruct (fexp prec emax (Zdigits2 m + e) - e); simpl; try lia.
  apply iter_pos_shr_1_nonneg. lia.
Qed.

Lemma round_nearest_even_nonneg (m : Z) (l : location) :
  0 <= m -> 0 <= round_nearest_even m l.
Proof.
  intros Hm. destruct l as [|[| |]]; simpl; try lia.
  destruct (Z.even m); lia.
Qed.

Lemma binary_round_aux_sign (sx : bool) (mx ex : Z) (lx : location) :
  0 <= mx ->
  match binary_round_aux prec emax sx mx ex lx with
  | S754_nan => False
  | S754_zero s | S754_infinity s | S754_finite s _ _ => s = sx
  end.
Proof.
  intros Hm. unfold binary_round_aux.
  pose proof (shr_fexp_nonneg mx ex lx Hm) as H1.
  destruct (shr_fexp prec emax mx ex lx) as [mrs e]. simpl in H1.
  pose proof (shr_fexp_nonneg
                (round_nearest_even (shr_m mrs) (loc_of_shr_record mrs)) e
                loc_Exact (round_nearest_even_nonneg _ _ H1)) as H2.
  destruct (shr_fexp prec emax _ e loc_Exact) as [mrs2 e2]. simpl in H2.
  destruct (shr_m mrs2) as [|p|p]; [reflexivity| |lia].
  destruct (e2 <=? emax - prec); reflexivity.
Qed.

Lemma binary_round_sign (sx : bool) (mx : positive) (ex : Z) :
  match binary_round prec emax sx mx ex with
  | S754_nan => False
  | S754_zero s | S754_infinity s | S754_finite s _ _ => s = sx
  end.
Proof.
  unfold binary_round. destruct (shl_align mx ex _) as [mz ez].
  apply binary_round_aux_sign. lia.
Qed.

Lemma SFsub_not_nan (x y : spec_float) :
  SFfinite x = true -> SFfinite y = true -> SF64sub x y <> S754_nan.
Proof.
  intros Hx Hy.
  destruct x as [sx|sx| |sx mx ex]; try discriminate Hx;
    destruct y as [sy|sy| |sy my ey]; try discriminate Hy;
    unfold SF64sub, SFsub; try discriminate.
  - destruct sx, sy; discriminate.
  - unfold binary_normalize.
    destruct (cond_Zopp sx _ - cond_Zopp sy _) as [|p|p]; [discriminate| |].
    + pose proof (binary_round_sign false p (Z.min ex ey)) as H.
      intros E. rewrite E in H. exact H.
    + pose proof (binary_round_sign true p (Z.min ex ey)) as H.
      intros E. rewrite E in H. exact H.
Qed.

Lemma SFsqrt_not_negative (x : spec_float) :
  SFnot_negative x = true -> SFnot_negative (SF64sqrt x) = true.
Proof.
  destruct x as [s|[|]| |[|] m e]; try discriminate; intros _;
    try reflexivity.
  unfold SF64sqrt, SFsqrt, SFsqrt_core_binary.
  set (e' := Z.min _ (Z.div2 e)).
  set (m' := match e - 2 * e' with
             | 0 => Z.pos m
             | Z.pos _ => Z.shiftl (Z.pos m) (e - 2 * e')
             | Z.neg _ => 0
             end).
  assert (0 <= m') as Hm'.
  { subst m'. destruct (e - 2 * e'); try lia. apply Z.shiftl_nonneg. lia. }
  pose proof (Z.sqrtrem_spec m' Hm') as Hs.
  destruct (Z.sqrtrem m') as [q r].
  pose proof (binary_round_aux_sign false q e'
                (if r =? 0 then loc_Exact
                 else loc_Inexact (if r <=? q then Lt else Gt))
                ltac:(lia)) as H.
  destruct (binary_round_aux prec emax false q e' _) as [s|s| |s m2 e2];
    try (rewrite H; reflexivity). destruct H.
Qed.

Lemma SFleb_zero_not_negative (s : bool) (x : spec_float) :
  SFnot_negative x = true -> SFleb (S754_zero s) x = true.
Proof. destruct x as [sx|[|]| |[|] m e]; try discriminate; reflexivity. Qed.

Lemma SFltb_zero_positive (s : bool) (x : spec_float) :
  SFltb (S754_zero s) x = true -> SFnot_negative x = true.
Proof. destruct x as [sx|[|]| |[|] m e]; try discriminate; reflexivity. Qed.

(** *** Integers held in a double *)

Lemma small_int_representable (p : positive) :
  Z.pos p < 2 ^ 53 ->
  exists mB eB, SpecFloat.bounded prec emax mB eB = true /\ F2R mB eB = IZR (Z.pos p).
Proof.
  intros Hp.
  pose proof (digits2_pos_bounds p) as [Hlo Hhi].
  set (d := Z.pos (digits2_pos p)) in *.
  assert (1 <= d <= 53) as Hd.
  { split; [subst d; lia|].
    destruct (Z_le_gt_dec d 53) as [|Hgt]; [assumption|exfalso].
    assert (2 ^ 53 <= 2 ^ (d - 1)) by (apply Z.pow_le_mono_r; lia). lia. }
  destruct (shl_align_spec p 0 (d - 53)) as [He Hm].
  replace (Z.min 0 (d - 53)) with (d - 53) in * by lia.
  exists (fst (shl_align p 0 (d - 53))), (d - 53). split.
  - unfold SpecFloat.bounded, canonical_mantissa. rewrite andb_true_iff, fexp_eq.
    rewrite Z.eqb_eq, Z.leb_le. change (emax - prec) with 971.
    change (Z.pos (digits2_pos (fst (shl_align p 0 (d - 53)))))
      with (Zdigits2 (Z.pos (fst (shl_align p 0 (d - 53))))).
    rewrite Hm, Zdigits2_shift by lia.
    change (Zdigits2 (Z.pos p)) with d. lia.
  - unfold F2R. rewrite Hm.
    rewrite <- (IZR_bpow_scale (Z.pos p) 0 (d - 53)) by lia.
    rewrite bpow_0. lra.
Qed.

Lemma binary_normalize_int (p : positive) :
  Z.pos p < 2 ^ 53 ->
  exists m e,
    binary_normalize prec emax (Z.pos p) 0 false = S754_finite false m e
    /\ F2R m e = IZR (Z.pos p).
Proof.
  intros Hp. destruct (small_int_representable p Hp) as (mB & eB & HB & Hv).
  unfold binary_normalize.
  pose proof (binary_round_round_of p 0) as Hr.
  assert (F2R p 0 = IZR (Z.pos p)) as Hp0
    by (unfold F2R; rewrite bpow_0; lra).
  rewrite Hp0 in Hr.
  destruct (round_of_upper _ _ mB eB Hr HB ltac:(lra)) as [Hn Hu].
  pose proof (round_of_lower _ _ mB eB Hr HB ltac:(lra) Hn) as Hl.
  pose proof (F2R_pos mB eB).
  destruct (binary_round prec emax false p 0) as [s|s| |[|] m e];
    try discriminate Hn.
  - simpl in Hl. lra.
  - exists m, e. split; [reflexivity|]. rewrite SFval_F2R in *. lra.
Qed.

End FloatBounds.

(* ===================================================================== *)
(** ** Classification *)
(* ===================================================================== *)

Lemma determineStyle_classify (stats : Analysis) (t : JS.number) :
  determineStyle stats t = Spec.label (Spec.isDark stats t) (Spec.isBusy stats t).
Proof.
  unfold determineStyle, Spec.isDark, Spec.isBusy,
    Spec.highVariance, Spec.nearBoundary, Spec.highContrast, STD_THRESHOLD.
  destruct (PrimFloat.ltb (meanLuminance stats) t);
    destruct (PrimFloat.ltb (45 / 255) (luminanceStd stats));
    destruct (PrimFloat.ltb t (meanLuminance stats + 1.645 * luminanceStd stats));
    destruct (PrimFloat.ltb 0.5 (maxLuminosity stats - minLuminosity stats));
    reflexivity.
Qed.

(** C1: for every statistics record and every threshold, [#determineStyle]
    returns the label of the 2x2 decision table on [isDark] and [isBusy],
    where isBusy = highVariance OR nearBoundary OR highContrast with the
    constants 45/255, 1.645 and 0.5. *)
Theorem determineStyle_decision_table (stats : Analysis) (luminanceThreshold : JS.number) :
  determineStyle stats luminanceThreshold = Spec.classify stats luminanceThreshold.
Proof. apply determineStyle_classify. Qed.

Lemma determineStyle_light_family (stats : Analysis) (t : JS.number) :
  light_family (determineStyle stats t) = negb (Spec.isDark stats t).
Proof.
  rewrite determineStyle_classify.
  destruct (Spec.isDark stats t), (Spec.isBusy stats t); reflexivity.
Qed.

Lemma determineStyle_dark_family (stats : Analysis) (t : JS.number) :
  dark_family (determineStyle stats t) = Spec.isDark stats t.
Proof.
  rewrite determineStyle_classify.
  destruct (Spec.isDark stats t), (Spec.isBusy stats t); reflexivity.
Qed.

(** C5: for fixed statistics and thresholds t1 > t2, a light-family label
    at t1 stays a light-family label at t2. *)
Theorem threshold_monotone (stats : Analysis) (t1 t2 : JS.number) :
  PrimFloat.ltb t2 t1 = true ->
  light_family (determineStyle stats t1) = true ->
  light_family (determineStyle stats t2) = true.
Proof.
  rewrite !determineStyle_light_family. unfold Spec.isDark.
  intros Hlt H1.
  destruct (PrimFloat.ltb (meanLuminance stats) t2) eqn:H2; [|reflexivity].
  rewrite (FloatOrder.ltb_trans _ _ _ H2 Hlt) in H1. discriminate.
Qed.

Lemma determineStyle_core_label (stats : Analysis) (t : JS.number) :
  In (determineStyle stats t) core_labels.
Proof.
  rewrite determineStyle_classify. unfold core_labels.
  destruct (Spec.isDark stats t), (Spec.isBusy stats t); simpl; auto.
Qed.

(* ===================================================================== *)
(** ** The entry point *)
(* ===================================================================== *)

Section AnalyzeFacts.

Variable new_from_file : string -> throws Pixbuf.
Variable new_subpixbuf : Pixbuf -> Z -> Z -> Z -> Z -> throws Pixbuf.

Lemma analyze_decode_failure (path : string) (t : JS.number) (panelHeight : Z)
      (message : string) :
  new_from_file path = inl message ->
  analyze new_from_file new_subpixbuf path t panelHeight
  = Fallback "dark" 0.5%float message.
Proof. intros H. unfold analyze, analyze_try. rewrite H. reflexivity. Qed.

Lemma analyze_decoded (path : string) (t : JS.number) (panelHeight : Z)
      (image : Pixbuf) :
  new_from_file path = inr image ->
  analyze new_from_file new_subpixbuf path t panelHeight
  = match new_subpixbuf image 4 4
            (Z.max 1 (get_width image - 2 * 4))
            (Z.max 0 (Z.min panelHeight (get_height image) - 4)) with
    | inr region =>
        Analyzed (determineStyle (analyzeTopRegion region) t)
                 (analyzeTopRegion region)
    | inl message => Fallback "dark" 0.5%float message
    end.
Proof.
  intros H. unfold analyze, analyze_try, PADDING. rewrite H.
  change (4 * 2) with (2 * 4).
  destruct (new_subpixbuf _ _ _ _ _); reflexivity.
Qed.

Lemma analyze_crop_failure (path : string) (t : JS.number) (panelHeight : Z)
      (image : Pixbuf) (message : string) :
  new_from_file path = inr image ->
  new_subpixbuf image 4 4 (Z.max 1 (get_width image - 2 * 4))
                (Z.max 0 (Z.min panelHeight (get_height image) - 4))
  = inl message ->
  analyze new_from_file new_subpixbuf path t panelHeight
  = Fallback "dark" 0.5%float message.
Proof. intros H1 H2. rewrite (analyze_decoded _ _ _ _ H1), H2. reflexivity. Qed.

Lemma analyze_core_label (path : string) (t : JS.number) (panelHeight : Z) :
  In (style_of (analyze new_from_file new_subpixbuf path t panelHeight))
     core_labels.
Proof.
  unfold analyze, analyze_try.
  destruct (new_from_file path) as [e|full]; [simpl; auto|].
  destruct (new_subpixbuf _ _ _ _ _) as [e|slice]; [simpl; auto|].
  apply determineStyle_core_label.
Qed.

End AnalyzeFacts.

(** C9: for every input, the style of the result of [analyze] is one of
    dark, light, translucent-dark, translucent-light, and is never
    maximized. *)
Theorem analyze_style_closed
        (new_from_file : string -> throws Pixbuf)
        (new_subpixbuf : Pixbuf -> Z -> Z -> Z -> Z -> throws Pixbuf)
        (path : string) (t : JS.number) (panelHeight : Z) :
  In (style_of (analyze new_from_file new_subpixbuf path t panelHeight))
     ["dark"; "light"; "translucent-dark"; "translucent-light"]%string
  /\ style_of (analyze new_from_file new_subpixbuf path t panelHeight)
     <> "maximized"%string.
Proof.
  pose proof (analyze_core_label new_from_file new_subpixbuf path t panelHeight)
    as H.
  split; [exact H|].
  unfold core_labels in H. simpl in H.
  intros E. rewrite E in H.
  repeat destruct H as [H|H]; try discriminate H. exact H.
Qed.

(** An all-black and an all-white wallpaper under a panel of the default
    height, at the default threshold. *)
Example all_black_is_dark :
  let result := analyze (one_file "black.png" (uniform_image 64 48 x00 x00 x00))
                        gdk_pixbuf_new_subpixbuf "black.png"
                        default_luminanceThreshold default_panelHeight in
  match result with
  | Analyzed style stats =>
      style = "dark"%string /\ meanLuminance stats = 0%float
      /\ luminanceStd stats = 0%float /\ sampleCount stats = 196
  | Fallback _ _ _ => False
  end.
Proof. vm_compute. repeat split; reflexivity. Qed.

Example all_white_is_light :
  style_of (analyze (one_file "white.png" (uniform_image 64 48 xff xff xff))
                    gdk_pixbuf_new_subpixbuf "white.png" default_luminanceThreshold
                    default_panelHeight)
  = "light"%string.
Proof. vm_compute. reflexivity. Qed.

(* ===================================================================== *)
(** ** The sampling loops *)
(* ===================================================================== *)

Module Sampling.

Import Spec.

Lemma stepping_S (start step : Z) (n : nat) :
  stepping start step (S n) = start :: stepping (start + step) step n.
Proof.
  unfold stepping. simpl. f_equal; [lia|].
  rewrite <- seq_shift, map_map. apply map_ext. intros k. lia.
Qed.

Lemma steps_below_lt (start step bound : Z) :
  0 < step -> start < bound ->
  steps_below start step bound = S (steps_below (start + step) step bound).
Proof.
  intros Hs Hlt. unfold steps_below.
  replace (bound - start + step - 1)
    with ((bound - (start + step) + step - 1) + 1 * step) by lia.
  rewrite Z.div_add by lia.
  rewrite Z2Nat.inj_add, Nat.add_comm; [reflexivity| |lia].
  apply Z.div_pos; lia.
Qed.

Lemma steps_below_ge (start step bound : Z) :
  0 < step -> bound <= start -> steps_below start step bound = O.
Proof.
  intros Hs Hge. unfold steps_below.
  assert ((bound - start + step - 1) / step <= 0); [|lia].
  apply Z.lt_succ_r, Z.div_lt_upper_bound; lia.
Qed.

Lemma steps_below_fuel (start step bound : Z) :
  0 < step -> 0 <= start ->
  (steps_below start step bound <= Z.to_nat bound)%nat.
Proof.
  intros Hs H0. unfold steps_below.
  destruct (Z_lt_le_dec bound 1) as [Hb|Hb].
  - assert ((bound - start + step - 1) / step <= 0); [|lia].
    apply Z.lt_succ_r, Z.div_lt_upper_bound; lia.
  - assert ((bound - start + step - 1) / step <= bound); [|lia].
    apply Z.lt_succ_r, Z.div_lt_upper_bound; nia.
Qed.

Lemma In_stepping (start step : Z) (n : nat) (v : Z) :
  In v (stepping start step n) <->
  exists k, 0 <= k < Z.of_nat n /\ v = start + step * k.
Proof.
  unfold stepping. rewrite in_map_iff. split.
  - intros (k & <- & Hk). apply in_seq in Hk. exists (Z.of_nat k).
    split; [lia|reflexivity].
  - intros (k & Hk & ->). exists (Z.to_nat k).
    split; [rewrite Z2Nat.id by lia; reflexivity|].
    apply in_seq. lia.
Qed.

Lemma lt_steps_below (start step bound k : Z) :
  0 < step -> 0 <= k ->
  (k < Z.of_nat (steps_below start step bound) <-> start + step * k < bound).
Proof.
  intros Hs Hk. unfold steps_below.
  destruct (Z_lt_le_dec (bound - start + step - 1) 0) as [Hneg|Hpos].
  - assert ((bound - start + step - 1) / step < 0) as Hq
      by (apply Z.div_lt_upper_bound; lia).
    assert (Z.to_nat ((bound - start + step - 1) / step) = O) as -> by lia.
    simpl. nia.
  - rewrite Z2Nat.id by (apply Z.div_pos; lia).
    split; intros H.
    + assert (k + 1 <= (bound - start + step - 1) / step) as H' by lia.
      apply (Z.mul_le_mono_nonneg_l _ _ step) in H'; [|lia].
      pose proof (Z.mul_div_le (bound - start + step - 1) step Hs). lia.
    + assert (k + 1 <= (bound - start + step - 1) / step); [|lia].
      apply Z.div_le_lower_bound; lia.
Qed.

Lemma In_sample_rows (height y : Z) :
  In y (sample_rows height) <-> 0 <= y < height /\ y mod 2 = 0.
Proof.
  unfold sample_rows. rewrite In_stepping. split.
  - intros (k & Hk & ->). destruct Hk as [Hk0 Hk].
    apply lt_steps_below in Hk; [|lia|lia].
    rewrite Z.add_0_l, Z.mul_comm, Z.mod_mul by lia. lia.
  - intros [Hy Hm]. exists (y / 2).
    assert (y = 2 * (y / 2))
      by (rewrite (Z.div_mod y 2) at 1 by lia; lia).
    assert (0 <= y / 2) by (apply Z.div_pos; lia).
    split; [|lia]. split; [lia|]. apply lt_steps_below; lia.
Qed.

Lemma column_offset_cases (y : Z) : column_offset y = 0 \/ column_offset y = 2.
Proof. unfold column_offset. destruct (y mod 4 =? 0); auto. Qed.

Lemma In_sample_columns (width y x : Z) :
  In x (sample_columns width y) <->
  column_offset y <= x < width /\ (x - column_offset y) mod 4 = 0.
Proof.
  unfold sample_columns. rewrite In_stepping. split.
  - intros (k & Hk & ->). destruct Hk as [Hk0 Hk].
    apply lt_steps_below in Hk; [|lia|lia].
    replace (column_offset y + 4 * k - column_offset y) with (k * 4) by lia.
    rewrite Z.mod_mul by lia. lia.
  - intros [Hx Hm]. exists ((x - column_offset y) / 4).
    assert (x - column_offset y = 4 * ((x - column_offset y) / 4))
      by (rewrite (Z.div_mod (x - column_offset y) 4) at 1 by lia; lia).
    assert (0 <= (x - column_offset y) / 4) by (apply Z.div_pos; lia).
    split; [|lia]. split; [lia|]. apply lt_steps_below; lia.
Qed.

(** The sampled pixels are the checkerboard of the specification. *)
Lemma In_sample_points (width height y x : Z) :
  In (y, x) (sample_points width height) <->
  (0 <= y < height /\ y mod 2 = 0) /\
  (column_offset y <= x < width /\ (x - column_offset y) mod 4 = 0).
Proof.
  unfold sample_points. rewrite in_flat_map. split.
  - intros (y' & Hy & Hx). apply in_map_iff in Hx.
    destruct Hx as (x' & E & Hx). inversion E; subst.
    split; [apply In_sample_rows|apply In_sample_columns]; assumption.
  - intros [Hy Hx]. exists y. split; [apply In_sample_rows; assumption|].
    apply in_map, In_sample_columns. assumption.
Qed.

End Sampling.

Module Loops.

Import Spec Sampling.

Section Loops.

Variable pixels : list byte.
Variables width height rowstride channels : Z.

(** One iteration of the inner loop, at the pixel [p = (y, x)]. *)
Let visit (a : Acc) (p : Z * Z) : Acc :=
  sample pixels rowstride channels (fst p) (snd p) a.

Lemma columns_stepping (fuel : nat) (y x : Z) (a : Acc) :
  (steps_below x 4 width <= fuel)%nat ->
  columns pixels width rowstride channels fuel y x a
  = fold_left (fun a x => sample pixels rowstride channels y x a)
              (stepping x 4 (steps_below x 4 width)) a.
Proof.
  revert x a. induction fuel as [|fuel IH]; intros x a Hf.
  - assert (steps_below x 4 width = O) as -> by lia. reflexivity.
  - simpl. destruct (Z.ltb_spec x width) as [Hlt|Hge].
    + rewrite (steps_below_lt x 4 width) in * by lia.
      rewrite stepping_S. simpl. apply IH. lia.
    + rewrite steps_below_ge by lia. reflexivity.
Qed.

Lemma columns_row (y : Z) (a : Acc) :
  0 <= y ->
  columns pixels width rowstride channels (Z.to_nat width) y
          (if Z.rem y 4 =? 0 then 0 else 2) a
  = fold_left visit (map (fun x => (y, x)) (sample_columns width y)) a.
Proof.
  intros Hy. rewrite Z.rem_mod_nonneg by lia.
  change (if y mod 4 =? 0 then 0 else 2) with (column_offset y).
  rewrite columns_stepping
    by (apply steps_below_fuel;
        [lia|destruct (column_offset_cases y); lia]).
  unfold sample_columns.
  generalize (stepping (column_offset y) 4
                (steps_below (column_offset y) 4 width)).
  intros l. revert a. induction l as [|x l IH]; intros a;
    [reflexivity|apply IH].
Qed.

Lemma rows_stepping (fuel : nat) (y : Z) (a : Acc) :
  0 <= y -> (steps_below y 2 height <= fuel)%nat ->
  rows pixels width height rowstride channels fuel y a
  = fold_left visit
      (flat_map (fun y => map (fun x => (y, x)) (sample_columns width y))
                (stepping y 2 (steps_below y 2 height))) a.
Proof.
  revert y a. induction fuel as [|fuel IH]; intros y a Hy Hf.
  - assert (steps_below y 2 height = O) as -> by lia. reflexivity.
  - simpl. destruct (Z.ltb_spec y height) as [Hlt|Hge].
    + rewrite (steps_below_lt y 2 height) in * by lia.
      rewrite stepping_S. simpl. rewrite fold_left_app.
      rewrite <- columns_row by assumption.
      apply IH; lia.
    + rewrite steps_below_ge by lia. reflexivity.
Qed.

(** The two loops visit the sampled pixels of the specification, in
    order, and run to their end within the fuel given. *)
Lemma rows_sample_points :
  rows pixels width height rowstride channels (Z.to_nat height) 0 acc0
  = fold_left visit (sample_points width height) acc0.
Proof.
  apply rows_stepping; [lia|]. apply steps_below_fuel; lia.
Qed.

Lemma visit_total (pts : list (Z * Z)) (a : Acc) :
  totalLuminosity (fold_left visit pts a)
  = fold_left (fun s x => (s + x)%float)
              (map (pixel_luminosity pixels rowstride channels) pts)
              (totalLuminosity a).
Proof.
  revert a. induction pts as [|p pts IH]; intros a; [reflexivity|].
  simpl. rewrite IH. reflexivity.
Qed.

Lemma visit_squares (pts : list (Z * Z)) (a : Acc) :
  luminositySquaredSum (fold_left visit pts a)
  = fold_left (fun s x => (s + x * x)%float)
              (map (pixel_luminosity pixels rowstride channels) pts)
              (luminositySquaredSum a).
Proof.
  revert a. induction pts as [|p pts IH]; intros a; [reflexivity|].
  simpl. rewrite IH. reflexivity.
Qed.

Lemma visit_count (pts : list (Z * Z)) (a : Acc) :
  acc_sampleCount (fold_left visit pts a)
  = acc_sampleCount a + Z.of_nat (List.length pts).
Proof.
  revert a. induction pts as [|p pts IH]; intros a; [simpl; lia|].
  simpl fold_left. rewrite IH. simpl. lia.
Qed.

Lemma visit_min (pts : list (Z * Z)) (a : Acc) :
  acc_minLuminosity (fold_left visit pts a)
  = fold_left (fun m x => if PrimFloat.ltb x m then x else m)
              (map (pixel_luminosity pixels rowstride channels) pts)
              (acc_minLuminosity a).
Proof.
  revert a. induction pts as [|p pts IH]; intros a; [reflexivity|].
  simpl. rewrite IH. reflexivity.
Qed.

Lemma visit_max (pts : list (Z * Z)) (a : Acc) :
  acc_maxLuminosity (fold_left visit pts a)
  = fold_left (fun m x => if PrimFloat.ltb m x then x else m)
              (map (pixel_luminosity pixels rowstride channels) pts)
              (acc_maxLuminosity a).
Proof.
  revert a. induction pts as [|p pts IH]; intros a; [reflexivity|].
  simpl. rewrite IH. reflexivity.
Qed.

End Loops.

End Loops.

Lemma analyzePixels_count (pixels : list byte) (width height rowStride channels : Z) :
  sampleCount (analyzePixels pixels width height rowStride channels)
  = Z.of_nat (List.length (Spec.sample_points width height)).
Proof.
  unfold analyzePixels. cbn [sampleCount].
  rewrite Loops.rows_sample_points, Loops.visit_count. reflexivity.
Qed.

Lemma analyzePixels_mean (pixels : list byte) (width height rowStride channels : Z) :
  meanLuminance (analyzePixels pixels width height rowStride channels)
  = Spec.mean (Spec.luminosities pixels width height rowStride channels).
Proof.
  unfold analyzePixels, Spec.mean, Spec.sum, Spec.count, Spec.luminosities.
  cbn [meanLuminance].
  rewrite Loops.rows_sample_points, Loops.visit_total, Loops.visit_count.
  rewrite length_map. reflexivity.
Qed.

Lemma analyzePixels_std (pixels : list byte) (width height rowStride channels : Z) :
  luminanceStd (analyzePixels pixels width height rowStride channels)
  = Spec.std (Spec.luminosities pixels width height rowStride channels).
Proof.
  unfold analyzePixels, Spec.std, Spec.mean, Spec.sum, Spec.sumSquares,
    Spec.count, Spec.luminosities.
  cbn [luminanceStd].
  rewrite Loops.rows_sample_points.
  rewrite Loops.visit_total, Loops.visit_squares, Loops.visit_count.
  rewrite length_map. reflexivity.
Qed.

(** C2: [#analyzePixels] samples exactly the rows y = 0, 2, 4, ... below
    the height, with columns from offset 0 (y mod 4 = 0) or 2 stepping by 4
    below the width; each sample reads the bytes at y*rowStride +
    x*channels and has luminosity 0.299*R + 0.587*G + 0.114*B of the bytes
    over 255; the mean is sum/count and the deviation
    sqrt(max(0, sumSquares/count - mean^2)). *)
Theorem analyzePixels_checkerboard
        (pixels : list byte) (width height rowStride channels : Z) :
  let stats := analyzePixels pixels width height rowStride channels in
  let samples := Spec.luminosities pixels width height rowStride channels in
  (forall y x,
      In (y, x) (Spec.sample_points width height) <->
      (0 <= y < height /\ y mod 2 = 0) /\
      ((if y mod 4 =? 0 then 0 else 2) <= x < width /\
       (x - (if y mod 4 =? 0 then 0 else 2)) mod 4 = 0))
  /\ sampleCount stats = Z.of_nat (List.length samples)
  /\ meanLuminance stats = Spec.mean samples
  /\ luminanceStd stats = Spec.std samples.
Proof.
  intros stats samples. split; [intros y x; apply Sampling.In_sample_points|].
  subst stats samples. split; [|split].
  - rewrite analyzePixels_count. unfold Spec.luminosities.
    rewrite length_map. reflexivity.
  - apply analyzePixels_mean.
  - apply analyzePixels_std.
Qed.

Lemma threshold_monotone_witness :
  light_family
    (determineStyle (analyzePixels (repeat xff 51) 17 1 51 3) 0.4%float) = true.
Proof.
  apply (threshold_monotone _ 0.575%float 0.4%float); reflexivity.
Defined.

(* ===================================================================== *)
(** ** Doubles as real numbers *)
(* ===================================================================== *)

Module FloatFacts.

Import FloatBounds.

Lemma fval_nonneg (x : float) : fnn x -> (0 <= fval x)%R.
Proof. apply SFval_nonneg. Qed.

Lemma fnn_positive (x : float) :
  fnn x -> (0 < fval x)%R ->
  exists m e, Prim2SF x = S754_finite false m e
              /\ SpecFloat.bounded prec emax m e = true
              /\ fval x = F2R m e.
Proof.
  unfold fnn, fval. intros Hn Hp. pose proof (Prim2SF_valid x) as Hv.
  destruct (Prim2SF x) as [s|s| |[|] m e]; try discriminate Hn.
  - simpl in Hp. lra.
  - exists m, e. repeat split; [exact Hv|apply SFval_F2R].
Qed.

Lemma add_le (x y b : float) :
  fnn x -> fnn y -> fnn b -> (0 < fval b)%R ->
  (fval x + fval y <= fval b)%R ->
  fnn (x + y) /\ (fval (x + y) <= fval b)%R.
Proof.
  intros Hx Hy Hb Hpos Hle.
  destruct (fnn_positive b Hb Hpos) as (mB & eB & _ & HB & Eb).
  rewrite Eb in *.
  unfold fnn, fval. rewrite FloatAxioms.add_spec.
  apply (round_of_upper (fval x + fval y)); [|assumption|assumption].
  apply SFadd_round_of; assumption.
Qed.

Lemma mul_le (x y b : float) :
  fnn x -> fnn y -> fnn b -> (0 < fval b)%R ->
  (fval x * fval y <= fval b)%R ->
  fnn (x * y) /\ (fval (x * y) <= fval b)%R.
Proof.
  intros Hx Hy Hb Hpos Hle.
  destruct (fnn_positive b Hb Hpos) as (mB & eB & _ & HB & Eb).
  rewrite Eb in *.
  unfold fnn, fval. rewrite FloatAxioms.mul_spec.
  apply (round_of_upper (fval x * fval y)); [|assumption|assumption].
  apply SFmul_round_of; try assumption; apply Prim2SF_valid.
Qed.

Lemma div_le (x y b : float) :
  fnn x -> fnn y -> (0 < fval y)%R -> fnn b -> (0 < fval b)%R ->
  (fval x / fval y <= fval b)%R ->
  fnn (x / y) /\ (fval (x / y) <= fval b)%R.
Proof.
  intros Hx Hy Hypos Hb Hpos Hle.
  destruct (fnn_positive b Hb Hpos) as (mB & eB & _ & HB & Eb).
  rewrite Eb in *.
  destruct (fnn_positive y Hy Hypos) as (my & ey & Ey & _ & Ev).
  unfold fnn, fval. rewrite FloatAxioms.div_spec, Ey.
  rewrite Ev in Hle.
  apply (round_of_upper (fval x / F2R my ey)); [|assumption|assumption].
  apply SFdiv_round_of; assumption.
Qed.

Lemma leb_fval (x y : float) :
  fnn x -> fnn y -> (PrimFloat.leb x y = true <-> (fval x <= fval y)%R).
Proof.
  intros Hx Hy. rewrite FloatAxioms.leb_spec.
  apply SFleb_val; try assumption; apply Prim2SF_valid.
Qed.

Lemma ltb_fval (x y : float) :
  fnn x -> fnn y -> (PrimFloat.ltb x y = true <-> (fval x < fval y)%R).
Proof.
  intros Hx Hy. rewrite FloatAxioms.ltb_spec.
  apply SFltb_val; try assumption; apply Prim2SF_valid.
Qed.

Lemma ltb_fval_false (x y : float) :
  fnn x -> fnn y -> (PrimFloat.ltb x y = false <-> (fval y <= fval x)%R).
Proof.
  intros Hx Hy. pose proof (ltb_fval x y Hx Hy) as H.
  destruct (PrimFloat.ltb x y).
  - split; [discriminate|]. intros Hle. destruct H as [H _].
    specialize (H eq_refl). lra.
  - split; [|reflexivity]. intros _.
    destruct (Rle_or_lt (fval y) (fval x)) as [|Hlt]; [assumption|].
    destruct H as [_ H]. specialize (H Hlt). discriminate.
Qed.

Lemma of_int_fval (n : Z) :
  0 < n < 2 ^ 53 -> fnn (JS.of_int n) /\ fval (JS.of_int n) = IZR n.
Proof.
  intros Hn. unfold JS.of_int. destruct (Z.ltb_spec n 0); [lia|].
  unfold fnn, fval. rewrite FloatAxioms.of_uint63_spec, Uint63.of_Z_spec.
  rewrite Z.mod_small by (change wB with (2 ^ 63); lia).
  destruct n as [|p|p]; try lia.
  destruct (binary_normalize_int p ltac:(lia)) as (m & e & -> & Hv).
  split; [reflexivity|]. rewrite SFval_F2R. exact Hv.
Qed.

Lemma zero_fval : fnn 0%float /\ fval 0%float = 0%R.
Proof. split; reflexivity. Qed.

Lemma one_fval : fnn 1%float /\ fval 1%float = 1%R.
Proof. exact (of_int_fval 1 ltac:(lia)). Qed.

Lemma between_fnn (x b : float) :
  PrimFloat.leb 0 x = true -> PrimFloat.leb x b = true -> fnn b -> fnn x.
Proof.
  rewrite !FloatAxioms.leb_spec. unfold fnn.
  change (Prim2SF 0) with (S754_zero false).
  destruct (Prim2SF x) as [s|[|]| |[|] m e], (Prim2SF b) as [sb|sb| |[|] mb eb];
    try discriminate; reflexivity.
Qed.

End FloatFacts.

(* ===================================================================== *)
(** ** Ranges of luminosities, sums and means *)
(* ===================================================================== *)

Module Ranges.

Import FloatBounds FloatFacts.

(** All 256^3 colours, by evaluation. *)
Lemma luminosity_table_holds : luminosity_table channel_values = true.
Proof. vm_compute. reflexivity. Qed.

Lemma luminosity_table_spec (values : list JS.number) :
  luminosity_table values = true ->
  forall r g b, In r values -> In g values -> In b values ->
                unit_range (luminosity_of r g b) = true.
Proof.
  unfold luminosity_table. intros H r g b Hr Hg Hb.
  rewrite forallb_forall in H. specialize (H r Hr).
  rewrite forallb_forall in H. specialize (H g Hg).
  rewrite forallb_forall in H. exact (H b Hb).
Qed.

Lemma channel_In (b : byte) : In (channel b) channel_values.
Proof.
  unfold channel, channel_values.
  apply in_map_iff. exists (N.to_nat (Byte.to_N b)). split.
  - rewrite N_nat_Z. reflexivity.
  - apply in_seq. pose proof (Byte.to_N_bounded b). lia.
Qed.

(** [Math.round(r * 255)] gives back the byte [r] was made of, so [minRGB]
    and [maxRGB] hold the bytes of the darkest and the lightest sample. *)
Lemma round_channel (b : byte) :
  JS.Math_round (channel b * 255)%float = JS.of_int (Z.of_N (Byte.to_N b)).
Proof. destruct b; vm_compute; reflexivity. Qed.

Lemma luminosity_unit (r g b : byte) :
  unit_range (luminosity_of (channel r) (channel g) (channel b)) = true.
Proof.
  apply (luminosity_table_spec channel_values luminosity_table_holds);
    apply channel_In.
Qed.

Lemma index_byte (pixels : list byte) (i : Z) :
  0 <= i < Z.of_nat (List.length pixels) ->
  exists b, (JS.index pixels i / 255)%float = channel b.
Proof.
  intros Hi. unfold JS.index. destruct (Z.ltb_spec i 0); [lia|].
  destruct (nth_error pixels (Z.to_nat i)) as [b|] eqn:E.
  - exists b. reflexivity.
  - apply nth_error_None in E. lia.
Qed.

Lemma sample_point_offset (pixels : list byte) (w h rs ch y x : Z) :
  holds_image pixels w h rs ch ->
  In (y, x) (Spec.sample_points w h) ->
  0 <= y * rs + x * ch /\ y * rs + x * ch + 2 < Z.of_nat (List.length pixels).
Proof.
  intros (Hc & Hr & Hlen) Hin. apply Sampling.In_sample_points in Hin.
  destruct Hin as [[Hy _] [Hx _]].
  destruct (Sampling.column_offset_cases y); nia.
Qed.

Lemma pixel_luminosity_unit (pixels : list byte) (w h rs ch : Z) (p : Z * Z) :
  holds_image pixels w h rs ch ->
  In p (Spec.sample_points w h) ->
  unit_range (Spec.pixel_luminosity pixels rs ch p) = true.
Proof.
  intros Himg Hin. destruct p as [y x].
  destruct (sample_point_offset pixels w h rs ch y x Himg Hin) as [H0 H2].
  unfold Spec.pixel_luminosity. cbn [fst snd].
  destruct (index_byte pixels (y * rs + x * ch) ltac:(lia)) as [r ->].
  destruct (index_byte pixels (y * rs + x * ch + 1) ltac:(lia)) as [g ->].
  destruct (index_byte pixels (y * rs + x * ch + 2) ltac:(lia)) as [b ->].
  apply luminosity_unit.
Qed.

Lemma luminosities_unit (pixels : list byte) (w h rs ch : Z) :
  holds_image pixels w h rs ch ->
  Forall (fun l => unit_range l = true) (Spec.luminosities pixels w h rs ch).
Proof.
  intros Himg. unfold Spec.luminosities. apply Forall_map, Forall_forall.
  intros p Hp. apply (pixel_luminosity_unit pixels w h rs ch); assumption.
Qed.

Lemma unit_fnn (x : float) :
  unit_range x = true -> fnn x /\ (fval x <= 1)%R.
Proof.
  unfold unit_range. rewrite andb_true_iff. intros [H0 H1].
  destruct one_fval as [N1 V1].
  assert (fnn x) as Hx by (apply (between_fnn x 1); assumption).
  split; [assumption|]. rewrite <- V1. apply leb_fval; assumption.
Qed.

Lemma fnn_unit (x : float) :
  fnn x -> (fval x <= 1)%R -> unit_range x = true.
Proof.
  intros Hx Hle. unfold unit_range. rewrite andb_true_iff.
  destruct one_fval as [N1 V1]. destruct zero_fval as [N0 V0].
  split; apply leb_fval; try assumption.
  - rewrite V0. apply fval_nonneg. assumption.
  - rewrite V1. assumption.
Qed.

End Ranges.

Module Statistics.

Import FloatBounds FloatFacts Ranges.

Lemma sum_le (l : list float) :
  Forall (fun x => unit_range x = true) l ->
  forall (s : float) (k : Z),
    fnn s -> (fval s <= IZR k)%R -> 0 <= k ->
    k + Z.of_nat (List.length l) < 2 ^ 53 ->
    fnn (fold_left (fun s x => (s + x)%float) l s)
    /\ (fval (fold_left (fun s x => (s + x)%float) l s)
        <= IZR (k + Z.of_nat (List.length l)))%R.
Proof.
  induction 1 as [|x l Hx Hl IH]; intros s k Hs Hle Hk Hn.
  - simpl. rewrite Z.add_0_r. auto.
  - simpl fold_left. simpl List.length in *.
    destruct (unit_fnn x Hx) as [Nx Vx].
    destruct (of_int_fval (k + 1) ltac:(lia)) as [Nb Vb].
    destruct (add_le s x (JS.of_int (k + 1)) Hs Nx Nb) as [Ns' Vs'].
    + rewrite Vb. apply IZR_lt. lia.
    + rewrite Vb, plus_IZR. lra.
    + rewrite Vb in Vs'.
      destruct (IH _ (k + 1) Ns' Vs' ltac:(lia) ltac:(lia)) as [N V].
      split; [exact N|].
      eapply Rle_trans; [exact V|]. apply IZR_le. lia.
Qed.

Lemma square_unit (x : float) :
  unit_range x = true -> unit_range (x * x)%float = true.
Proof.
  intros Hx. destruct (unit_fnn x Hx) as [Nx Vx].
  destruct one_fval as [N1 V1]. pose proof (fval_nonneg x Nx).
  destruct (mul_le x x 1 Nx Nx N1) as [N V]; [rewrite V1; lra|rewrite V1; nra|].
  apply fnn_unit; [assumption|]. rewrite <- V1. assumption.
Qed.

Lemma sumSquares_map (l : list float) (s : float) :
  fold_left (fun s x => (s + x * x)%float) l s
  = fold_left (fun s x => (s + x)%float) (map (fun x => (x * x)%float) l) s.
Proof.
  revert s. induction l as [|x l IH]; intros s; [reflexivity|]. simpl. apply IH.
Qed.

Section Samples.

Variable l : list float.
Hypothesis l_unit : Forall (fun x => unit_range x = true) l.
Hypothesis l_count : 1 <= Z.of_nat (List.length l) < 2 ^ 53.

Lemma count_fval :
  fnn (Spec.count l) /\ fval (Spec.count l) = IZR (Z.of_nat (List.length l)).
Proof. apply of_int_fval. lia. Qed.

Lemma sum_count :
  fnn (Spec.sum l) /\ (fval (Spec.sum l) <= IZR (Z.of_nat (List.length l)))%R.
Proof.
  destruct zero_fval as [N0 V0].
  destruct (sum_le l l_unit 0%float 0 N0 ltac:(rewrite V0; lra) ltac:(lia)
                   ltac:(lia)) as [N V].
  rewrite Z.add_0_l in V. split; assumption.
Qed.

Lemma sumSquares_count :
  fnn (Spec.sumSquares l)
  /\ (fval (Spec.sumSquares l) <= IZR (Z.of_nat (List.length l)))%R.
Proof.
  unfold Spec.sumSquares. rewrite sumSquares_map.
  destruct zero_fval as [N0 V0].
  assert (Forall (fun x => unit_range x = true)
                 (map (fun x => (x * x)%float) l)) as Hsq.
  { apply Forall_map. revert l_unit. apply Forall_impl.
    intros x. apply square_unit. }
  destruct (sum_le _ Hsq 0%float 0 N0 ltac:(rewrite V0; lra) ltac:(lia)
                   ltac:(rewrite length_map; lia)) as [N V].
  rewrite length_map, Z.add_0_l in V. split; assumption.
Qed.

Lemma quotient_unit (s : float) :
  fnn s -> (fval s <= IZR (Z.of_nat (List.length l)))%R ->
  unit_range (s / Spec.count l)%float = true.
Proof.
  intros Ns Vs. destruct count_fval as [Nc Vc]. destruct one_fval as [N1 V1].
  assert (0 < IZR (Z.of_nat (List.length l)))%R as Hpos
    by (apply IZR_lt; lia).
  destruct (div_le s (Spec.count l) 1 Ns Nc) as [N V]; try assumption.
  - rewrite Vc. assumption.
  - rewrite V1. lra.
  - rewrite Vc, V1. apply Rmult_le_reg_r with (IZR (Z.of_nat (List.length l)));
      [assumption|]. field_simplify; lra.
  - apply fnn_unit; [assumption|]. rewrite <- V1. assumption.
Qed.

Lemma mean_unit : unit_range (Spec.mean l) = true.
Proof. destruct sum_count. apply quotient_unit; assumption. Qed.

End Samples.

(** *** Minimum and maximum *)

Lemma min_max_start : min_max_inv 1%float 0%float false.
Proof.
  destruct one_fval as [N1 V1]. destruct zero_fval as [N0 V0].
  unfold min_max_inv. rewrite V1, V0. repeat split; try assumption; lra.
Qed.

Lemma min_max_step (mn mx x : float) (started : bool) :
  min_max_inv mn mx started -> unit_range x = true ->
  min_max_inv (if PrimFloat.ltb x mn then x else mn)
              (if PrimFloat.ltb mx x then x else mx) true.
Proof.
  intros (Nmn & Nmx & Vmn & Vmx & Hst) Hx.
  destruct (unit_fnn x Hx) as [Nx Vx]. pose proof (fval_nonneg x Nx).
  unfold min_max_inv.
  destruct (PrimFloat.ltb x mn) eqn:Elo; destruct (PrimFloat.ltb mx x) eqn:Ehi;
    try (apply ltb_fval in Elo; [|assumption|assumption]);
    try (apply ltb_fval in Ehi; [|assumption|assumption]);
    try (apply ltb_fval_false in Elo; [|assumption|assumption]);
    try (apply ltb_fval_false in Ehi; [|assumption|assumption]);
    repeat split; try assumption; try lra;
    destruct started; lra.
Qed.

Lemma min_max_fold (l : list float) :
  Forall (fun x => unit_range x = true) l ->
  forall (mn mx : float) (started : bool),
    min_max_inv mn mx started ->
    min_max_inv
      (fold_left (fun m x => if PrimFloat.ltb x m then x else m) l mn)
      (fold_left (fun m x => if PrimFloat.ltb m x then x else m) l mx)
      (match l with [] => started | _ => true end).
Proof.
  induction 1 as [|x l Hx Hl IH]; intros mn mx started Hinv; [exact Hinv|].
  simpl fold_left.
  pose proof (IH _ _ _ (min_max_step mn mx x started Hinv Hx)) as H.
  destruct l; exact H.
Qed.

Lemma min_max_unit (l : list float) :
  Forall (fun x => unit_range x = true) l -> l <> [] ->
  unit_range (minimum l) = true /\ unit_range (maximum l) = true
  /\ PrimFloat.leb (minimum l) (maximum l) = true.
Proof.
  intros Hl Hne.
  pose proof (min_max_fold l Hl _ _ _ min_max_start) as H.
  destruct l as [|x l]; [contradiction|].
  destruct H as (Nmn & Nmx & Vmn & Vmx & Hle).
  repeat split; try (apply fnn_unit; assumption).
  apply leb_fval; assumption.
Qed.

End Statistics.

(* ===================================================================== *)
(** ** The standard deviation *)
(* ===================================================================== *)

Module Deviation.

Import FloatBounds FloatFacts Ranges Statistics.

Lemma fnn_finite (x : float) : fnn x -> SFfinite (Prim2SF x) = true.
Proof.
  unfold fnn. destruct (Prim2SF x) as [s|s| |[|] m e]; try discriminate;
    reflexivity.
Qed.

Lemma sub_not_nan (x y : float) :
  fnn x -> fnn y -> Prim2SF (x - y) <> S754_nan.
Proof.
  intros Hx Hy. rewrite FloatAxioms.sub_spec.
  apply SFsub_not_nan; apply fnn_finite; assumption.
Qed.

Lemma SFeqb_refl (r : spec_float) : r <> S754_nan -> SFeqb r r = true.
Proof.
  unfold SFeqb, SFcompare.
  destruct r as [s|[|]| |[|] m e]; try reflexivity; try congruence; intros _;
    rewrite Z.compare_refl;
    change (Pos.compare_cont Eq m m) with (Pos.compare m m);
    rewrite Pos.compare_refl; reflexivity.
Qed.

Lemma isNaN_false (v : float) : Prim2SF v <> S754_nan -> JS.isNaN v = false.
Proof.
  intros H. unfold JS.isNaN. rewrite FloatAxioms.eqb_spec, SFeqb_refl by exact H.
  reflexivity.
Qed.

Lemma Math_max_zero (v : float) :
  Prim2SF v <> S754_nan ->
  SFnot_negative (Prim2SF (JS.Math_max 0%float v)) = true.
Proof.
  intros H. unfold JS.Math_max. rewrite (isNaN_false v H).
  change (JS.isNaN 0%float) with false. cbn [orb].
  destruct (PrimFloat.ltb 0 v) eqn:E.
  - rewrite FloatAxioms.ltb_spec in E.
    apply (SFltb_zero_positive false). exact E.
  - destruct (PrimFloat.ltb v 0); reflexivity.
Qed.

Lemma sqrt_nonneg (w : float) :
  SFnot_negative (Prim2SF w) = true ->
  PrimFloat.leb 0 (JS.Math_sqrt w) = true.
Proof.
  intros H. unfold JS.Math_sqrt.
  rewrite FloatAxioms.leb_spec, FloatAxioms.sqrt_spec.
  apply (SFleb_zero_not_negative false), SFsqrt_not_negative, H.
Qed.

Lemma std_nonneg (l : list float) :
  Forall (fun x => unit_range x = true) l ->
  1 <= Z.of_nat (List.length l) < 2 ^ 53 ->
  PrimFloat.leb 0 (Spec.std l) = true.
Proof.
  intros Hl Hn. unfold Spec.std.
  apply sqrt_nonneg, Math_max_zero.
  destruct (sumSquares_count l Hl Hn) as [Nq Vq].
  pose proof (quotient_unit l Hn _ Nq Vq) as Hq.
  pose proof (mean_unit l Hl Hn) as Hm.
  destruct (unit_fnn _ Hq) as [Na _].
  destruct (unit_fnn _ (square_unit _ Hm)) as [Nb _].
  apply sub_not_nan; assumption.
Qed.

(** *** Where the deviation is exactly zero *)

Lemma zero_div (c : float) :
  fnn c -> (0 < fval c)%R -> (0 / c)%float = 0%float.
Proof.
  intros Hc Hp. destruct (fnn_positive c Hc Hp) as (m & e & E & _ & _).
  apply Prim2SF_inj. rewrite FloatAxioms.div_spec, E. reflexivity.
Qed.

Lemma sum_zeros (l : list float) :
  (forall x, In x l -> x = 0%float) -> Spec.sum l = 0%float.
Proof.
  unfold Spec.sum. induction l as [|x l IH]; intros H; [reflexivity|].
  simpl. rewrite (H x (or_introl eq_refl)).
  change (0 + 0)%float with 0%float. apply IH.
  intros y Hy. apply H. right. exact Hy.
Qed.

Lemma sumSquares_zeros (l : list float) :
  (forall x, In x l -> x = 0%float) -> Spec.sumSquares l = 0%float.
Proof.
  unfold Spec.sumSquares. induction l as [|x l IH]; intros H; [reflexivity|].
  simpl. rewrite (H x (or_introl eq_refl)).
  change (0 + 0 * 0)%float with 0%float. apply IH.
  intros y Hy. apply H. right. exact Hy.
Qed.

Lemma std_zeros (l : list float) :
  (forall x, In x l -> x = 0%float) ->
  1 <= Z.of_nat (List.length l) < 2 ^ 53 ->
  Spec.std l = 0%float.
Proof.
  intros H Hn. unfold Spec.std, Spec.mean.
  rewrite sum_zeros, sumSquares_zeros by assumption.
  destruct (of_int_fval (Z.of_nat (List.length l)) ltac:(lia)) as [Nc Vc].
  rewrite zero_div; [reflexivity|exact Nc|].
  apply Rlt_le_trans with (IZR (Z.of_nat (List.length l)));
    [apply IZR_lt; lia|].
  right. symmetry. exact Vc.
Qed.

Lemma F2R_inj (m1 m2 : positive) (e1 e2 : Z) :
  SpecFloat.bounded prec emax m1 e1 = true ->
  SpecFloat.bounded prec emax m2 e2 = true ->
  F2R m1 e1 = F2R m2 e2 -> m1 = m2 /\ e1 = e2.
Proof.
  intros H1 H2 E. pose proof (F2R_compare m1 m2 e1 e2 H1 H2) as H.
  simpl in H.
  destruct (Z.compare_spec e1 e2) as [Ee|L|G]; try lra.
  change (Pos.compare_cont Eq m1 m2) with (Pos.compare m1 m2) in H.
  destruct (Pos.compare_spec m1 m2) as [Em|L|G]; try lra. auto.
Qed.

Lemma div_one (x : float) (m : positive) (e : Z) :
  Prim2SF x = S754_finite false m e -> (x / 1)%float = x.
Proof.
  intros E. apply Prim2SF_inj. rewrite E.
  pose proof (Prim2SF_valid x) as Vx. rewrite E in Vx. simpl in Vx.
  pose proof (Prim2SF_valid (x / 1)) as Vr.
  rewrite FloatAxioms.div_spec, E in *.
  change (Prim2SF 1) with (S754_finite false 4503599627370496 (-52)) in *.
  pose proof (SFdiv_round_of (S754_finite false m e) 4503599627370496 (-52)
                eq_refl) as Hr.
  assert (F2R 4503599627370496 (-52) = 1%R) as H1.
  { destruct one_fval as [_ V]. unfold fval in V.
    change (Prim2SF 1) with (S754_finite false 4503599627370496 (-52)) in V.
    rewrite SFval_F2R in V. exact V. }
  rewrite H1, SFval_F2R in Hr.
  replace (F2R m e / 1)%R with (F2R m e) in Hr by lra.
  destruct (round_of_upper _ _ m e Hr Vx ltac:(lra)) as [Hn Hu].
  pose proof (round_of_lower _ _ m e Hr Vx ltac:(lra) Hn) as Hl.
  pose proof (F2R_pos m e).
  destruct (SF64div _ _) as [s|s| |[|] m' e']; try discriminate Hn.
  - simpl in Hl. lra.
  - rewrite SFval_F2R in *. simpl in Vr.
    destruct (F2R_inj m' m e' e Vr Vx ltac:(lra)) as [-> ->]. reflexivity.
Qed.

Lemma zero_add (x : float) (m : positive) (e : Z) :
  Prim2SF x = S754_finite false m e -> (0 + x)%float = x.
Proof.
  intros E. apply Prim2SF_inj. rewrite FloatAxioms.add_spec, E. reflexivity.
Qed.

Lemma sub_self (x : float) (m : positive) (e : Z) :
  Prim2SF x = S754_finite false m e -> (x - x)%float = 0%float.
Proof.
  intros E. apply Prim2SF_inj. rewrite FloatAxioms.sub_spec, E.
  unfold SF64sub, SFsub. rewrite Z.sub_diag. reflexivity.
Qed.

Lemma of_zero (x : float) (s : bool) :
  Prim2SF x = S754_zero s -> x = 0%float \/ x = (-0)%float.
Proof.
  intros E. rewrite <- (SF2Prim_Prim2SF x), E. destruct s; auto.
Qed.

Lemma self_residue (p : float) :
  fnn p -> ((0 + p) / 1 - p)%float = 0%float.
Proof.
  unfold fnn. intros Hp.
  destruct (Prim2SF p) as [s|s| |[|] m e] eqn:E; try discriminate Hp.
  - destruct (of_zero p s E) as [-> | ->]; reflexivity.
  - rewrite (zero_add p m e E), (div_one p m e E). apply (sub_self p m e E).
Qed.

Lemma std_single (x : float) :
  unit_range x = true -> Spec.std [x] = 0%float.
Proof.
  intros Hx. destruct (unit_fnn x Hx) as [Nx _].
  unfold Spec.std, Spec.mean, Spec.sum, Spec.sumSquares, Spec.count.
  simpl fold_left. change (JS.of_int (Z.of_nat (List.length [x]))) with 1%float.
  unfold fnn in Nx.
  destruct (Prim2SF x) as [s|s| |[|] m e] eqn:E; try discriminate Nx.
  - destruct (of_zero x s E) as [-> | ->]; reflexivity.
  - rewrite (zero_add x m e E), (div_one x m e E).
    destruct (unit_fnn _ (square_unit x Hx)) as [Np _].
    rewrite (self_residue _ Np). reflexivity.
Qed.

End Deviation.

(* ===================================================================== *)
(** ** Ranges of the statistics of [#analyzePixels] *)
(* ===================================================================== *)

Lemma analyzePixels_minimum (pixels : list byte) (width height rowStride channels : Z) :
  minLuminosity (analyzePixels pixels width height rowStride channels)
  = minimum (Spec.luminosities pixels width height rowStride channels).
Proof.
  unfold analyzePixels. cbn [minLuminosity].
  rewrite Loops.rows_sample_points, Loops.visit_min. reflexivity.
Qed.

Lemma analyzePixels_maximum (pixels : list byte) (width height rowStride channels : Z) :
  maxLuminosity (analyzePixels pixels width height rowStride channels)
  = maximum (Spec.luminosities pixels width height rowStride channels).
Proof.
  unfold analyzePixels. cbn [maxLuminosity].
  rewrite Loops.rows_sample_points, Loops.visit_max. reflexivity.
Qed.

Lemma luminosities_count (pixels : list byte) (width height rowStride channels : Z) :
  Z.of_nat (List.length (Spec.luminosities pixels width height rowStride channels))
  = sampleCount (analyzePixels pixels width height rowStride channels).
Proof.
  rewrite analyzePixels_count. unfold Spec.luminosities.
  rewrite length_map. reflexivity.
Qed.

(** C6, amended: on a buffer that holds its image, with at least one
    sample (and fewer than 2^53, where the counter is exact), the mean, the
    minimum and the maximum luminosity all lie in [0, 1], and the minimum
    is at most the maximum. *)
Theorem analyzePixels_unit_ranges
        (pixels : list byte) (width height rowStride channels : Z) :
  holds_image pixels width height rowStride channels ->
  1 <= sampleCount (analyzePixels pixels width height rowStride channels) < 2 ^ 53 ->
  let stats := analyzePixels pixels width height rowStride channels in
  unit_range (meanLuminance stats) = true
  /\ unit_range (minLuminosity stats) = true
  /\ unit_range (maxLuminosity stats) = true
  /\ PrimFloat.leb (minLuminosity stats) (maxLuminosity stats) = true.
Proof.
  intros Himg Hn stats. subst stats.
  rewrite <- luminosities_count in Hn.
  pose proof (Ranges.luminosities_unit pixels width height rowStride channels Himg)
    as Hl.
  rewrite analyzePixels_mean, analyzePixels_minimum, analyzePixels_maximum.
  split; [apply Statistics.mean_unit; assumption|].
  apply Statistics.min_max_unit; [assumption|].
  intros E. rewrite E in Hn. simpl in Hn. lia.
Qed.

Lemma analyzePixels_unit_ranges_witness :
  let stats := analyzePixels (repeat xff 51) 17 1 51 3 in
  unit_range (meanLuminance stats) = true
  /\ unit_range (minLuminosity stats) = true
  /\ unit_range (maxLuminosity stats) = true
  /\ PrimFloat.leb (minLuminosity stats) (maxLuminosity stats) = true.
Proof.
  apply (analyzePixels_unit_ranges (repeat xff 51) 17 1 51 3).
  - unfold holds_image. simpl. lia.
  - assert (sampleCount (analyzePixels (repeat xff 51) 17 1 51 3) = 5) as ->
      by (vm_compute; reflexivity).
    lia.
Defined.

(** C6 fails as stated: a strip of five white pixels has its mean one
    unit in the last place below its minimum. *)
Lemma mean_below_minimum :
  let stats := analyzePixels (repeat xff 51) 17 1 51 3 in
  sampleCount stats = 5
  /\ minLuminosity stats = 0.99999999999999989%float
  /\ meanLuminance stats = 0.99999999999999978%float
  /\ PrimFloat.leb (minLuminosity stats) (meanLuminance stats) = false.
Proof. vm_compute. repeat split; reflexivity. Qed.

(** The other side fails as well: five pixels of the grey (7, 7, 7) have
    their mean above their maximum. *)
Lemma mean_above_maximum :
  let stats := analyzePixels (repeat x07 51) 17 1 51 3 in
  sampleCount stats = 5
  /\ PrimFloat.leb (meanLuminance stats) (maxLuminosity stats) = false.
Proof. vm_compute. split; reflexivity. Qed.

(** C7, amended: on a buffer that holds its image, with at least one
    sample (and fewer than 2^53), the deviation is a number and is not
    negative; it is exactly 0 when one pixel is sampled and when every
    sampled luminosity is 0. *)
Theorem luminanceStd_nonneg
        (pixels : list byte) (width height rowStride channels : Z) :
  holds_image pixels width height rowStride channels ->
  1 <= sampleCount (analyzePixels pixels width height rowStride channels) < 2 ^ 53 ->
  let stats := analyzePixels pixels width height rowStride channels in
  PrimFloat.leb 0 (luminanceStd stats) = true
  /\ (sampleCount stats = 1 -> luminanceStd stats = 0%float)
  /\ ((forall l, In l (Spec.luminosities pixels width height rowStride channels) ->
                 l = 0%float) ->
      luminanceStd stats = 0%float).
Proof.
  intros Himg Hn stats. subst stats.
  rewrite <- luminosities_count in *.
  pose proof (Ranges.luminosities_unit pixels width height rowStride channels Himg)
    as Hl.
  rewrite analyzePixels_std.
  split; [apply Deviation.std_nonneg; assumption|]. split.
  - intros H1.
    destruct (Spec.luminosities pixels width height rowStride channels)
      as [|x [|y l]]; simpl in H1; try lia.
    apply Deviation.std_single. inversion Hl. assumption.
  - intros Hz. apply Deviation.std_zeros; assumption.
Qed.

Lemma luminanceStd_nonneg_witness :
  let stats := analyzePixels (repeat x00 51) 17 1 51 3 in
  PrimFloat.leb 0 (luminanceStd stats) = true
  /\ (sampleCount stats = 1 -> luminanceStd stats = 0%float)
  /\ ((forall l, In l (Spec.luminosities (repeat x00 51) 17 1 51 3) ->
                 l = 0%float) ->
      luminanceStd stats = 0%float).
Proof.
  apply (luminanceStd_nonneg (repeat x00 51) 17 1 51 3).
  - unfold holds_image. simpl. lia.
  - assert (sampleCount (analyzePixels (repeat x00 51) 17 1 51 3) = 5) as ->
      by (vm_compute; reflexivity).
    lia.
Defined.

(** C7 fails as stated: five white pixels, all of the same luminosity,
    have a deviation of about 1.49e-8. *)
Lemma uniform_white_deviation :
  let stats := analyzePixels (repeat xff 51) 17 1 51 3 in
  sampleCount stats = 5
  /\ Spec.luminosities (repeat xff 51) 17 1 51 3
     = repeat 0.99999999999999989%float 5
  /\ luminanceStd stats = 1.4901161193847656e-08%float
  /\ PrimFloat.eqb (luminanceStd stats) 0 = false.
Proof. vm_compute. repeat split; reflexivity. Qed.

(* ===================================================================== *)
(** ** More on [#analyzePixels]: the extremes and their colours *)
(* ===================================================================== *)

Module Extremes.

Import FloatBounds FloatFacts Ranges Statistics.

Section FirstBest.

Variable A : Type.
Variable better : float -> float -> bool.
Variable key : float -> R.
Hypothesis better_key :
  forall x m, fnn x -> fnn m -> (better x m = true <-> (key x < key m)%R).

Lemma better_false (x m : float) :
  fnn x -> fnn m -> better x m = false -> (key m <= key x)%R.
Proof.
  intros Hx Hm H. destruct (Rle_or_lt (key m) (key x)) as [|Hlt]; [assumption|].
  apply (better_key x m Hx Hm) in Hlt. congruence.
Qed.

Lemma keep_best_split (l : list (float * A)) :
  Forall (fun it => fnn (fst it)) l ->
  forall (before : list (float * A)) (held : float * A) (after : list (float * A)),
    fnn (fst held) ->
    (forall q, In q before -> (key (fst held) < key (fst q))%R) ->
    (forall q, In q after -> (key (fst held) <= key (fst q))%R) ->
    exists before' after',
      before ++ held :: after ++ l
      = before' ++ fold_left (keep_best better) l held :: after'
      /\ fnn (fst (fold_left (keep_best better) l held))
      /\ (forall q, In q before' ->
                    (key (fst (fold_left (keep_best better) l held))
                     < key (fst q))%R)
      /\ (forall q, In q after' ->
                    (key (fst (fold_left (keep_best better) l held))
                     <= key (fst q))%R).
Proof.
  induction 1 as [|x l Hx Hl IH]; intros before held after Hh Hb Ha.
  - exists before, after. rewrite app_nil_r. auto.
  - simpl fold_left. unfold keep_best at 2 4 6 8.
    destruct (better (fst x) (fst held)) eqn:E.
    + apply (better_key _ _ Hx Hh) in E.
      destruct (IH (before ++ held :: after) x [] Hx) as (b' & a' & Eq & H).
      * intros q Hq. apply in_app_or in Hq. destruct Hq as [Hq|[<-|Hq]].
        -- specialize (Hb q Hq). lra.
        -- assumption.
        -- specialize (Ha q Hq). lra.
      * intros q [].
      * exists b', a'. split; [|exact H].
        rewrite <- Eq. rewrite <- !app_assoc. reflexivity.
    + apply (better_false _ _ Hx Hh) in E.
      destruct (IH before held (after ++ [x]) Hh Hb) as (b' & a' & Eq & H).
      * intros q Hq. apply in_app_or in Hq. destruct Hq as [Hq|[<-|[]]].
        -- apply Ha, Hq.
        -- assumption.
      * exists b', a'. split; [|exact H].
        rewrite <- Eq. rewrite <- !app_assoc. reflexivity.
Qed.

Lemma keep_best_first (l : list (float * A)) (start : float * A) :
  Forall (fun it => fnn (fst it)) l -> fnn (fst start) ->
  exists before after,
    start :: l = before ++ fold_left (keep_best better) l start :: after
    /\ fnn (fst (fold_left (keep_best better) l start))
    /\ (forall q, In q before ->
                  (key (fst (fold_left (keep_best better) l start))
                   < key (fst q))%R)
    /\ (forall q, In q after ->
                  (key (fst (fold_left (keep_best better) l start))
                   <= key (fst q))%R).
Proof.
  intros Hl Hs.
  destruct (keep_best_split l Hl [] start [] Hs) as (b & a & E & H);
    [intros q []|intros q []|].
  exists b, a. split; [exact E|exact H].
Qed.

End FirstBest.

Lemma extremes_table_holds : extremes_table channel_values = true.
Proof. vm_compute. reflexivity. Qed.

Lemma extremes_table_spec (values : list JS.number) :
  extremes_table values = true ->
  forall r g b, In r values -> In g values -> In b values ->
    PrimFloat.ltb (luminosity_of r g b) 1 = true
    /\ (PrimFloat.ltb 0 (luminosity_of r g b) = true
        \/ (PrimFloat.eqb r 0 = true /\ PrimFloat.eqb g 0 = true
            /\ PrimFloat.eqb b 0 = true)).
Proof.
  unfold extremes_table. intros H r g b Hr Hg Hb.
  rewrite forallb_forall in H. specialize (H r Hr).
  rewrite forallb_forall in H. specialize (H g Hg).
  rewrite forallb_forall in H. specialize (H b Hb).
  rewrite andb_true_iff, orb_true_iff, !andb_true_iff in H.
  destruct H as [H1 [H0|[[Er Eg] Eb]]]; auto.
Qed.

Lemma channel_zero (b : byte) :
  PrimFloat.eqb (channel b) 0 = true -> b = x00.
Proof. destruct b; vm_compute; intros H; try reflexivity; discriminate H. Qed.

(** No colour reaches the luminosity 1 (white is one unit in the last
    place below it), and black alone has the luminosity 0. *)
Lemma luminosity_strict (r g b : byte) :
  PrimFloat.ltb (luminosity_of (channel r) (channel g) (channel b)) 1 = true
  /\ (PrimFloat.ltb 0 (luminosity_of (channel r) (channel g) (channel b)) = true
      \/ (r = x00 /\ g = x00 /\ b = x00)).
Proof.
  destruct (extremes_table_spec channel_values extremes_table_holds
              (channel r) (channel g) (channel b))
    as [H1 [H0|(Er & Eg & Eb)]]; try apply channel_In; auto using channel_zero.
  split; [assumption|]. right. auto using channel_zero.
Qed.

Lemma index_nth (pixels : list byte) (i : Z) :
  0 <= i < Z.of_nat (List.length pixels) ->
  exists b, nth_error pixels (Z.to_nat i) = Some b
            /\ (JS.index pixels i / 255)%float = channel b.
Proof.
  intros Hi. unfold JS.index. destruct (Z.ltb_spec i 0); [lia|].
  destruct (nth_error pixels (Z.to_nat i)) as [b|] eqn:E.
  - exists b. split; reflexivity.
  - apply nth_error_None in E. lia.
Qed.

(** A pixel inside the buffer: its bytes, its luminosity and the colour
    recorded for it. *)
Lemma pixel_inside (pixels : list byte) (rs ch : Z) (p : Z * Z) :
  0 <= fst p * rs + snd p * ch ->
  fst p * rs + snd p * ch + 2 < Z.of_nat (List.length pixels) ->
  exists r g b,
    pixel_bytes pixels rs ch p = Some (r, g, b)
    /\ Spec.pixel_luminosity pixels rs ch p
       = luminosity_of (channel r) (channel g) (channel b)
    /\ pixel_rgb pixels rs ch p = rgb_of_bytes (r, g, b).
Proof.
  intros H0 H2. unfold pixel_bytes, Spec.pixel_luminosity, pixel_rgb.
  set (o := fst p * rs + snd p * ch) in *.
  destruct (index_nth pixels o ltac:(lia)) as (r & Nr & Er).
  destruct (index_nth pixels (o + 1) ltac:(lia)) as (g & Ng & Eg).
  destruct (index_nth pixels (o + 2) ltac:(lia)) as (b & Nb & Eb).
  exists r, g, b. rewrite Nr, Ng, Nb, Er, Eg, Eb.
  destruct (Z.ltb_spec o 0); [lia|].
  repeat split. unfold roundRGB, rgb_of_bytes.
  rewrite !round_channel. reflexivity.
Qed.

Section Pairs.

Variable pixels : list byte.
Variables rowstride channels : Z.

Let visit (a : Acc) (p : Z * Z) : Acc :=
  sample pixels rowstride channels (fst p) (snd p) a.

Let item (p : Z * Z) : float * RGB :=
  (Spec.pixel_luminosity pixels rowstride channels p,
   pixel_rgb pixels rowstride channels p).

Lemma visit_min_pair (pts : list (Z * Z)) (a : Acc) :
  (acc_minLuminosity (fold_left visit pts a), acc_minRGB (fold_left visit pts a))
  = fold_left (keep_best (fun x m => PrimFloat.ltb x m)) (map item pts)
              (acc_minLuminosity a, acc_minRGB a).
Proof.
  revert a. induction pts as [|p pts IH]; intros a; [reflexivity|].
  simpl fold_left. rewrite IH. f_equal.
  unfold keep_best, visit, sample, item, Spec.pixel_luminosity, pixel_rgb,
    luminosity_of.
  cbn [fst snd acc_minLuminosity acc_minRGB].
  destruct (PrimFloat.ltb _ _); reflexivity.
Qed.

Lemma visit_max_pair (pts : list (Z * Z)) (a : Acc) :
  (acc_maxLuminosity (fold_left visit pts a), acc_maxRGB (fold_left visit pts a))
  = fold_left (keep_best (fun x m => PrimFloat.ltb m x)) (map item pts)
              (acc_maxLuminosity a, acc_maxRGB a).
Proof.
  revert a. induction pts as [|p pts IH]; intros a; [reflexivity|].
  simpl fold_left. rewrite IH. f_equal.
  unfold keep_best, visit, sample, item, Spec.pixel_luminosity, pixel_rgb,
    luminosity_of.
  cbn [fst snd acc_maxLuminosity acc_maxRGB].
  destruct (PrimFloat.ltb _ _); reflexivity.
Qed.

End Pairs.

Lemma analyzePixels_min_pair (pixels : list byte) (w h rs ch : Z) :
  (minLuminosity (analyzePixels pixels w h rs ch),
   minRGB (analyzePixels pixels w h rs ch))
  = fold_left (keep_best (fun x m => PrimFloat.ltb x m))
      (map (fun p => (Spec.pixel_luminosity pixels rs ch p,
                      pixel_rgb pixels rs ch p))
           (Spec.sample_points w h))
      (1%float, mkRGB 255%float 255%float 255%float).
Proof.
  unfold analyzePixels. cbn [minLuminosity minRGB].
  rewrite Loops.rows_sample_points. apply visit_min_pair.
Qed.

Lemma analyzePixels_max_pair (pixels : list byte) (w h rs ch : Z) :
  (maxLuminosity (analyzePixels pixels w h rs ch),
   maxRGB (analyzePixels pixels w h rs ch))
  = fold_left (keep_best (fun x m => PrimFloat.ltb m x))
      (map (fun p => (Spec.pixel_luminosity pixels rs ch p,
                      pixel_rgb pixels rs ch p))
           (Spec.sample_points w h))
      (0%float, mkRGB 0%float 0%float 0%float).
Proof.
  unfold analyzePixels. cbn [maxLuminosity maxRGB].
  rewrite Loops.rows_sample_points. apply visit_max_pair.
Qed.

(** A split of the mapped list is a split of the list. *)
Lemma map_split {A B : Type} (f : A -> B) (l : list A)
      (before : list B) (y : B) (after : list B) :
  map f l = before ++ y :: after ->
  exists l1 x l2, l = l1 ++ x :: l2 /\ before = map f l1 /\ y = f x
                  /\ after = map f l2.
Proof.
  revert before. induction l as [|a l IH]; intros before E.
  - destruct before; discriminate E.
  - destruct before as [|b before]; simpl in E; injection E as E1 E2.
    + exists [], a, l. auto.
    + destruct (IH before E2) as (l1 & x & l2 & -> & -> & -> & ->).
      exists (a :: l1), x, l2. subst b. auto.
Qed.

Lemma items_fnn (pixels : list byte) (w h rs ch : Z) :
  holds_image pixels w h rs ch ->
  Forall (fun it : float * RGB => fnn (fst it))
         (map (fun p => (Spec.pixel_luminosity pixels rs ch p,
                         pixel_rgb pixels rs ch p))
              (Spec.sample_points w h)).
Proof.
  intros Himg. apply Forall_map, Forall_forall. intros p Hp. cbn [fst].
  apply unit_fnn, (pixel_luminosity_unit pixels w h rs ch); assumption.
Qed.

Lemma sampled_fnn (pixels : list byte) (w h rs ch : Z) (p : Z * Z) :
  holds_image pixels w h rs ch -> In p (Spec.sample_points w h) ->
  fnn (Spec.pixel_luminosity pixels rs ch p).
Proof.
  intros Himg Hp.
  apply unit_fnn, (pixel_luminosity_unit pixels w h rs ch); assumption.
Qed.

Lemma sampled_inside (pixels : list byte) (w h rs ch : Z) (p : Z * Z) :
  holds_image pixels w h rs ch -> In p (Spec.sample_points w h) ->
  exists r g b,
    pixel_bytes pixels rs ch p = Some (r, g, b)
    /\ Spec.pixel_luminosity pixels rs ch p
       = luminosity_of (channel r) (channel g) (channel b)
    /\ pixel_rgb pixels rs ch p = rgb_of_bytes (r, g, b).
Proof.
  intros Himg Hp. destruct p as [y x].
  destruct (sample_point_offset pixels w h rs ch y x Himg Hp) as [H0 H2].
  apply pixel_inside; assumption.
Qed.

End Extremes.

(** X1: The darkest sample: [minLuminosity] is the luminosity of a sampled
    pixel, [minRGB] holds its three bytes, every pixel sampled before it is
    strictly lighter and none sampled after it is darker. *)
Theorem analyzePixels_darkest (pixels : list byte) (w h rs ch : Z) :
  holds_image pixels w h rs ch ->
  1 <= sampleCount (analyzePixels pixels w h rs ch) ->
  let stats := analyzePixels pixels w h rs ch in
  let lum := Spec.pixel_luminosity pixels rs ch in
  exists before p after c,
    Spec.sample_points w h = before ++ p :: after
    /\ pixel_bytes pixels rs ch p = Some c
    /\ minLuminosity stats = lum p
    /\ minRGB stats = rgb_of_bytes c
    /\ (forall q, In q before -> PrimFloat.ltb (lum p) (lum q) = true)
    /\ (forall q, In q after -> PrimFloat.ltb (lum q) (lum p) = false).
Proof.
  intros Himg Hn stats lum. subst stats.
  rewrite analyzePixels_count in Hn.
  pose proof (Extremes.analyzePixels_min_pair pixels w h rs ch) as Hpair.
  pose proof (Extremes.items_fnn pixels w h rs ch Himg) as Hfnn.
  destruct (Extremes.keep_best_first RGB (fun x m => PrimFloat.ltb x m) fval
              FloatFacts.ltb_fval _ (1%float, mkRGB 255%float 255%float 255%float) Hfnn
              (proj1 FloatFacts.one_fval))
    as (bf & af & Esplit & _ & Hbefore & Hafter).
  rewrite <- Hpair in Esplit, Hbefore, Hafter. clear Hpair.
  remember (minLuminosity (analyzePixels pixels w h rs ch)) as mL eqn:EmL.
  remember (minRGB (analyzePixels pixels w h rs ch)) as mC eqn:EmC.
  clear EmL EmC. cbn [fst] in Hbefore, Hafter.
  destruct bf as [|start bf]; simpl in Esplit.
  - (* the initial value cannot survive a sample *)
    injection Esplit as E1 _ E2.
    exfalso. destruct (Spec.sample_points w h) as [|q pts] eqn:Epts;
      [simpl in Hn; lia|].
    assert (In q (Spec.sample_points w h)) as Hq by (rewrite Epts; left; reflexivity).
    destruct (Extremes.sampled_inside pixels w h rs ch q Himg Hq)
      as (r & g & b & _ & El & _).
    destruct (Extremes.luminosity_strict r g b) as [H1 _].
    rewrite <- El in H1.
    apply FloatFacts.ltb_fval in H1;
      [|apply (Extremes.sampled_fnn pixels w h rs ch); assumption
       |exact (proj1 FloatFacts.one_fval)].
    specialize (Hafter (Spec.pixel_luminosity pixels rs ch q, pixel_rgb pixels rs ch q)).
    rewrite <- E2 in Hafter. specialize (Hafter (or_introl eq_refl)).
    rewrite <- E1 in Hafter. cbn [fst] in Hafter. lra.
  - injection Esplit as _ E2.
    destruct (Extremes.map_split _ _ _ _ _ E2)
      as (l1 & p & l2 & Epts & -> & Ep & ->).
    injection Ep as Emin Ergb.
    assert (In p (Spec.sample_points w h)) as Hp
      by (rewrite Epts; apply in_elt).
    destruct (Extremes.sampled_inside pixels w h rs ch p Himg Hp)
      as (r & g & b & Eb & _ & Ec).
    exists l1, p, l2, (r, g, b).
    split; [exact Epts|]. split; [exact Eb|]. split; [exact Emin|].
    split; [rewrite Ergb; exact Ec|].
    assert (forall q, In q (Spec.sample_points w h) -> fnn (lum q)) as Hf
      by (intros q Hq; apply (Extremes.sampled_fnn pixels w h rs ch); assumption).
    rewrite Emin in Hbefore, Hafter. split.
    + intros q Hq. apply FloatFacts.ltb_fval.
      * apply Hf, Hp.
      * apply Hf. rewrite Epts. apply in_or_app. left. exact Hq.
      * apply (Hbefore (lum q, pixel_rgb pixels rs ch q)).
        right. apply in_map_iff. exists q. split; [reflexivity|exact Hq].
    + intros q Hq. apply FloatFacts.ltb_fval_false.
      * apply Hf. rewrite Epts. apply in_or_app. right. right. exact Hq.
      * apply Hf, Hp.
      * apply (Hafter (lum q, pixel_rgb pixels rs ch q)).
        apply in_map_iff. exists q. split; [reflexivity|exact Hq].
Qed.

Lemma analyzePixels_darkest_witness :
  let pixels := repeat x20 12 ++ repeat x00 15 in
  let stats := analyzePixels pixels 9 1 27 3 in
  let lum := Spec.pixel_luminosity pixels 27 3 in
  exists before p after c,
    Spec.sample_points 9 1 = before ++ p :: after
    /\ pixel_bytes pixels 27 3 p = Some c
    /\ minLuminosity stats = lum p
    /\ minRGB stats = rgb_of_bytes c
    /\ (forall q, In q before -> PrimFloat.ltb (lum p) (lum q) = true)
    /\ (forall q, In q after -> PrimFloat.ltb (lum q) (lum p) = false).
Proof.
  apply (analyzePixels_darkest (repeat x20 12 ++ repeat x00 15) 9 1 27 3).
  - unfold holds_image. simpl. lia.
  - assert (sampleCount (analyzePixels (repeat x20 12 ++ repeat x00 15) 9 1 27 3)
            = 3) as -> by (vm_compute; reflexivity).
    lia.
Defined.

(** X2: The lightest sample: [maxLuminosity] is the luminosity of a sampled
    pixel, [maxRGB] holds its three bytes, every pixel sampled before it is
    strictly darker and none sampled after it is lighter. *)
Theorem analyzePixels_lightest (pixels : list byte) (w h rs ch : Z) :
  holds_image pixels w h rs ch ->
  1 <= sampleCount (analyzePixels pixels w h rs ch) ->
  let stats := analyzePixels pixels w h rs ch in
  let lum := Spec.pixel_luminosity pixels rs ch in
  exists before p after c,
    Spec.sample_points w h = before ++ p :: after
    /\ pixel_bytes pixels rs ch p = Some c
    /\ maxLuminosity stats = lum p
    /\ maxRGB stats = rgb_of_bytes c
    /\ (forall q, In q before -> PrimFloat.ltb (lum q) (lum p) = true)
    /\ (forall q, In q after -> PrimFloat.ltb (lum p) (lum q) = false).
Proof.
  intros Himg Hn stats lum. subst stats.
  rewrite analyzePixels_count in Hn.
  pose proof (Extremes.analyzePixels_max_pair pixels w h rs ch) as Hpair.
  pose proof (Extremes.items_fnn pixels w h rs ch Himg) as Hfnn.
  assert (forall x m, fnn x -> fnn m ->
            (PrimFloat.ltb m x = true <-> (- fval x < - fval m)%R)) as Hkey.
  { intros x m Hx Hm. rewrite (FloatFacts.ltb_fval m x Hm Hx). lra. }
  destruct (Extremes.keep_best_first RGB (fun x m => PrimFloat.ltb m x)
              (fun x => (- fval x)%R) Hkey _
              (0%float, mkRGB 0%float 0%float 0%float) Hfnn
              (proj1 FloatFacts.zero_fval))
    as (bf & af & Esplit & _ & Hbefore & Hafter).
  rewrite <- Hpair in Esplit, Hbefore, Hafter. clear Hpair.
  remember (maxLuminosity (analyzePixels pixels w h rs ch)) as mL eqn:EmL.
  remember (maxRGB (analyzePixels pixels w h rs ch)) as mC eqn:EmC.
  clear EmL EmC. cbn [fst] in Hbefore, Hafter.
  assert (forall q, In q (Spec.sample_points w h) -> fnn (lum q)) as Hf
    by (intros q Hq; apply (Extremes.sampled_fnn pixels w h rs ch); assumption).
  destruct bf as [|start bf]; simpl in Esplit.
  - (* the initial value survives: the first sample is black *)
    injection Esplit as E1 EC E2.
    destruct (Spec.sample_points w h) as [|p pts] eqn:Epts;
      [simpl in Hn; lia|].
    assert (In p (Spec.sample_points w h)) as Hp by (rewrite Epts; left; reflexivity).
    rewrite <- Epts in Hf.
    destruct (Extremes.sampled_inside pixels w h rs ch p Himg Hp)
      as (r & g & b & Eb & El & _).
    assert (forall q, In q (p :: pts) -> (fval (lum q) <= 0)%R) as Hz.
    { intros q Hq.
      specialize (Hafter (lum q, pixel_rgb pixels rs ch q)).
      rewrite <- E2, <- E1 in Hafter. cbn [fst] in Hafter.
      rewrite (proj2 FloatFacts.zero_fval) in Hafter.
      assert (- 0 <= - fval (lum q))%R; [|lra].
      apply Hafter, in_map_iff. exists q. split; [reflexivity|exact Hq]. }
    destruct (Extremes.luminosity_strict r g b) as [_ [H0|(-> & -> & ->)]].
    + exfalso. fold (Spec.pixel_luminosity pixels rs ch p) in El.
      rewrite <- El in H0.
      apply FloatFacts.ltb_fval in H0;
        [|exact (proj1 FloatFacts.zero_fval)|apply Hf, Hp].
      rewrite (proj2 FloatFacts.zero_fval) in H0.
      specialize (Hz p (or_introl eq_refl)). unfold lum in Hz. lra.
    + exists [], p, pts, (x00, x00, x00).
      split; [reflexivity|]. split; [exact Eb|].
      split; [rewrite <- E1; unfold lum; rewrite El; vm_compute; reflexivity|].
      split; [rewrite <- EC; vm_compute; reflexivity|].
      split; [intros q []|].
      intros q Hq. apply FloatFacts.ltb_fval_false.
      * apply Hf, Hp.
      * apply Hf. rewrite Epts. right. exact Hq.
      * specialize (Hz q (or_intror Hq)).
        pose proof (FloatFacts.fval_nonneg (lum p) (Hf p Hp)). lra.
  - injection Esplit as _ E2.
    destruct (Extremes.map_split _ _ _ _ _ E2)
      as (l1 & p & l2 & Epts & -> & Ep & ->).
    injection Ep as Emax Ergb.
    assert (In p (Spec.sample_points w h)) as Hp
      by (rewrite Epts; apply in_elt).
    destruct (Extremes.sampled_inside pixels w h rs ch p Himg Hp)
      as (r & g & b & Eb & _ & Ec).
    exists l1, p, l2, (r, g, b).
    split; [exact Epts|]. split; [exact Eb|]. split; [exact Emax|].
    split; [rewrite Ergb; exact Ec|].
    rewrite Emax in Hbefore, Hafter. split.
    + intros q Hq. apply FloatFacts.ltb_fval.
      * apply Hf. rewrite Epts. apply in_or_app. left. exact Hq.
      * apply Hf, Hp.
      * assert (- fval (Spec.pixel_luminosity pixels rs ch p) < - fval (lum q))%R;
          [|unfold lum in *; lra].
        apply (Hbefore (lum q, pixel_rgb pixels rs ch q)).
        right. apply in_map_iff. exists q. split; [reflexivity|exact Hq].
    + intros q Hq. apply FloatFacts.ltb_fval_false.
      * apply Hf, Hp.
      * apply Hf. rewrite Epts. apply in_or_app. right. right. exact Hq.
      * assert (- fval (Spec.pixel_luminosity pixels rs ch p) <= - fval (lum q))%R;
          [|unfold lum in *; lra].
        apply (Hafter (lum q, pixel_rgb pixels rs ch q)).
        apply in_map_iff. exists q. split; [reflexivity|exact Hq].
Qed.

Lemma analyzePixels_lightest_witness :
  let pixels := repeat x20 12 ++ repeat x00 15 in
  let stats := analyzePixels pixels 9 1 27 3 in
  let lum := Spec.pixel_luminosity pixels 27 3 in
  exists before p after c,
    Spec.sample_points 9 1 = before ++ p :: after
    /\ pixel_bytes pixels 27 3 p = Some c
    /\ maxLuminosity stats = lum p
    /\ maxRGB stats = rgb_of_bytes c
    /\ (forall q, In q before -> PrimFloat.ltb (lum q) (lum p) = true)
    /\ (forall q, In q after -> PrimFloat.ltb (lum p) (lum q) = false).
Proof.
  apply (analyzePixels_lightest (repeat x20 12 ++ repeat x00 15) 9 1 27 3).
  - unfold holds_image. simpl. lia.
  - assert (sampleCount (analyzePixels (repeat x20 12 ++ repeat x00 15) 9 1 27 3)
            = 3) as -> by (vm_compute; reflexivity).
    lia.
Defined.

(* ===================================================================== *)
(** ** More on [#analyzePixels]: the number of samples *)
(* ===================================================================== *)

Module Counting.

Import Spec Sampling.

Lemma length_stepping (start step : Z) (n : nat) :
  List.length (stepping start step n) = n.
Proof. unfold stepping. rewrite length_map, length_seq. reflexivity. Qed.

(** The samples of the row [y]. *)
Lemma row_length (width y : Z) :
  0 <= width ->
  Z.of_nat (List.length (sample_columns width y))
  = if y mod 4 =? 0 then (width + 3) / 4 else (width + 1) / 4.
Proof.
  intros Hw. unfold sample_columns. rewrite length_stepping.
  unfold column_offset, steps_below.
  destruct (y mod 4 =? 0); rewrite Z2Nat.id;
    try (f_equal; lia); apply Z.div_pos; lia.
Qed.

(** The samples of the first [n] sampled rows: every other one of them
    starts at column 0, the others at column 2. *)
Lemma rows_length (width : Z) (n : nat) :
  0 <= width ->
  Z.of_nat (List.length
              (flat_map (fun y => map (fun x => (y, x)) (sample_columns width y))
                        (stepping 0 2 n)))
  = ((Z.of_nat n + 1) / 2) * ((width + 3) / 4)
    + (Z.of_nat n / 2) * ((width + 1) / 4).
Proof.
  intros Hw. induction n as [|n IH]; [reflexivity|].
  unfold stepping in *. rewrite seq_S, map_app, flat_map_app, length_app.
  rewrite Nat2Z.inj_add, IH. clear IH. cbn [flat_map map]. rewrite app_nil_r.
  rewrite length_map, row_length by assumption.
  rewrite Nat2Z.inj_succ. set (k := Z.of_nat n).
  assert (0 <= k) as Hk by (unfold k; lia).
  replace ((0 + 2 * Z.of_nat (0 + n)) mod 4 =? 0) with (k mod 2 =? 0).
  2:{ replace (0 + 2 * Z.of_nat (0 + n)) with (2 * k) by (unfold k; lia).
      destruct (Z.eqb_spec (k mod 2) 0), (Z.eqb_spec ((2 * k) mod 4) 0);
        try reflexivity; exfalso; Z.div_mod_to_equations; lia. }
  generalize ((width + 3) / 4) ((width + 1) / 4). intros A B.
  destruct (Z.eqb_spec (k mod 2) 0) as [E|E].
  - assert ((Z.succ k + 1) / 2 = (k + 1) / 2 + 1) as ->
        by (Z.div_mod_to_equations; lia).
    assert (Z.succ k / 2 = k / 2) as -> by (Z.div_mod_to_equations; lia).
    ring.
  - assert ((Z.succ k + 1) / 2 = (k + 1) / 2) as ->
        by (Z.div_mod_to_equations; lia).
    assert (Z.succ k / 2 = k / 2 + 1) as -> by (Z.div_mod_to_equations; lia).
    ring.
Qed.

Lemma sample_points_length (width height : Z) :
  0 <= width -> 0 <= height ->
  Z.of_nat (List.length (sample_points width height))
  = ((height + 3) / 4) * ((width + 3) / 4)
    + ((height + 1) / 4) * ((width + 1) / 4).
Proof.
  intros Hw Hh. unfold sample_points, sample_rows.
  rewrite rows_length by assumption. unfold steps_below.
  rewrite Z2Nat.id by (apply Z.div_pos; lia).
  replace (height - 0 + 2 - 1) with (height + 1) by lia.
  f_equal; f_equal; Z.div_mod_to_equations; lia.
Qed.

Lemma sample_points_bounds (width height : Z) :
  1 <= width -> 1 <= height ->
  1 <= Z.of_nat (List.length (sample_points width height)) <= width * height.
Proof.
  intros Hw Hh. rewrite sample_points_length by lia.
  assert (1 <= (height + 3) / 4) by (Z.div_mod_to_equations; lia).
  assert (1 <= (width + 3) / 4) by (Z.div_mod_to_equations; lia).
  assert (0 <= (height + 1) / 4) by (Z.div_mod_to_equations; lia).
  assert (0 <= (width + 1) / 4 <= (width + 3) / 4)
    by (Z.div_mod_to_equations; lia).
  assert ((height + 3) / 4 + (height + 1) / 4 <= height)
    by (Z.div_mod_to_equations; lia).
  assert ((width + 3) / 4 <= width) by (Z.div_mod_to_equations; lia).
  nia.
Qed.

End Counting.

(** X3: The number of samples has a closed form in the size of the region:
    the rows 0, 4, 8, ... hold a sample every four columns from column 0,
    the rows 2, 6, 10, ... from column 2. *)
Theorem analyzePixels_sample_count (pixels : list byte) (w h rs ch : Z) :
  0 <= w -> 0 <= h ->
  sampleCount (analyzePixels pixels w h rs ch)
  = ((h + 3) / 4) * ((w + 3) / 4) + ((h + 1) / 4) * ((w + 1) / 4).
Proof.
  intros Hw Hh. rewrite analyzePixels_count.
  apply Counting.sample_points_length; assumption.
Qed.

Lemma analyzePixels_sample_count_witness :
  sampleCount (analyzePixels (repeat x80 300) 10 10 30 3) = 13.
Proof.
  apply (analyzePixels_sample_count (repeat x80 300) 10 10 30 3); lia.
Defined.

(** X4: A region with a pixel in it is sampled at least once and at most once
    a pixel, so the counter stays exact whenever the region has fewer than
    2^53 pixels. *)
Theorem analyzePixels_sample_count_bounds (pixels : list byte) (w h rs ch : Z) :
  1 <= w -> 1 <= h ->
  1 <= sampleCount (analyzePixels pixels w h rs ch) <= w * h.
Proof.
  intros Hw Hh. rewrite analyzePixels_count.
  apply Counting.sample_points_bounds; assumption.
Qed.

Lemma analyzePixels_sample_count_bounds_witness :
  1 <= sampleCount (analyzePixels (repeat x80 300) 10 10 30 3) <= 10 * 10.
Proof.
  apply (analyzePixels_sample_count_bounds (repeat x80 300) 10 10 30 3); lia.
Defined.

(* ===================================================================== *)
(** ** More on [#analyzePixels]: reads outside the buffer *)
(* ===================================================================== *)

(* ---------- lemmas ---------- *)

(** NaN is absorbing. *)
Module NotANumber.

Lemma add_nan_l (x : float) : (JS.NaN + x)%float = JS.NaN.
Proof.
  apply Prim2SF_inj. rewrite FloatAxioms.add_spec.
  change (Prim2SF JS.NaN) with S754_nan. reflexivity.
Qed.

Lemma add_nan_r (x : float) : (x + JS.NaN)%float = JS.NaN.
Proof.
  apply Prim2SF_inj. rewrite FloatAxioms.add_spec.
  change (Prim2SF JS.NaN) with S754_nan.
  destruct (Prim2SF x); reflexivity.
Qed.

Lemma mul_nan_r (x : float) : (x * JS.NaN)%float = JS.NaN.
Proof.
  apply Prim2SF_inj. rewrite FloatAxioms.mul_spec.
  change (Prim2SF JS.NaN) with S754_nan.
  destruct (Prim2SF x); reflexivity.
Qed.

Lemma sub_nan_r (x : float) : (x - JS.NaN)%float = JS.NaN.
Proof.
  apply Prim2SF_inj. rewrite FloatAxioms.sub_spec.
  change (Prim2SF JS.NaN) with S754_nan.
  destruct (Prim2SF x); reflexivity.
Qed.

Lemma div_nan_l (x : float) : (JS.NaN / x)%float = JS.NaN.
Proof.
  apply Prim2SF_inj. rewrite FloatAxioms.div_spec.
  change (Prim2SF JS.NaN) with S754_nan. reflexivity.
Qed.

(** A read outside the array is [undefined], a NaN in arithmetic. *)
Lemma index_outside (pixels : list byte) (i : Z) :
  i < 0 \/ Z.of_nat (List.length pixels) <= i -> JS.index pixels i = JS.NaN.
Proof.
  intros H. unfold JS.index. destruct (Z.ltb_spec i 0); [reflexivity|].
  destruct (nth_error pixels (Z.to_nat i)) eqn:E; [|reflexivity].
  assert (nth_error pixels (Z.to_nat i) <> None) as Hs by congruence.
  apply nth_error_Some in Hs. lia.
Qed.

Lemma pixel_outside (pixels : list byte) (rs ch : Z) (p : Z * Z) :
  ~ (0 <= fst p * rs + snd p * ch
     /\ fst p * rs + snd p * ch + 2 < Z.of_nat (List.length pixels)) ->
  Spec.pixel_luminosity pixels rs ch p = JS.NaN.
Proof.
  intros H. unfold Spec.pixel_luminosity.
  set (o := fst p * rs + snd p * ch) in *.
  destruct (Z.ltb_spec o 0) as [Hneg|Hpos].
  - rewrite (index_outside pixels o) by lia.
    rewrite div_nan_l, mul_nan_r, !add_nan_l. reflexivity.
  - rewrite (index_outside pixels (o + 2)) by lia.
    rewrite div_nan_l, mul_nan_r, add_nan_r. reflexivity.
Qed.

Lemma sum_nan_start (l : list float) :
  fold_left (fun s x => (s + x)%float) l JS.NaN = JS.NaN.
Proof.
  induction l as [|x l IH]; [reflexivity|]. simpl. rewrite add_nan_l. exact IH.
Qed.

Lemma sum_nan (l : list float) (s : float) :
  In JS.NaN l -> fold_left (fun s x => (s + x)%float) l s = JS.NaN.
Proof.
  revert s. induction l as [|x l IH]; intros s Hin; [contradiction|].
  simpl. destruct Hin as [->|Hin].
  - rewrite add_nan_r. apply sum_nan_start.
  - apply IH, Hin.
Qed.

Lemma mean_nan (l : list float) : In JS.NaN l -> Spec.mean l = JS.NaN.
Proof.
  intros H. unfold Spec.mean, Spec.sum. rewrite sum_nan by assumption.
  apply div_nan_l.
Qed.

Lemma std_nan (l : list float) : In JS.NaN l -> Spec.std l = JS.NaN.
Proof.
  intros H. unfold Spec.std. rewrite (mean_nan l H).
  rewrite mul_nan_r, sub_nan_r. reflexivity.
Qed.

End NotANumber.

(** X5: A sampled pixel whose three bytes are not all inside the buffer is
    read as [undefined]: nothing is thrown, the mean and the deviation are
    NaN, and the style is a light one whatever the threshold is. *)
Theorem analyzePixels_outside_buffer
        (pixels : list byte) (w h rs ch : Z) (p : Z * Z) (t : JS.number) :
  In p (Spec.sample_points w h) ->
  ~ (0 <= fst p * rs + snd p * ch
     /\ fst p * rs + snd p * ch + 2 < Z.of_nat (List.length pixels)) ->
  let stats := analyzePixels pixels w h rs ch in
  meanLuminance stats = JS.NaN
  /\ luminanceStd stats = JS.NaN
  /\ light_family (determineStyle stats t) = true.
Proof.
  intros Hp Hout stats. subst stats.
  assert (In JS.NaN (Spec.luminosities pixels w h rs ch)) as Hin.
  { unfold Spec.luminosities. apply in_map_iff. exists p.
    split; [apply NotANumber.pixel_outside; assumption|assumption]. }
  rewrite determineStyle_light_family. unfold Spec.isDark.
  rewrite analyzePixels_mean, analyzePixels_std.
  rewrite (NotANumber.mean_nan _ Hin), (NotANumber.std_nan _ Hin).
  rewrite FloatOrder.ltb_nan_l. repeat split.
Qed.

Lemma analyzePixels_outside_buffer_witness :
  let stats := analyzePixels [x10; x20] 1 1 3 3 in
  meanLuminance stats = JS.NaN
  /\ luminanceStd stats = JS.NaN
  /\ light_family (determineStyle stats 0.575%float) = true.
Proof.
  apply (analyzePixels_outside_buffer [x10; x20] 1 1 3 3 (0, 0)).
  - vm_compute. left. reflexivity.
  - simpl. lia.
Defined.

(** *** Thresholds outside the range of a mean *)

Module Saturation.

Import FloatOrder.

Lemma SFleb_ltb_trans (x y z : spec_float) :
  SFleb x y = true -> SFltb y z = true -> SFltb x z = true.
Proof.
  unfold SFleb, SFltb, SFcompare.
  destruct x as [sx|sx| |sx mx ex], y as [sy|sy| |sy my ey],
           z as [sz|sz| |sz mz ez];
    try destruct sx; try destruct sy; try destruct sz;
    try reflexivity; try discriminate;
    cmp_cases; simpl; intros; subst;
    try reflexivity; try discriminate; try lia.
Qed.

Lemma SFltb_leb_trans (x y z : spec_float) :
  SFltb x y = true -> SFleb y z = true -> SFltb x z = true.
Proof.
  unfold SFleb, SFltb, SFcompare.
  destruct x as [sx|sx| |sx mx ex], y as [sy|sy| |sy my ey],
           z as [sz|sz| |sz mz ez];
    try destruct sx; try destruct sy; try destruct sz;
    try reflexivity; try discriminate;
    cmp_cases; simpl; intros; subst;
    try reflexivity; try discriminate; try lia.
Qed.

Lemma leb_ltb_trans (x y z : float) :
  PrimFloat.leb x y = true -> PrimFloat.ltb y z = true ->
  PrimFloat.ltb x z = true.
Proof.
  rewrite FloatAxioms.leb_spec, !FloatAxioms.ltb_spec. apply SFleb_ltb_trans.
Qed.

Lemma ltb_leb_trans (x y z : float) :
  PrimFloat.ltb x y = true -> PrimFloat.leb y z = true ->
  PrimFloat.ltb x z = true.
Proof.
  rewrite FloatAxioms.leb_spec, !FloatAxioms.ltb_spec. apply SFltb_leb_trans.
Qed.

(** A mean in [0, 1] is below no threshold that is at most 0, and below
    every threshold above 1. *)
Lemma unit_not_below (m t : float) :
  unit_range m = true -> PrimFloat.leb t 0 = true -> PrimFloat.ltb m t = false.
Proof.
  unfold unit_range. rewrite andb_true_iff. intros [H0 _] Ht.
  destruct (PrimFloat.ltb m t) eqn:E; [|reflexivity].
  pose proof (leb_ltb_trans _ _ _ H0 (ltb_leb_trans _ _ _ E Ht)) as H.
  rewrite ltb_irrefl in H. discriminate.
Qed.

Lemma unit_below (m t : float) :
  unit_range m = true -> PrimFloat.ltb 1 t = true -> PrimFloat.ltb m t = true.
Proof.
  unfold unit_range. rewrite andb_true_iff. intros [_ H1] Ht.
  exact (leb_ltb_trans _ _ _ H1 Ht).
Qed.

End Saturation.

Lemma analyzePixels_mean_unit (pixels : list byte) (w h rs ch : Z) :
  holds_image pixels w h rs ch ->
  1 <= sampleCount (analyzePixels pixels w h rs ch) < 2 ^ 53 ->
  unit_range (meanLuminance (analyzePixels pixels w h rs ch)) = true.
Proof.
  intros Himg Hn. rewrite <- luminosities_count in Hn.
  rewrite analyzePixels_mean.
  apply Statistics.mean_unit; [|assumption].
  apply Ranges.luminosities_unit, Himg.
Qed.

(** X6: On a buffer that holds its image, a threshold of 0 or less makes every
    style a light one, and a threshold above 1 makes every style a dark
    one: the mean lies in [0, 1]. *)
Theorem threshold_saturation
        (pixels : list byte) (w h rs ch : Z) (t : JS.number) :
  holds_image pixels w h rs ch ->
  1 <= sampleCount (analyzePixels pixels w h rs ch) < 2 ^ 53 ->
  let stats := analyzePixels pixels w h rs ch in
  (PrimFloat.leb t 0 = true -> light_family (determineStyle stats t) = true)
  /\ (PrimFloat.ltb 1 t = true -> dark_family (determineStyle stats t) = true).
Proof.
  intros Himg Hn stats. subst stats.
  pose proof (analyzePixels_mean_unit pixels w h rs ch Himg Hn) as Hm.
  rewrite determineStyle_light_family, determineStyle_dark_family.
  unfold Spec.isDark. split; intros Ht.
  - rewrite (Saturation.unit_not_below _ _ Hm Ht). reflexivity.
  - apply Saturation.unit_below; assumption.
Qed.

Lemma threshold_saturation_witness :
  let stats := analyzePixels (repeat x00 51) 17 1 51 3 in
  (PrimFloat.leb 0 0 = true
   -> light_family (determineStyle stats 0%float) = true)
  /\ (PrimFloat.ltb 1 0 = true
      -> dark_family (determineStyle stats 0%float) = true).
Proof.
  apply (threshold_saturation (repeat x00 51) 17 1 51 3 0%float).
  - unfold holds_image. simpl. lia.
  - assert (sampleCount (analyzePixels (repeat x00 51) 17 1 51 3) = 5) as ->
      by (vm_compute; reflexivity).
    lia.
Defined.

(** *** The region asked for *)

(** X7: The region [analyze] asks of a decoded image starts at (4, 4), is
    never narrower than one pixel nor of negative height; it lies inside
    the image exactly when the image is at least 5 pixels wide and 4 high,
    and it has a row exactly when both the panel and the image are at
    least 5 high. *)
Theorem analyze_region_inside
        (new_from_file : string -> throws Pixbuf)
        (new_subpixbuf : Pixbuf -> Z -> Z -> Z -> Z -> throws Pixbuf)
        (path : string) (t : JS.number) (panelHeight : Z) (image : Pixbuf) :
  new_from_file path = inr image ->
  exists w h,
    analyze new_from_file new_subpixbuf path t panelHeight
    = match new_subpixbuf image 4 4 w h with
      | inr region =>
          Analyzed (determineStyle (analyzeTopRegion region) t)
                   (analyzeTopRegion region)
      | inl message => Fallback "dark" 0.5%float message
      end
    /\ 1 <= w /\ 0 <= h
    /\ (4 + w <= get_width image <-> 5 <= get_width image)
    /\ (4 + h <= get_height image <-> 4 <= get_height image)
    /\ (1 <= h <-> 5 <= panelHeight /\ 5 <= get_height image).
Proof.
  intros Hfile.
  exists (Z.max 1 (get_width image - 2 * 4)),
         (Z.max 0 (Z.min panelHeight (get_height image) - 4)).
  split; [apply analyze_decoded, Hfile|]. lia.
Qed.

Lemma analyze_region_inside_witness :
  exists w h,
    analyze (one_file "wallpaper.png" (uniform_image 20 10 x80 x80 x80))
            gdk_pixbuf_new_subpixbuf "wallpaper.png" default_luminanceThreshold 6
    = match gdk_pixbuf_new_subpixbuf (uniform_image 20 10 x80 x80 x80) 4 4 w h with
      | inr region =>
          Analyzed (determineStyle (analyzeTopRegion region)
                                   default_luminanceThreshold)
                   (analyzeTopRegion region)
      | inl message => Fallback "dark" 0.5%float message
      end
    /\ 1 <= w /\ 0 <= h
    /\ (4 + w <= get_width (uniform_image 20 10 x80 x80 x80)
        <-> 5 <= get_width (uniform_image 20 10 x80 x80 x80))
    /\ (4 + h <= get_height (uniform_image 20 10 x80 x80 x80)
        <-> 4 <= get_height (uniform_image 20 10 x80 x80 x80))
    /\ (1 <= h <-> 5 <= 6 /\ 5 <= get_height (uniform_image 20 10 x80 x80 x80)).
Proof.
  apply (analyze_region_inside
           (one_file "wallpaper.png" (uniform_image 20 10 x80 x80 x80))
           gdk_pixbuf_new_subpixbuf "wallpaper.png" default_luminanceThreshold 6
           (uniform_image 20 10 x80 x80 x80)).
  reflexivity.
Defined.

(* ===================================================================== *)
(** ** More on [analyze]: the whole path *)
(* ===================================================================== *)

Lemma analyzePixels_extremes_unit (pixels : list byte) (w h rs ch : Z) :
  holds_image pixels w h rs ch ->
  1 <= sampleCount (analyzePixels pixels w h rs ch) ->
  let stats := analyzePixels pixels w h rs ch in
  unit_range (minLuminosity stats) = true
  /\ unit_range (maxLuminosity stats) = true
  /\ PrimFloat.leb (minLuminosity stats) (maxLuminosity stats) = true.
Proof.
  intros Himg Hn stats. subst stats. rewrite <- luminosities_count in Hn.
  rewrite analyzePixels_minimum, analyzePixels_maximum.
  apply Statistics.min_max_unit; [apply Ranges.luminosities_unit, Himg|].
  intros E. rewrite E in Hn. simpl in Hn. lia.
Qed.

Lemma analyzePixels_std_nonneg (pixels : list byte) (w h rs ch : Z) :
  holds_image pixels w h rs ch ->
  1 <= sampleCount (analyzePixels pixels w h rs ch) < 2 ^ 53 ->
  PrimFloat.leb 0 (luminanceStd (analyzePixels pixels w h rs ch)) = true.
Proof.
  intros Himg Hn. rewrite <- luminosities_count in Hn.
  rewrite analyzePixels_std.
  apply Deviation.std_nonneg; [apply Ranges.luminosities_unit, Himg|assumption].
Qed.

(** X8: The whole of [analyze] on a wallpaper that decodes and whose strip is
    a well-formed image with a pixel in it: the result is the analysis and
    never the fallback, its style is one of the four labels, dark exactly
    when the mean is below the threshold, and every statistic is a number
    in its range. *)
Theorem analyze_well_formed
        (new_from_file : string -> throws Pixbuf)
        (new_subpixbuf : Pixbuf -> Z -> Z -> Z -> Z -> throws Pixbuf)
        (path : string) (t : JS.number) (panelHeight : Z)
        (image region : Pixbuf) :
  new_from_file path = inr image ->
  new_subpixbuf image 4 4 (Z.max 1 (get_width image - 2 * 4))
                (Z.max 0 (Z.min panelHeight (get_height image) - 4))
  = inr region ->
  holds_image (get_pixels region) (get_width region) (get_height region)
              (get_rowstride region) (if get_has_alpha region then 4 else 3) ->
  1 <= get_width region -> 1 <= get_height region ->
  get_width region * get_height region < 2 ^ 53 ->
  exists style stats,
    analyze new_from_file new_subpixbuf path t panelHeight
    = Analyzed style stats
    /\ In style core_labels
    /\ dark_family style = PrimFloat.ltb (meanLuminance stats) t
    /\ unit_range (meanLuminance stats) = true
    /\ unit_range (minLuminosity stats) = true
    /\ unit_range (maxLuminosity stats) = true
    /\ PrimFloat.leb (minLuminosity stats) (maxLuminosity stats) = true
    /\ PrimFloat.leb 0 (luminanceStd stats) = true
    /\ 1 <= sampleCount stats <= get_width region * get_height region.
Proof.
  intros Hfile Hcrop Himg Hw Hh Hsize.
  exists (determineStyle (analyzeTopRegion region) t), (analyzeTopRegion region).
  split; [rewrite (analyze_decoded _ _ _ _ _ _ Hfile), Hcrop; reflexivity|].
  split; [apply determineStyle_core_label|].
  split; [apply determineStyle_dark_family|].
  unfold analyzeTopRegion.
  set (ch := if get_has_alpha region then 4 else 3) in *.
  assert (1 <= sampleCount (analyzePixels (get_pixels region) (get_width region)
                              (get_height region) (get_rowstride region) ch)
          <= get_width region * get_height region) as Hn.
  { rewrite analyzePixels_count. apply Counting.sample_points_bounds; assumption. }
  split; [apply analyzePixels_mean_unit; [assumption|lia]|].
  destruct (analyzePixels_extremes_unit _ _ _ _ _ Himg (proj1 Hn))
    as (Hmin & Hmax & Hle).
  repeat (split; [assumption|]).
  split; [apply analyzePixels_std_nonneg; [assumption|lia]|exact Hn].
Qed.

Lemma analyze_well_formed_witness :
  exists style stats,
    analyze (one_file "wallpaper.png" (uniform_image 20 10 x80 x80 x80))
            gdk_pixbuf_new_subpixbuf "wallpaper.png" default_luminanceThreshold 6
    = Analyzed style stats
    /\ In style core_labels
    /\ dark_family style
       = PrimFloat.ltb (meanLuminance stats) default_luminanceThreshold
    /\ unit_range (meanLuminance stats) = true
    /\ unit_range (minLuminosity stats) = true
    /\ unit_range (maxLuminosity stats) = true
    /\ PrimFloat.leb (minLuminosity stats) (maxLuminosity stats) = true
    /\ PrimFloat.leb 0 (luminanceStd stats) = true
    /\ 1 <= sampleCount stats <= 12 * 2.
Proof.
  apply (analyze_well_formed
           (one_file "wallpaper.png" (uniform_image 20 10 x80 x80 x80))
           gdk_pixbuf_new_subpixbuf "wallpaper.png" default_luminanceThreshold 6
           (uniform_image 20 10 x80 x80 x80)
           (cropped (uniform_image 20 10 x80 x80 x80) 4 4 12 2)).
  - reflexivity.
  - reflexivity.
  - unfold holds_image. vm_compute. repeat split; discriminate.
  - simpl. lia.
  - simpl. lia.
  - simpl. lia.
Defined.

(** *** What the statistics depend on *)

Lemma fold_left_ext_in {A B : Type} (f g : A -> B -> A) (l : list B) (a : A) :
  (forall x b, In b l -> f x b = g x b) ->
  fold_left f l a = fold_left g l a.
Proof.
  revert a. induction l as [|b l IH]; intros a H; [reflexivity|].
  simpl. rewrite (H a b (or_introl eq_refl)).
  apply IH. intros x b' Hb. apply H. right. exact Hb.
Qed.

(** X9: The statistics depend on nothing but the red, green and blue bytes of
    the sampled pixels: two buffers that agree on them, whatever their
    layout, their alpha bytes and their other pixels, have the same
    analysis. *)
Theorem analyzePixels_sampled_bytes_only
        (pixels pixels' : list byte) (w h rs ch rs' ch' : Z) :
  (forall y x k, In (y, x) (Spec.sample_points w h) -> 0 <= k <= 2 ->
     JS.index pixels (y * rs + x * ch + k)
     = JS.index pixels' (y * rs' + x * ch' + k)) ->
  analyzePixels pixels w h rs ch = analyzePixels pixels' w h rs' ch'.
Proof.
  intros H. unfold analyzePixels. rewrite !Loops.rows_sample_points.
  rewrite (fold_left_ext_in
             (fun a p => sample pixels rs ch (fst p) (snd p) a)
             (fun a p => sample pixels' rs' ch' (fst p) (snd p) a)).
  - reflexivity.
  - intros a [y x] Hp. unfold sample. cbn [fst snd].
    pose proof (H y x 0 Hp ltac:(lia)) as H0. rewrite !Z.add_0_r in H0.
    rewrite H0, (H y x 1 Hp), (H y x 2 Hp) by lia. reflexivity.
Qed.

Lemma analyzePixels_sampled_bytes_only_witness :
  analyzePixels [x10; x20; x30; x01; x02; x03; x04; x05; x06; x07; x08; x09;
                 x40; x50; x60] 5 1 15 3
  = analyzePixels [x10; x20; x30; xff; x00; x00; x00; x7f; x00; x00; x00; x7f;
                   x00; x00; x00; x7f; x40; x50; x60; x80] 5 1 20 4.
Proof.
  apply (analyzePixels_sampled_bytes_only
           [x10; x20; x30; x01; x02; x03; x04; x05; x06; x07; x08; x09;
            x40; x50; x60]
           [x10; x20; x30; xff; x00; x00; x00; x7f; x00; x00; x00; x7f;
            x00; x00; x00; x7f; x40; x50; x60; x80] 5 1 15 3 20 4).
  intros y x k Hin Hk. simpl in Hin. destruct Hin as [E|[E|[]]];
    injection E as <- <-;
    (assert (k = 0 \/ k = 1 \/ k = 2) as [-> | [-> | ->]] by lia); reflexivity.
Defined.

(* ===================================================================== *)
(** ** The strip that is analysed *)
(* ===================================================================== *)

Module Crop.


Section Region.

Variable src : Pixbuf.
Variables src_x src_y w h : Z.

Let channels : Z := if get_has_alpha src then 4 else 3.

Hypothesis stride : 0 <= get_rowstride src.
Hypothesis origin : 0 <= src_x /\ 0 <= src_y.




End Region.

(** When the source holds its image, so does an accepted region of it. *)
Lemma holds_image_cropped (src : Pixbuf) (src_x src_y w h : Z) :
  let channels := if get_has_alpha src then 4 else 3 in
  holds_image (get_pixels src) (get_width src) (get_height src)
              (get_rowstride src) channels ->
  accepted src src_x src_y w h = true ->
  holds_image (get_pixels (cropped src src_x src_y w h)) w h
              (get_rowstride src) channels.
Proof.
  intros channels (Hc & Hr & Hlen) Hok. unfold accepted in Hok.
  rewrite !andb_true_iff in Hok.
  destruct Hok as [[[[[Hx Hxw] Hy] Hyh] Hw] Hh].
  unfold holds_image. split; [exact Hc|]. split; [exact Hr|].
  unfold cropped. cbn [get_pixels]. fold channels.
  rewrite length_firstn, length_skipn. nia.
Qed.

(** The region [analyze] asks for is accepted exactly on images at least
    5 wide and 5 high, under a panel at least 5 high. *)
Lemma accepted_strip (image : Pixbuf) (panelHeight : Z) :
  accepted image 4 4 (Z.max 1 (get_width image - 2 * 4))
           (Z.max 0 (Z.min panelHeight (get_height image) - 4)) = true
  <-> 5 <= get_width image /\ 5 <= get_height image /\ 5 <= panelHeight.
Proof.
  unfold accepted. rewrite !andb_true_iff. lia.
Qed.

Section Library.

Variable new_from_file : string -> throws Pixbuf.
Variable new_subpixbuf : Pixbuf -> Z -> Z -> Z -> Z -> throws Pixbuf.

Hypothesis library : crops_as_GdkPixbuf new_subpixbuf.

Lemma analyze_accepted (path : string) (t : JS.number) (panelHeight : Z)
      (image : Pixbuf) :
  new_from_file path = inr image ->
  5 <= get_width image /\ 5 <= get_height image /\ 5 <= panelHeight ->
  let strip := cropped image 4 4 (Z.max 1 (get_width image - 2 * 4))
                       (Z.max 0 (Z.min panelHeight (get_height image) - 4)) in
  analyze new_from_file new_subpixbuf path t panelHeight
  = Analyzed (determineStyle (analyzeTopRegion strip) t)
             (analyzeTopRegion strip).
Proof.
  intros Hfile Hsize strip. subst strip.
  rewrite (analyze_decoded _ _ _ _ _ _ Hfile).
  apply accepted_strip in Hsize.
  pose proof (library image 4 4 (Z.max 1 (get_width image - 2 * 4))
                (Z.max 0 (Z.min panelHeight (get_height image) - 4))) as L.
  rewrite Hsize in L. rewrite L. reflexivity.
Qed.

Lemma analyze_refused (path : string) (t : JS.number) (panelHeight : Z)
      (image : Pixbuf) :
  new_from_file path = inr image ->
  ~ (5 <= get_width image /\ 5 <= get_height image /\ 5 <= panelHeight) ->
  exists message,
    analyze new_from_file new_subpixbuf path t panelHeight
    = Fallback "dark" 0.5%float message.
Proof.
  intros Hfile Hsize.
  rewrite (analyze_decoded _ _ _ _ _ _ Hfile).
  rewrite <- accepted_strip in Hsize.
  pose proof (library image 4 4 (Z.max 1 (get_width image - 2 * 4))
                (Z.max 0 (Z.min panelHeight (get_height image) - 4))) as L.
  destruct (accepted _ _ _ _ _); [contradiction Hsize; reflexivity|].
  destruct L as [message ->]. exists message. reflexivity.
Qed.

End Library.

(** GdkPixbuf crops as GdkPixbuf does. *)
Lemma gdk_pixbuf_crops : crops_as_GdkPixbuf gdk_pixbuf_new_subpixbuf.
Proof.
  intros src x y w h. unfold gdk_pixbuf_new_subpixbuf.
  destruct (accepted src x y w h); [reflexivity|].
  exists "bgSlice is null"%string. reflexivity.
Qed.

End Crop.




(** C4: with an image library that crops as GdkPixbuf does, [analyze]
    returns the fallback, style dark and mean 0.5 with the message of the
    error, when the file does not decode and when the strip has no row
    (the panel or the image at most 4 high); and whenever it returns
    statistics instead, at least one pixel was sampled, so that nothing
    was divided by zero, and on a decoded image that holds its pixels the
    mean and the deviation are numbers. *)
Theorem analyze_fallback
        (new_from_file : string -> throws Pixbuf)
        (new_subpixbuf : Pixbuf -> Z -> Z -> Z -> Z -> throws Pixbuf)
        (path : string) (t : JS.number) (panelHeight : Z) :
  crops_as_GdkPixbuf new_subpixbuf ->
  (forall message,
      new_from_file path = inl message ->
      analyze new_from_file new_subpixbuf path t panelHeight
      = Fallback "dark" 0.5%float message)
  /\ (forall image,
        new_from_file path = inr image ->
        Z.max 0 (Z.min panelHeight (get_height image) - 4) = 0 ->
        exists message,
          analyze new_from_file new_subpixbuf path t panelHeight
          = Fallback "dark" 0.5%float message)
  /\ (forall style stats,
        analyze new_from_file new_subpixbuf path t panelHeight
        = Analyzed style stats ->
        1 <= sampleCount stats)
  /\ (forall image style stats,
        new_from_file path = inr image ->
        holds_image (get_pixels image) (get_width image) (get_height image)
                    (get_rowstride image)
                    (if get_has_alpha image then 4 else 3) ->
        get_width image * get_height image < 2 ^ 53 ->
        analyze new_from_file new_subpixbuf path t panelHeight
        = Analyzed style stats ->
        JS.isNaN (meanLuminance stats) = false
        /\ JS.isNaN (luminanceStd stats) = false).
Proof.
  intros Hlib.
  assert (forall image style stats,
            new_from_file path = inr image ->
            analyze new_from_file new_subpixbuf path t panelHeight
            = Analyzed style stats ->
            (5 <= get_width image /\ 5 <= get_height image /\ 5 <= panelHeight)
            /\ stats
               = analyzeTopRegion
                   (cropped image 4 4 (Z.max 1 (get_width image - 2 * 4))
                      (Z.max 0 (Z.min panelHeight (get_height image) - 4))))
    as Hok.
  { intros image style stats Hfile E.
    destruct (Z_le_dec 5 (get_width image));
      [destruct (Z_le_dec 5 (get_height image));
       [destruct (Z_le_dec 5 panelHeight)|]|].
    1: { split; [lia|].
         rewrite (Crop.analyze_accepted _ _ Hlib _ t panelHeight _ Hfile) in E
           by lia.
         congruence. }
    all: destruct (Crop.analyze_refused _ _ Hlib _ t panelHeight _ Hfile)
      as [message E']; [lia|congruence]. }
  split; [intros message H; apply analyze_decode_failure, H|].
  split.
  { intros image Hfile Hrow.
    apply (Crop.analyze_refused _ _ Hlib _ _ _ _ Hfile). lia. }
  split.
  { intros style stats E.
    destruct (new_from_file path) as [message|image] eqn:Hfile.
    - rewrite (analyze_decode_failure _ _ _ _ _ _ Hfile) in E. discriminate E.
    - destruct (Hok image style stats eq_refl E) as [Hsize ->].
      unfold analyzeTopRegion. rewrite analyzePixels_count.
      change (get_width (cropped image 4 4 ?w ?h)) with w.
      change (get_height (cropped image 4 4 ?w ?h)) with h.
      apply Counting.sample_points_bounds; lia. }
  intros image style stats Hfile Himg Hbound E.
  destruct (Hok image style stats Hfile E) as [Hsize ->].
  set (w := Z.max 1 (get_width image - 2 * 4)).
  set (h := Z.max 0 (Z.min panelHeight (get_height image) - 4)).
  assert (holds_image (get_pixels (cropped image 4 4 w h)) w h
                      (get_rowstride image)
                      (if get_has_alpha image then 4 else 3)) as Hstrip.
  { apply Crop.holds_image_cropped; [exact Himg|].
    apply Crop.accepted_strip. exact Hsize. }
  unfold analyzeTopRegion.
  change (get_width (cropped image 4 4 w h)) with w.
  change (get_height (cropped image 4 4 w h)) with h.
  change (get_rowstride (cropped image 4 4 w h)) with (get_rowstride image).
  change (if get_has_alpha (cropped image 4 4 w h) then 4 else 3)
    with (if get_has_alpha image then 4 else 3).
  set (ch := if get_has_alpha image then 4 else 3) in *.
  assert (1 <= sampleCount (analyzePixels (get_pixels (cropped image 4 4 w h))
                              w h (get_rowstride image) ch) < 2 ^ 53) as Hn.
  { rewrite analyzePixels_count.
    pose proof (Counting.sample_points_bounds w h ltac:(lia) ltac:(lia)).
    assert (w * h <= get_width image * get_height image) by nia. lia. }
  split.
  - pose proof (analyzePixels_mean_unit _ _ _ _ _ Hstrip Hn) as Hm.
    apply Ranges.unit_fnn in Hm. destruct Hm as [Hm _].
    apply Deviation.isNaN_false. unfold fnn in Hm. intros C.
    rewrite C in Hm. discriminate Hm.
  - pose proof (analyzePixels_std_nonneg _ _ _ _ _ Hstrip Hn) as Hs.
    unfold JS.isNaN.
    destruct (PrimFloat.eqb _ _) eqn:C; [reflexivity|].
    rewrite FloatAxioms.leb_spec in Hs. rewrite FloatAxioms.eqb_spec in C.
    destruct (Prim2SF (luminanceStd _)) as [s|s| |s m e];
      try discriminate Hs; try discriminate C.
    + rewrite Deviation.SFeqb_refl in C by discriminate. discriminate C.
    + rewrite Deviation.SFeqb_refl in C by discriminate. discriminate C.
Qed.

Lemma analyze_fallback_witness :
  exists message,
    analyze (one_file "wallpaper.png" (uniform_image 100 100 x00 x00 x00))
            gdk_pixbuf_new_subpixbuf "wallpaper.png"
            default_luminanceThreshold 2
    = Fallback "dark" 0.5%float message.
Proof.
  apply (analyze_fallback
           (one_file "wallpaper.png" (uniform_image 100 100 x00 x00 x00))
           gdk_pixbuf_new_subpixbuf "wallpaper.png"
           default_luminanceThreshold 2 Crop.gdk_pixbuf_crops)
    with (image := uniform_image 100 100 x00 x00 x00); reflexivity.
Defined.

(** A wallpaper that is not there, and a panel lower than the padding. *)
Example missing_file_falls_back :
  analyze (one_file "wallpaper.png" (uniform_image 100 100 x00 x00 x00))
          gdk_pixbuf_new_subpixbuf "other.png" default_luminanceThreshold
          default_panelHeight
  = Fallback "dark" 0.5%float "Failed to open file".
Proof. reflexivity. Qed.

Example low_panel_falls_back :
  analyze (one_file "wallpaper.png" (uniform_image 100 100 x00 x00 x00))
          gdk_pixbuf_new_subpixbuf "wallpaper.png" default_luminanceThreshold 4
  = Fallback "dark" 0.5%float "bgSlice is null".
Proof. vm_compute. reflexivity. Qed.

(* ===================================================================== *)
(** ** The first sample and the divisor *)
(* ===================================================================== *)

Module Origin.

(** The checkerboard of a region with a pixel starts at (0, 0). *)
Lemma sample_points_origin (width height : Z) :
  1 <= width -> 1 <= height ->
  exists rest, Spec.sample_points width height = (0, 0) :: rest.
Proof.
  intros Hw Hh. unfold Spec.sample_points, Spec.sample_rows.
  rewrite (Sampling.steps_below_lt 0 2 height) by lia.
  rewrite Sampling.stepping_S. cbn [flat_map].
  unfold Spec.sample_columns.
  change (Spec.column_offset 0) with 0.
  rewrite (Sampling.steps_below_lt 0 4 width) by lia.
  rewrite Sampling.stepping_S. cbn [map app].
  eexists. reflexivity.
Qed.

(** A positive count, as a double, is not zero. *)
Lemma of_int_nonzero (n : Z) :
  0 < n < 2 ^ 53 -> PrimFloat.eqb (JS.of_int n) 0 = false.
Proof.
  intros Hn. destruct (FloatFacts.of_int_fval n Hn) as [Hf Hv].
  rewrite FloatAxioms.eqb_spec. unfold fnn, fval in *.
  change (Prim2SF 0) with (S754_zero false).
  destruct (Prim2SF (JS.of_int n)) as [s|s| |s m e]; try discriminate Hf.
  - simpl in Hv. assert (0 < IZR n)%R by (apply IZR_lt; lia). lra.
  - destruct s; reflexivity.
Qed.

End Origin.

(** C10: on a buffer with width >= 1 and height >= 1 (and fewer than 2^53
    pixels) the two loops run their body first at the pixel (0, 0) and
    then at the other sampled pixels; the sample counter ends at one more
    than the number of those, so at 1 or more, and the mean and the
    variance divide by that counter, a double that is not zero and holds
    the count exactly. *)
Theorem analyzePixels_samples_origin
        (pixels : list byte) (width height rowStride channels : Z) :
  1 <= width -> 1 <= height -> width * height < 2 ^ 53 ->
  exists rest : list (Z * Z),
    let visit := fun a p =>
      sample pixels rowStride channels (fst p) (snd p) a in
    let a := fold_left visit ((0, 0) :: rest) acc0 in
    let stats := analyzePixels pixels width height rowStride channels in
    let count := JS.of_int (sampleCount stats) in
    rows pixels width height rowStride channels (Z.to_nat height) 0 acc0 = a
    /\ Spec.sample_points width height = (0, 0) :: rest
    /\ sampleCount stats = 1 + Z.of_nat (List.length rest)
    /\ 1 <= sampleCount stats
    /\ meanLuminance stats = (totalLuminosity a / count)%float
    /\ luminanceStd stats
       = JS.Math_sqrt
           (JS.Math_max 0%float
              (luminositySquaredSum a / count
               - meanLuminance stats * meanLuminance stats)%float)
    /\ PrimFloat.eqb count 0 = false
    /\ fval count = IZR (sampleCount stats).
Proof.
  intros Hw Hh Hsize.
  destruct (Origin.sample_points_origin width height Hw Hh) as [rest Hpts].
  exists rest. cbv zeta.
  assert (rows pixels width height rowStride channels (Z.to_nat height) 0 acc0
          = fold_left (fun a p => sample pixels rowStride channels
                                         (fst p) (snd p) a)
                      ((0, 0) :: rest) acc0) as Hrows
    by (rewrite Loops.rows_sample_points, Hpts; reflexivity).
  assert (sampleCount (analyzePixels pixels width height rowStride channels)
          = 1 + Z.of_nat (List.length rest)) as Hcount
    by (rewrite analyzePixels_count, Hpts; simpl List.length; lia).
  assert (0 < sampleCount (analyzePixels pixels width height rowStride channels)
          < 2 ^ 53) as Hn.
  { pose proof (Counting.sample_points_bounds width height Hw Hh).
    rewrite analyzePixels_count. lia. }
  split; [exact Hrows|]. split; [exact Hpts|]. split; [exact Hcount|].
  split; [lia|].
  split; [unfold analyzePixels; cbn [meanLuminance sampleCount];
          rewrite Hrows; reflexivity|].
  split; [unfold analyzePixels; cbn [meanLuminance luminanceStd sampleCount];
          rewrite Hrows; reflexivity|].
  split; [apply Origin.of_int_nonzero, Hn|].
  apply FloatFacts.of_int_fval, Hn.
Qed.

Lemma analyzePixels_samples_origin_witness :
  exists rest : list (Z * Z),
    rows (repeat xff 51) 17 1 51 3 (Z.to_nat 1) 0 acc0
    = fold_left (fun a p => sample (repeat xff 51) 51 3 (fst p) (snd p) a)
                ((0, 0) :: rest) acc0
    /\ 1 <= sampleCount (analyzePixels (repeat xff 51) 17 1 51 3)
    /\ PrimFloat.eqb
         (JS.of_int (sampleCount (analyzePixels (repeat xff 51) 17 1 51 3))) 0
       = false.
Proof.
  destruct (analyzePixels_samples_origin (repeat xff 51) 17 1 51 3)
    as (rest & H1 & _ & _ & H2 & _ & _ & H3 & _); [lia|lia|lia|].
  exists rest. repeat split; assumption.
Defined.

(* ===================================================================== *)
(** ** What a call reads and writes *)
(* ===================================================================== *)

Module Purity.

Section Calls.

Variable decode : string -> option (list byte) -> throws Pixbuf.
Variable new_subpixbuf : Pixbuf -> Z -> Z -> Z -> Z -> throws Pixbuf.
Variables toFixed3 toString16 to_string : JS.number -> string.

(** [#determineStyle] returns the label of the effect-free embedding; it
    leaves the files and adds its lines to the console, the same lines
    whatever the world. *)
Lemma determineStyle_run (stats : Analysis) (t : JS.number)
      (w : Effects.World) :
  Effects.determineStyle toFixed3 toString16 to_string stats t w
  = (inr (determineStyle stats t),
     Effects.mkWorld (Effects.files w)
       (Effects.console w
        ++ Effects.console
             (snd (Effects.determineStyle toFixed3 toString16 to_string
                     stats t (Effects.mkWorld (fun _ => None) []))))).
Proof.
  unfold Effects.determineStyle, determineStyle.
  destruct (PrimFloat.ltb (meanLuminance stats) t);
    destruct (PrimFloat.ltb STD_THRESHOLD (luminanceStd stats));
    destruct (PrimFloat.ltb t
                (meanLuminance stats + 1.645 * luminanceStd stats));
    destruct (PrimFloat.ltb 0.5
                (maxLuminosity stats - minLuminosity stats));
    cbn [Effects.bind Effects.ret Effects.write Effects.Logger_log fst snd
         Effects.files Effects.console app orb andb];
    rewrite <- !app_assoc; reflexivity.
Qed.

(** A call of [analyze], case by case: what it returns and the world it
    leaves. *)
Lemma analyze_cases (path : string) (t : JS.number) (panelHeight : Z)
      (w : Effects.World) :
  Effects.analyze decode new_subpixbuf toFixed3 toString16 to_string
                  path t panelHeight w
  = let failed message :=
      (inr (Fallback "dark" 0.5%float message),
       Effects.mkWorld (Effects.files w)
         (Effects.console w
          ++ [(Effects.ERROR,
               (Effects.prefix ++ ": "
                ++ ("WallpaperAnalyzer: Failed to analyze - " ++ message))
                 %string)])) in
    match decode path (Effects.files w path) with
    | inl message => failed message
    | inr fullPixbuf =>
        match new_subpixbuf fullPixbuf 4 4
                (Z.max 1 (get_width fullPixbuf - 4 * 2))
                (Z.max 0 (Z.min panelHeight (get_height fullPixbuf) - 4)) with
        | inl message => failed message
        | inr bgSlice =>
            (inr (Analyzed (determineStyle (analyzeTopRegion bgSlice) t)
                           (analyzeTopRegion bgSlice)),
             Effects.mkWorld (Effects.files w)
               (Effects.console w
                ++ Effects.console
                     (snd (Effects.determineStyle toFixed3 toString16 to_string
                             (analyzeTopRegion bgSlice) t
                             (Effects.mkWorld (fun _ => None) [])))))
        end
    end.
Proof.
  unfold Effects.analyze, Effects.try_catch, Effects.new_from_file.
  unfold Effects.bind at 1. change PADDING with 4.
  destruct (decode path (Effects.files w path)) as [message|fullPixbuf];
    [reflexivity|].
  unfold Effects.bind at 1, Effects.call.
  destruct (new_subpixbuf fullPixbuf 4 4 _ _) as [message|bgSlice];
    [reflexivity|].
  unfold Effects.bind at 1. rewrite determineStyle_run. reflexivity.
Qed.

(** A call of [analyze] returns, and returns what the effect-free
    embedding gives on what the path decodes to; it leaves the files and
    adds lines to the console. *)
Lemma analyze_run (path : string) (t : JS.number) (panelHeight : Z)
      (w : Effects.World) :
  Effects.analyze decode new_subpixbuf toFixed3 toString16 to_string
                  path t panelHeight w
  = (inr (analyze (fun p => decode p (Effects.files w p)) new_subpixbuf
                  path t panelHeight),
     Effects.mkWorld (Effects.files w)
       (Effects.console w
        ++ Effects.console
             (snd (Effects.analyze decode new_subpixbuf toFixed3 toString16
                     to_string path t panelHeight
                     (Effects.mkWorld (Effects.files w) []))))).
Proof.
  rewrite !analyze_cases.
  unfold analyze, analyze_try. cbn [Effects.files Effects.console].
  change PADDING with 4.
  destruct (decode path (Effects.files w path)) as [message|fullPixbuf];
    [reflexivity|].
  destruct (new_subpixbuf fullPixbuf 4 4 _ _) as [message|bgSlice];
    reflexivity.
Qed.

(** The lines of a call are those of the call in any world with the same
    bytes at the path. *)
Lemma analyze_lines (path : string) (t : JS.number) (panelHeight : Z)
      (w w' : Effects.World) :
  Effects.files w' path = Effects.files w path ->
  Effects.console
    (snd (Effects.analyze decode new_subpixbuf toFixed3 toString16 to_string
                          path t panelHeight
                          (Effects.mkWorld (Effects.files w') [])))
  = Effects.console
      (snd (Effects.analyze decode new_subpixbuf toFixed3 toString16 to_string
                            path t panelHeight
                            (Effects.mkWorld (Effects.files w) []))).
Proof.
  intros H. rewrite !analyze_cases.
  cbn [Effects.files Effects.console]. rewrite H.
  destruct (decode path (Effects.files w path)) as [message|fullPixbuf];
    [reflexivity|].
  destruct (new_subpixbuf fullPixbuf 4 4 _ _) as [message|bgSlice];
    reflexivity.
Qed.

Lemma analyze_same_file (path : string) (t : JS.number) (panelHeight : Z)
      (w w' : Effects.World) :
  Effects.files w' path = Effects.files w path ->
  analyze (fun p => decode p (Effects.files w' p)) new_subpixbuf
          path t panelHeight
  = analyze (fun p => decode p (Effects.files w p)) new_subpixbuf
            path t panelHeight.
Proof.
  intros H. unfold analyze, analyze_try. rewrite H. reflexivity.
Qed.

End Calls.

End Purity.

(** C8: a call of [analyze] returns a value, never an exception, and that
    value is the result of the effect-free embedding on what the bytes at
    the path decode to.  The call leaves every file as it is and only adds
    lines to the console.  In any world where the path holds the same
    bytes, whatever the other files and the console, a call with the same
    arguments returns the same value and writes the same lines; so does a
    second call made right after the first. *)
Theorem analyze_idempotent
        (decode : string -> option (list byte) -> throws Pixbuf)
        (new_subpixbuf : Pixbuf -> Z -> Z -> Z -> Z -> throws Pixbuf)
        (toFixed3 toString16 to_string : JS.number -> string)
        (path : string) (t : JS.number) (panelHeight : Z)
        (w : Effects.World) :
  let call :=
    Effects.analyze decode new_subpixbuf toFixed3 toString16 to_string
                    path t panelHeight in
  let result :=
    analyze (fun p => decode p (Effects.files w p)) new_subpixbuf
            path t panelHeight in
  exists lines,
    call w
    = (inr result,
       Effects.mkWorld (Effects.files w) (Effects.console w ++ lines))
    /\ (forall w',
          Effects.files w' path = Effects.files w path ->
          call w'
          = (inr result,
             Effects.mkWorld (Effects.files w')
                             (Effects.console w' ++ lines)))
    /\ call (snd (call w))
       = (inr result,
          Effects.mkWorld (Effects.files w)
                          ((Effects.console w ++ lines) ++ lines)).
Proof.
  intros call result. subst call result.
  exists (Effects.console
            (snd (Effects.analyze decode new_subpixbuf toFixed3 toString16
                    to_string path t panelHeight
                    (Effects.mkWorld (Effects.files w) [])))).
  assert (forall w',
            Effects.files w' path = Effects.files w path ->
            Effects.analyze decode new_subpixbuf toFixed3 toString16 to_string
                            path t panelHeight w'
            = (inr (analyze (fun p => decode p (Effects.files w p))
                            new_subpixbuf path t panelHeight),
               Effects.mkWorld (Effects.files w')
                 (Effects.console w'
                  ++ Effects.console
                       (snd (Effects.analyze decode new_subpixbuf toFixed3
                               toString16 to_string path t panelHeight
                               (Effects.mkWorld (Effects.files w) []))))))
    as Hsame.
  { intros w' H. rewrite Purity.analyze_run.
    rewrite (Purity.analyze_lines decode new_subpixbuf toFixed3 toString16
               to_string path t panelHeight w w' H).
    rewrite (Purity.analyze_same_file decode new_subpixbuf path t panelHeight
               w w' H).
    reflexivity. }
  split; [apply Hsame; reflexivity|].
  split; [exact Hsame|].
  rewrite (Hsame w eq_refl). cbn [snd].
  rewrite Hsame by reflexivity. reflexivity.
Qed.

(** A call on a dark wallpaper, then a second one: the same result, and
    the nine lines of the first call written once more. *)
Example analyze_twice :
  let w := Effects.mkWorld
             (fun p => if String.eqb p "w.png" then Some [x00] else None)
             [] in
  let call :=
    Effects.analyze
      (fun p content =>
         match content with
         | Some _ => inr (uniform_image 20 10 x00 x00 x00)
         | None => inl "Failed to open file"%string
         end)
      gdk_pixbuf_new_subpixbuf
      (fun _ => "0.000"%string) (fun _ => "0"%string) (fun _ => "0"%string)
      "w.png" default_luminanceThreshold 6 in
  match call w, call (snd (call w)) with
  | (inr (Analyzed style _), w1), (inr (Analyzed style' _), w2) =>
      style = "dark"%string /\ style' = "dark"%string
      /\ List.length (Effects.console w1) = 9%nat
      /\ List.length (Effects.console w2) = 18%nat
  | _, _ => False
  end.
Proof. vm_compute. repeat split; reflexivity. Qed.

(* ===================================================================== *)
(** * AdaptivePanel and PanelPrefs *)
(* ===================================================================== *)

Import AdaptivePanel.

(* ===================================================================== *)
(** ** The maximized window *)
(* ===================================================================== *)

Lemma detectMaximizedWindow_existsb (windows : list Window) :
  detectMaximizedWindow windows = existsb counts_as_maximized windows.
Proof.
  induction windows as [|w ws IH]; [reflexivity|].
  simpl. unfold counts_as_maximized at 1.
  destruct (is_hidden w), (minimized w), (get_compositor_private w),
    (window_type w), (get_maximized w =? BOTH); simpl; auto.
Qed.

(** X10: [#detectMaximizedWindow] answers true exactly when some window of the
    workspace is shown, not minimized, has an actor, is of the normal type
    and is maximized in both directions; the order of the windows does not
    matter. *)
Theorem detectMaximizedWindow_spec (windows : list Window) :
  (detectMaximizedWindow windows = true <->
   exists w, In w windows
             /\ is_hidden w = false /\ minimized w = false
             /\ get_compositor_private w <> None
             /\ window_type w = NORMAL
             /\ get_maximized w = BOTH)
  /\ (forall windows', (forall w, In w windows <-> In w windows') ->
        detectMaximizedWindow windows' = detectMaximizedWindow windows).
Proof.
  assert (forall ws, detectMaximizedWindow ws = true <->
            exists w, In w ws /\ counts_as_maximized w = true) as Hex.
  { intros ws. rewrite detectMaximizedWindow_existsb. apply existsb_exists. }
  split.
  - rewrite Hex. split; intros (w & Hin & H); exists w; (split; [exact Hin|]).
    + unfold counts_as_maximized in H.
      destruct (is_hidden w), (minimized w), (get_compositor_private w),
        (window_type w), (Z.eqb_spec (get_maximized w) BOTH);
        try discriminate H; repeat split; auto; discriminate.
    + destruct H as (Hh & Hm & Ha & Ht & Hb).
      unfold counts_as_maximized. rewrite Hh, Hm, Ht, Hb.
      destruct (get_compositor_private w); [reflexivity|contradiction].
  - intros ws' Hsame.
    destruct (detectMaximizedWindow windows) eqn:E.
    + apply Hex. apply Hex in E. destruct E as (w & Hin & H).
      exists w. split; [apply Hsame, Hin|exact H].
    + destruct (detectMaximizedWindow ws') eqn:E'; [|reflexivity].
      apply Hex in E'. destruct E' as (w & Hin & H).
      assert (detectMaximizedWindow windows = true) as C
        by (apply Hex; exists w; split; [apply Hsame, Hin|exact H]).
      congruence.
Qed.

(* ===================================================================== *)
(** ** The style classes of the panel *)
(* ===================================================================== *)

Module Classes.

Lemma has_add (c c' : string) (p : Panel) :
  has_style_class_name (add_style_class_name c p) c'
  = String.eqb c' c || has_style_class_name p c'.
Proof.
  unfold add_style_class_name.
  destruct (has_style_class_name p c) eqn:E.
  - destruct (String.eqb_spec c' c) as [->|]; [|reflexivity].
    rewrite E. reflexivity.
  - unfold has_style_class_name. cbn [style_class].
    rewrite existsb_app. simpl. rewrite orb_false_r. apply orb_comm.
Qed.

Lemma has_remove (c c' : string) (p : Panel) :
  has_style_class_name (remove_style_class_name c p) c'
  = negb (String.eqb c' c) && has_style_class_name p c'.
Proof.
  unfold has_style_class_name, remove_style_class_name. cbn [style_class].
  induction (style_class p) as [|x l IH]; [apply eq_sym, andb_false_r|].
  simpl. destruct (String.eqb_spec c x) as [->|Hne]; simpl.
  - rewrite IH. destruct (String.eqb_spec c' x); reflexivity.
  - rewrite IH. destruct (String.eqb_spec c' x) as [->|]; simpl.
    + destruct (String.eqb_spec x c); [congruence|reflexivity].
    + reflexivity.
Qed.

Lemma add_NoDup (c : string) (p : Panel) :
  NoDup (style_class p) -> NoDup (style_class (add_style_class_name c p)).
Proof.
  intros H. unfold add_style_class_name.
  destruct (has_style_class_name p c) eqn:E; [exact H|].
  cbn [style_class]. apply NoDup_app; [exact H|repeat constructor; intros []|].
  intros x Hx [Ex|[]]. subst x.
  unfold has_style_class_name in E.
  assert (existsb (String.eqb c) (style_class p) = true) as C
    by (apply existsb_exists; exists c; split; [exact Hx|apply String.eqb_refl]).
  congruence.
Qed.

Lemma remove_NoDup (c : string) (p : Panel) :
  NoDup (style_class p) -> NoDup (style_class (remove_style_class_name c p)).
Proof. intros H. apply NoDup_filter, H. Qed.

Lemma has_restyled (style c : string) (p : Panel) :
  has_style_class_name (restyled style p) c
  = String.eqb c style
    || (has_style_class_name p c
        && negb (existsb (String.eqb c) adaptive_classes)).
Proof.
  unfold restyled. rewrite has_add, !has_remove. unfold adaptive_classes.
  simpl existsb. rewrite orb_false_r.
  destruct (String.eqb c style), (has_style_class_name p c),
    (String.eqb c "dark"), (String.eqb c "light"),
    (String.eqb c "translucent-dark"), (String.eqb c "translucent-light"),
    (String.eqb c "maximized"); reflexivity.
Qed.

End Classes.

(* ===================================================================== *)
(** ** Applying a style *)
(* ===================================================================== *)

Module Styles.

Import Classes.

Lemma applyStyle_unchanged (style : string) (s : State) :
  currentStyle (this s) = Some style -> applyStyle style s = s.
Proof. intros H. unfold applyStyle. rewrite H, String.eqb_refl. reflexivity. Qed.

Lemma applyStyle_changed (style : string) (s : State) :
  currentStyle (this s) <> Some style ->
  applyStyle style s
  = set_currentStyle (Some style) (set_panel (restyled style (panel (shell s))) s).
Proof.
  intros H. unfold applyStyle.
  assert (match currentStyle (this s) with
          | Some current => String.eqb current style
          | None => false
          end = false) as ->.
  { destruct (currentStyle (this s)) as [c|]; [|reflexivity].
    destruct (String.eqb_spec c style); [subst; contradiction|reflexivity]. }
  unfold restyled.
  destruct (String.eqb_spec style "maximized") as [->|]; reflexivity.
Qed.

Lemma applyStyle_cases (style : string) (s : State) :
  applyStyle style s = s /\ currentStyle (this s) = Some style
  \/ applyStyle style s
     = set_currentStyle (Some style)
         (set_panel (restyled style (panel (shell s))) s).
Proof.
  destruct (currentStyle (this s)) as [c|] eqn:E.
  - destruct (String.eqb_spec c style) as [->|Hne].
    + left. split; [apply applyStyle_unchanged, E|reflexivity].
    + right. apply applyStyle_changed. rewrite E. congruence.
  - right. apply applyStyle_changed. rewrite E. discriminate.
Qed.

Lemma applyStyle_currentStyle (style : string) (s : State) :
  currentStyle (this (applyStyle style s)) = Some style.
Proof.
  destruct (applyStyle_cases style s) as [[-> H]| ->]; [exact H|reflexivity].
Qed.

Lemma carried_restyled (style : string) (p : Panel) :
  carried (restyled style p)
  = if existsb (String.eqb style) adaptive_classes then [style] else [].
Proof.
  unfold carried.
  rewrite (filter_ext_in _ (fun c => String.eqb c style)).
  - unfold adaptive_classes. cbn [filter existsb].
    destruct (String.eqb_spec "dark" style) as [<-|];
      [reflexivity|].
    destruct (String.eqb_spec "light" style) as [<-|];
      [reflexivity|].
    destruct (String.eqb_spec "translucent-dark" style) as [<-|];
      [reflexivity|].
    destruct (String.eqb_spec "translucent-light" style) as [<-|];
      [reflexivity|].
    destruct (String.eqb_spec "maximized" style) as [<-|];
      [reflexivity|].
    repeat match goal with
           | |- context [String.eqb style ?c] =>
               destruct (String.eqb_spec style c); [congruence|]
           end.
    reflexivity.
  - intros c Hc. rewrite has_restyled.
    assert (existsb (String.eqb c) adaptive_classes = true) as ->.
    { apply existsb_exists. exists c. split; [exact Hc|apply String.eqb_refl]. }
    rewrite andb_false_r, orb_false_r. reflexivity.
Qed.

Lemma restyled_has (style : string) (p : Panel) :
  has_style_class_name (restyled style p) style = true.
Proof. rewrite has_restyled, String.eqb_refl. reflexivity. Qed.

Lemma consistent_restyled (style : string) (s : State) :
  consistent (set_currentStyle (Some style)
                (set_panel (restyled style (panel (shell s))) s)).
Proof.
  split.
  - change (panel (shell (set_currentStyle (Some style)
              (set_panel (restyled style (panel (shell s))) s))))
      with (restyled style (panel (shell s))).
    rewrite carried_restyled.
    destruct (existsb _ _); simpl; lia.
  - change (panel (shell (set_currentStyle (Some style)
              (set_panel (restyled style (panel (shell s))) s))))
      with (restyled style (panel (shell s))).
    change (currentStyle (this (set_currentStyle (Some style)
              (set_panel (restyled style (panel (shell s))) s))))
      with (Some style).
    intros st E. injection E as <-. apply restyled_has.
Qed.

Lemma applyStyle_consistent (style : string) (s : State) :
  consistent s -> consistent (applyStyle style s).
Proof.
  intros H. destruct (applyStyle_cases style s) as [[-> _]| ->];
    [exact H|apply consistent_restyled].
Qed.

End Styles.

(** X11: [#applyStyle] with a style other than the current one: the style
    becomes the current one; the panel then has a class exactly when it is
    the style or it had it and it is none of the five adaptive classes; the
    class list stays free of repetitions; nothing else of the shell is
    touched. *)
Theorem applyStyle_classes (style : string) (s : State) :
  currentStyle (this s) <> Some style ->
  let s' := applyStyle style s in
  currentStyle (this s') = Some style
  /\ (forall c,
        has_style_class_name (panel (shell s')) c
        = String.eqb c style
          || (has_style_class_name (panel (shell s)) c
              && negb (existsb (String.eqb c) adaptive_classes)))
  /\ (NoDup (style_class (panel (shell s))) ->
      NoDup (style_class (panel (shell s'))))
  /\ opacity (panel (shell s')) = opacity (panel (shell s))
  /\ translation_y (panel (shell s')) = translation_y (panel (shell s))
  /\ connections (shell s') = connections (shell s)
  /\ timeouts (shell s') = timeouts (shell s).
Proof.
  intros H s'. subst s'. rewrite (Styles.applyStyle_changed style s H).
  cbn [this shell set_currentStyle set_this set_panel set_shell currentStyle
       panel connections timeouts].
  split; [reflexivity|]. split; [intros c; apply Classes.has_restyled|].
  split.
  - intros Hnd. unfold restyled.
    apply Classes.add_NoDup. repeat apply Classes.remove_NoDup. exact Hnd.
  - unfold restyled, add_style_class_name.
    destruct (has_style_class_name _ style); repeat split; reflexivity.
Qed.

Lemma applyStyle_classes_witness :
  let s' := applyStyle "dark" idle in
  currentStyle (this s') = Some "dark"%string
  /\ (forall c,
        has_style_class_name (panel (shell s')) c
        = String.eqb c "dark"
          || (has_style_class_name (panel (shell idle)) c
              && negb (existsb (String.eqb c) adaptive_classes)))
  /\ (NoDup (style_class (panel (shell idle))) ->
      NoDup (style_class (panel (shell s'))))
  /\ opacity (panel (shell s')) = opacity (panel (shell idle))
  /\ translation_y (panel (shell s')) = translation_y (panel (shell idle))
  /\ connections (shell s') = connections (shell idle)
  /\ timeouts (shell s') = timeouts (shell idle).
Proof.
  apply (applyStyle_classes "dark" idle). simpl. discriminate.
Defined.

(** ** What leaves the style alone *)

Module Frame.

Lemma consistent_view (s s' : State) :
  view s' = view s -> consistent s -> consistent s'.
Proof.
  unfold view, consistent, carried, has_style_class_name.
  intros E. injection E as -> ->. auto.
Qed.

Lemma view_timeout_add (delay : Z) (cb : Callback) (s : State) :
  view (timeout_add delay cb s) = view s.
Proof. reflexivity. Qed.

Lemma view_connect (e : Emitter) (h : Handler) (s : State) :
  view (snd (connect e h s)) = view s.
Proof. reflexivity. Qed.

Lemma view_disconnect (e : Emitter) (id : Z) (s : State) :
  view (disconnect e id s) = view s.
Proof. reflexivity. Qed.

Lemma view_disconnect_all (e : Emitter) (ids : list Z) (s : State) :
  view (fold_left (fun s id => disconnect e id s) ids s) = view s.
Proof.
  revert s. induction ids as [|id ids IH]; intros s; [reflexivity|].
  simpl. rewrite IH. reflexivity.
Qed.

Lemma view_onWallpaperChanged (s : State) : view (onWallpaperChanged s) = view s.
Proof. reflexivity. Qed.

Lemma view_updateMaximizedState (env : Env) (s : State) :
  view (updateMaximizedState env s) = view s.
Proof.
  unfold updateMaximizedState. destruct (Bool.eqb _ _); reflexivity.
Qed.

Lemma view_onWindowActorAdded (a : Actor) (s : State) :
  view (onWindowActorAdded a s) = view s.
Proof.
  destruct s as [sh [cs fm ws acs im os oh ss bs sc]].
  unfold onWindowActorAdded.
  destruct ws as [ws|], acs as [acs|];
    cbn [this set_actorSignalIds set_windowSignalIds set_this windowSignalIds
         actorSignalIds];
    try destruct (map_has _ _); reflexivity.
Qed.

Lemma view_window_created (w : Window) (s : State) :
  view (window_created w s) = view s.
Proof.
  unfold window_created. destruct (get_compositor_private w);
    [apply view_onWindowActorAdded|reflexivity].
Qed.

Lemma view_onWindowActorRemoved (w a : Z) (s : State) :
  view (onWindowActorRemoved w a s) = view s.
Proof.
  unfold onWindowActorRemoved. rewrite view_timeout_add.
  match goal with
  | |- view (match actorSignalIds (this ?s1) with _ => _ end) = _ =>
      assert (view s1 = view s) as H1
  end.
  { destruct (windowSignalIds (this s)) as [ws|]; [|reflexivity].
    destruct (map_get ws w) as [ids|]; [|reflexivity].
    change (view (set_windowSignalIds ?v ?x)) with (view x).
    apply view_disconnect_all. }
  rewrite <- H1.
  destruct (actorSignalIds _) as [acs|]; [|reflexivity].
  destruct (map_has acs a); reflexivity.
Qed.

Section RuntimeFacts.

Variable decodeURIComponent : string -> throws string.
Variable new_from_file : string -> throws Pixbuf.
Variable new_subpixbuf : Pixbuf -> Z -> Z -> Z -> Z -> throws Pixbuf.
Variable monitor_file : string -> throws unit.

Lemma view_setupFileMonitor (env : Env) (s : State) :
  view (setupFileMonitor decodeURIComponent monitor_file env s) = view s.
Proof.
  unfold setupFileMonitor.
  destruct (getWallpaperPath _ env) as [p|]; [|reflexivity].
  destruct (String.eqb p ""); [reflexivity|].
  destruct (monitor_file p); reflexivity.
Qed.

Lemma panel_setupFileMonitor (env : Env) (s : State) :
  panel (shell (setupFileMonitor decodeURIComponent monitor_file env s))
  = panel (shell s).
Proof.
  unfold setupFileMonitor.
  destruct (getWallpaperPath _ env) as [p|]; [|reflexivity].
  destruct (String.eqb p ""); [reflexivity|].
  destruct (monitor_file p); reflexivity.
Qed.

Lemma view_monitor_changed (m : Z) (e : FileMonitorEvent) (s : State) :
  view (monitor_changed m e s) = view s.
Proof.
  unfold monitor_changed. destruct (map_has _ _); [|reflexivity].
  destruct e; reflexivity.
Qed.

Lemma wallpaperChanged_applies (env : Env) (s : State) :
  exists s1,
    view s1 = view s
    /\ wallpaperChanged decodeURIComponent new_from_file new_subpixbuf
                        monitor_file env s
       = applyStyle (chosen_style decodeURIComponent new_from_file
                                  new_subpixbuf env s) s1.
Proof.
  unfold wallpaperChanged, chosen_style.
  destruct (negb (String.eqb (panel_mode env) "automatic"));
    [exists s; split; reflexivity|].
  destruct (isWindowMaximized (this s)); [exists s; split; reflexivity|].
  destruct (getWallpaperPath _ env) as [p|] eqn:Ep;
    [|exists s; split; reflexivity].
  destruct (String.eqb p ""); [exists s; split; reflexivity|].
  eexists. split; [|rewrite panel_setupFileMonitor].
  2:{ assert (forall s0 : State,
                panel (shell match fileMonitor (this s0) with
                             | Some m => set_fileMonitor None (cancel m s0)
                             | None => s0
                             end) = panel (shell s0)) as ->
        by (intros s0; destruct (fileMonitor (this s0)); reflexivity).
      reflexivity. }
  rewrite view_setupFileMonitor.
  destruct (fileMonitor (this s)); reflexivity.
Qed.

End RuntimeFacts.

End Frame.

Module Invariant.

Import Frame Styles.

Lemma consistent_forget (s : State) :
  consistent s -> consistent (set_currentStyle None s).
Proof.
  intros [H1 _]. split; [exact H1|]. intros st E. discriminate E.
Qed.

Section Preserved.

Variable decodeURIComponent : string -> throws string.
Variable new_from_file : string -> throws Pixbuf.
Variable new_subpixbuf : Pixbuf -> Z -> Z -> Z -> Z -> throws Pixbuf.
Variable monitor_file : string -> throws unit.

Lemma run_consistent (cb : Callback) (env : Env) (s : State) :
  consistent s ->
  consistent (run decodeURIComponent new_from_file new_subpixbuf monitor_file
                  cb env s).
Proof.
  intros H. destruct cb; cbn [run].
  - destruct (wallpaperChanged_applies decodeURIComponent new_from_file
                new_subpixbuf monitor_file env s) as (s1 & Hv & ->).
    apply applyStyle_consistent, (consistent_view s); assumption.
  - apply (consistent_view s); [reflexivity|assumption].
  - apply (consistent_view s); [apply view_updateMaximizedState|assumption].
  - apply (consistent_view (set_currentStyle None s)); [reflexivity|].
    apply consistent_forget, H.
  - apply (consistent_view s); [reflexivity|assumption].
  - set (s1 := set_panel _ s).
    assert (consistent s1) as H1
      by (apply (consistent_view s); [reflexivity|assumption]).
    destruct (currentStyle (this s1)) as [saved|]; [|exact H1].
    destruct (String.eqb saved ""); [exact H1|].
    apply applyStyle_consistent, consistent_forget, H1.
Qed.

Lemma handle_consistent (h : Handler) (created : Window) (env : Env) (s : State) :
  consistent s -> consistent (handle h created env s).
Proof.
  intros H. apply (consistent_view s); [|exact H].
  destruct h; cbn [handle]; try reflexivity.
  - destruct (negb (locked env)); reflexivity.
  - apply view_window_created.
  - apply view_updateMaximizedState.
  - apply view_onWindowActorRemoved.
Qed.

Lemma step_consistent (ev : Event) (env : Env) (s : State) :
  consistent s ->
  consistent (step decodeURIComponent new_from_file new_subpixbuf monitor_file
                   ev env s).
Proof.
  intros H. destruct ev as [n|e id w|m e]; cbn [step].
  - destruct (nth_error _ n) as [[d cb]|]; [|exact H].
    apply run_consistent, (consistent_view s); [reflexivity|exact H].
  - destruct (connection_of e id s); [apply handle_consistent, H|exact H].
  - apply (consistent_view s); [apply view_monitor_changed|exact H].
Qed.

Lemma steps_consistent (events : list (Event * Env)) (s : State) :
  consistent s ->
  consistent (steps decodeURIComponent new_from_file new_subpixbuf monitor_file
                    events s).
Proof.
  revert s. induction events as [|[ev env] events IH]; intros s H; [exact H|].
  apply IH, step_consistent, H.
Qed.

Lemma view_setupWindowTracking (env : Env) (s : State) :
  view (setupWindowTracking env s) = view s.
Proof.
  unfold setupWindowTracking. rewrite view_connect.
  set (s0 := set_actorSignalIds _ _).
  assert (view s0 = view s) as <- by reflexivity.
  generalize s0. induction (list_windows env) as [|w ws IH]; intros s1;
    [reflexivity|].
  simpl. rewrite IH. apply view_window_created.
Qed.

Lemma view_enable (env : Env) (s : State) :
  view (enable decodeURIComponent monitor_file env s) = view s.
Proof.
  unfold enable.
  repeat match goal with
         | |- context [connect ?e ?h ?x] =>
             let H := fresh "H" in
             pose proof (view_connect e h x) as H;
             destruct (connect e h x) as [? ?]; cbn [snd] in H;
             cbv beta iota zeta
         end.
  rewrite !view_timeout_add, view_setupWindowTracking.
  repeat match goal with
         | |- view (?f ?v ?x) = _ => change (view x = view s)
         | |- view (setupFileMonitor ?d ?m ?e ?x) = _ =>
             rewrite (view_setupFileMonitor d m e x)
         end.
  repeat match goal with
         | H : _ = view (setupFileMonitor _ _ _ _) |- _ =>
             rewrite view_setupFileMonitor in H
         | H : view ?a = view (?f ?v ?x) |- _ => change (view a = view x) in H
         end.
  congruence.
Qed.

End Preserved.

End Invariant.

(** X12: Once the panel carries at most one adaptive class and the current
    style is on it, this stays so through [enable] and whatever follows:
    every timeout, every handler, every file event. *)
Theorem consistent_preserved
        (decodeURIComponent : string -> throws string)
        (new_from_file : string -> throws Pixbuf)
        (new_subpixbuf : Pixbuf -> Z -> Z -> Z -> Z -> throws Pixbuf)
        (monitor_file : string -> throws unit)
        (env : Env) (events : list (Event * Env)) (s : State) :
  consistent s ->
  consistent (steps decodeURIComponent new_from_file new_subpixbuf monitor_file
                    events (enable decodeURIComponent monitor_file env s)).
Proof.
  intros H. apply Invariant.steps_consistent.
  apply (Frame.consistent_view s); [apply Invariant.view_enable|exact H].
Qed.

Lemma consistent_preserved_witness :
  consistent
    (steps decode_plain
           (one_file "/w.png" (uniform_image 20 10 x80 x80 x80))
           gdk_pixbuf_new_subpixbuf monitor_any
           [(timeout 0, automatic "file:///w.png" []);
            (timeout 1, automatic "file:///w.png" [])]
           (enable decode_plain monitor_any (automatic "file:///w.png" [])
                   idle)).
Proof.
  apply (consistent_preserved decode_plain
           (one_file "/w.png" (uniform_image 20 10 x80 x80 x80))
           gdk_pixbuf_new_subpixbuf monitor_any (automatic "file:///w.png" [])
           [(timeout 0, automatic "file:///w.png" []);
            (timeout 1, automatic "file:///w.png" [])] idle).
  split; [simpl; lia|]. simpl. intros style E. discriminate E.
Defined.

Module Choice.

Import Frame Styles.

Section Chosen.

Variable decodeURIComponent : string -> throws string.
Variable new_from_file : string -> throws Pixbuf.
Variable new_subpixbuf : Pixbuf -> Z -> Z -> Z -> Z -> throws Pixbuf.
Variable monitor_file : string -> throws unit.

Lemma wallpaperChanged_currentStyle (env : Env) (s : State) :
  currentStyle
    (this (wallpaperChanged decodeURIComponent new_from_file new_subpixbuf
                            monitor_file env s))
  = Some (chosen_style decodeURIComponent new_from_file new_subpixbuf env s).
Proof.
  destruct (wallpaperChanged_applies decodeURIComponent new_from_file
              new_subpixbuf monitor_file env s) as (s1 & _ & ->).
  apply applyStyle_currentStyle.
Qed.

Lemma core_adaptive (style : string) :
  In style core_labels -> In style adaptive_classes.
Proof.
  unfold core_labels, adaptive_classes. simpl. intuition.
Qed.

Lemma chosen_style_automatic (env : Env) (s : State) :
  panel_mode env = "automatic"%string -> isWindowMaximized (this s) = false ->
  In (chosen_style decodeURIComponent new_from_file new_subpixbuf env s)
     core_labels.
Proof.
  intros Hm Hx. unfold chosen_style. rewrite Hm, Hx. cbn [String.eqb negb].
  change (String.eqb "automatic" "automatic") with true. cbn [negb].
  destruct (getWallpaperPath _ env) as [p|]; [|simpl; auto].
  destruct (String.eqb p ""); [simpl; auto|].
  apply analyze_core_label.
Qed.

End Chosen.

End Choice.

(** X13: The style the callback of [#onWallpaperChanged] leaves as the current
    one: the panel mode when it is not 'automatic'; otherwise 'maximized'
    when a window is maximized; otherwise one of the four labels of the
    analyzer.  For each mode the preferences can write it is one of the
    five adaptive classes. *)
Theorem wallpaperChanged_style
        (decodeURIComponent : string -> throws string)
        (new_from_file : string -> throws Pixbuf)
        (new_subpixbuf : Pixbuf -> Z -> Z -> Z -> Z -> throws Pixbuf)
        (monitor_file : string -> throws unit)
        (env : Env) (s : State) :
  exists style,
    currentStyle
      (this (wallpaperChanged decodeURIComponent new_from_file new_subpixbuf
                              monitor_file env s)) = Some style
    /\ (panel_mode env <> "automatic"%string -> style = panel_mode env)
    /\ (panel_mode env = "automatic"%string ->
        isWindowMaximized (this s) = true -> style = "maximized"%string)
    /\ (panel_mode env = "automatic"%string ->
        isWindowMaximized (this s) = false -> In style core_labels)
    /\ (In (panel_mode env) PanelPrefs.reverseModeMap ->
        In style adaptive_classes).
Proof.
  exists (chosen_style decodeURIComponent new_from_file new_subpixbuf env s).
  split; [apply Choice.wallpaperChanged_currentStyle|].
  assert (panel_mode env <> "automatic"%string ->
          chosen_style decodeURIComponent new_from_file new_subpixbuf env s
          = panel_mode env) as Hmanual.
  { intros Hm. unfold chosen_style.
    destruct (String.eqb_spec (panel_mode env) "automatic");
      [contradiction|reflexivity]. }
  assert (panel_mode env = "automatic"%string ->
          isWindowMaximized (this s) = true ->
          chosen_style decodeURIComponent new_from_file new_subpixbuf env s
          = "maximized"%string) as Hmax.
  { intros Hm Hx. unfold chosen_style. rewrite Hm, Hx. reflexivity. }
  split; [exact Hmanual|]. split; [exact Hmax|].
  split; [apply Choice.chosen_style_automatic|].
  intros Hin.
  destruct (String.eqb_spec (panel_mode env) "automatic") as [Ha|Hn].
  - destruct (isWindowMaximized (this s)) eqn:Hx.
    + rewrite (Hmax Ha eq_refl). simpl. auto 6.
    + apply Choice.core_adaptive, Choice.chosen_style_automatic; assumption.
  - rewrite (Hmanual Hn).
    unfold PanelPrefs.reverseModeMap in Hin. simpl in Hin.
    destruct Hin as [E|[E|[E|[E|[E|[]]]]]]; try (rewrite <- E; simpl; auto 6).
    congruence.
Qed.

(** X14: In automatic mode with no window maximized, the two ways of failing
    end in different styles: a wallpaper path that cannot be had (the
    decoding throws, or the path is empty) gives 'light'; a path whose file
    cannot be decoded gives 'dark', the fallback of the analyzer. *)
Theorem wallpaperChanged_failures
        (decodeURIComponent : string -> throws string)
        (new_from_file : string -> throws Pixbuf)
        (new_subpixbuf : Pixbuf -> Z -> Z -> Z -> Z -> throws Pixbuf)
        (monitor_file : string -> throws unit)
        (env : Env) (s : State) :
  panel_mode env = "automatic"%string ->
  isWindowMaximized (this s) = false ->
  let s' := wallpaperChanged decodeURIComponent new_from_file new_subpixbuf
                             monitor_file env s in
  (getWallpaperPath decodeURIComponent env = None
   \/ getWallpaperPath decodeURIComponent env = Some ""%string ->
   currentStyle (this s') = Some "light"%string)
  /\ (forall path message,
        getWallpaperPath decodeURIComponent env = Some path ->
        path <> ""%string ->
        new_from_file path = inl message ->
        currentStyle (this s') = Some "dark"%string).
Proof.
  intros Hm Hx s'. subst s'.
  rewrite Choice.wallpaperChanged_currentStyle.
  unfold chosen_style. rewrite Hm, Hx.
  change (negb (String.eqb "automatic" "automatic")) with false. cbv iota.
  split.
  - intros [-> | ->]; reflexivity.
  - intros path message -> Hne Hfail.
    destruct (String.eqb_spec path ""); [contradiction|].
    rewrite (analyze_decode_failure _ _ _ _ _ _ Hfail). reflexivity.
Qed.

Lemma wallpaperChanged_failures_witness :
  let env := automatic "file:///home/user/a%ZZb.png" [] in
  let s' := wallpaperChanged decode_malformed
              (one_file "wallpaper.png" (uniform_image 20 10 x80 x80 x80))
              gdk_pixbuf_new_subpixbuf monitor_any env idle in
  (getWallpaperPath decode_malformed env = None
   \/ getWallpaperPath decode_malformed env = Some ""%string ->
   currentStyle (this s') = Some "light"%string)
  /\ (forall path message,
        getWallpaperPath decode_malformed env = Some path ->
        path <> ""%string ->
        one_file "wallpaper.png" (uniform_image 20 10 x80 x80 x80) path
        = inl message ->
        currentStyle (this s') = Some "dark"%string).
Proof.
  apply (wallpaperChanged_failures decode_malformed
           (one_file "wallpaper.png" (uniform_image 20 10 x80 x80 x80))
           gdk_pixbuf_new_subpixbuf monitor_any
           (automatic "file:///home/user/a%ZZb.png" []) idle);
    reflexivity.
Defined.

(** X15: [#updateMaximizedState] records what [#detectMaximizedWindow] found
    and asks for a new style only when that changed: a second call in the
    same situation does nothing.  In automatic mode the callback it asked
    for makes 'maximized' the current style when a window is maximized. *)
Theorem updateMaximizedState_reacts
        (decodeURIComponent : string -> throws string)
        (new_from_file : string -> throws Pixbuf)
        (new_subpixbuf : Pixbuf -> Z -> Z -> Z -> Z -> throws Pixbuf)
        (monitor_file : string -> throws unit)
        (env : Env) (s : State) :
  let state := detectMaximizedWindow (list_windows env) in
  let s1 := updateMaximizedState env s in
  isWindowMaximized (this s1) = state
  /\ timeouts (shell s1)
     = timeouts (shell s)
       ++ (if Bool.eqb (isWindowMaximized (this s)) state then []
           else [(100, wallpaper_callback)])
  /\ updateMaximizedState env s1 = s1
  /\ (panel_mode env = "automatic"%string -> state = true ->
      currentStyle
        (this (run decodeURIComponent new_from_file new_subpixbuf monitor_file
                   wallpaper_callback env s1))
      = Some "maximized"%string).
Proof.
  intros state s1. subst state s1.
  assert (isWindowMaximized (this (updateMaximizedState env s))
          = detectMaximizedWindow (list_windows env)) as Hstate.
  { unfold updateMaximizedState. destruct (Bool.eqb _ _); reflexivity. }
  split; [exact Hstate|]. split; [|split].
  - unfold updateMaximizedState. destruct (Bool.eqb _ _); cbn.
    + rewrite app_nil_r. reflexivity.
    + reflexivity.
  - unfold updateMaximizedState at 1. rewrite Hstate, Bool.eqb_reflx.
    unfold updateMaximizedState.
    destruct s as [sh [cs fm ws acs im os oh ss bs sc]].
    destruct (Bool.eqb _ _); reflexivity.
  - intros Hm Hd. cbn [run].
    rewrite Choice.wallpaperChanged_currentStyle.
    unfold chosen_style. rewrite Hm, Hstate, Hd. reflexivity.
Qed.

(** ** What [disable] leaves behind *)

Module Leftovers.

Import Frame Styles.

(** *** What connections do not touch *)

Lemma kept_disconnect_all (e : Emitter) (ids : list Z) (s : State) :
  kept (fold_left (fun s id => disconnect e id s) ids s) = kept s.
Proof.
  revert s. induction ids as [|id ids IH]; intros s; [reflexivity|].
  simpl. rewrite IH. reflexivity.
Qed.

Lemma kept_cleanupWindowTracking (s : State) :
  kept (cleanupWindowTracking s) = kept s.
Proof.
  unfold cleanupWindowTracking.
  set (s1 := match windowSignalIds (this s) with Some _ => _ | None => s end).
  assert (kept s1 = kept s) as <-.
  { subst s1. destruct (windowSignalIds (this s)) as [ws|]; [|reflexivity].
    change (kept (set_windowSignalIds ?v ?x)) with (kept x).
    generalize s. induction ws as [|[w ids] ws IH]; intros s0; [reflexivity|].
    simpl. rewrite IH. apply kept_disconnect_all. }
  destruct (actorSignalIds (this s1)) as [acs|]; [|reflexivity].
  change (kept (set_actorSignalIds ?v ?x)) with (kept x).
  generalize s1. induction acs as [|[a id] acs IH]; intros s0; [reflexivity|].
  simpl. rewrite IH. reflexivity.
Qed.

(** [disable] up to its last step, [#restoreOriginalStyle]. *)
Lemma disable_restores (s : State) :
  exists s1, disable s = restoreOriginalStyle s1 /\ kept s1 = kept s.
Proof.
  unfold disable. cbv zeta. eexists. split; [reflexivity|].
  rewrite kept_cleanupWindowTracking.
  change (kept (set_settingsConnections ?v ?x)) with (kept x).
  rewrite kept_disconnect_all.
  change (kept (set_backgroundSignals ?v ?x)) with (kept x).
  rewrite kept_disconnect_all.
  repeat match goal with
         | |- kept match ?c with Some _ => _ | None => ?x end = _ =>
             transitivity (kept x); [destruct c; reflexivity|]
         end.
  reflexivity.
Qed.

Lemma kept_onWindowActorAdded (a : Actor) (s : State) :
  kept (onWindowActorAdded a s) = kept s.
Proof.
  destruct s as [sh [cs fm ws acs im os oh ss bs sc]].
  unfold onWindowActorAdded.
  destruct ws as [ws|], acs as [acs|];
    cbn [this set_actorSignalIds set_windowSignalIds set_this windowSignalIds
         actorSignalIds];
    try destruct (map_has _ _); reflexivity.
Qed.

Lemma kept_window_created (w : Window) (s : State) :
  kept (window_created w s) = kept s.
Proof.
  unfold window_created. destruct (get_compositor_private w);
    [apply kept_onWindowActorAdded|reflexivity].
Qed.

Lemma kept_setupWindowTracking (env : Env) (s : State) :
  kept (setupWindowTracking env s) = kept s.
Proof.
  unfold setupWindowTracking.
  change (kept (snd (connect ?e ?h ?x))) with (kept x).
  set (s0 := set_actorSignalIds _ _).
  assert (kept s0 = kept s) as <- by reflexivity.
  generalize s0. induction (list_windows env) as [|w ws IH]; intros s1;
    [reflexivity|].
  simpl. rewrite IH. apply kept_window_created.
Qed.

Section Scheduled.

Variable decodeURIComponent : string -> throws string.
Variable monitor_file : string -> throws unit.

Lemma kept_setupFileMonitor (env : Env) (s : State) :
  kept (setupFileMonitor decodeURIComponent monitor_file env s) = kept s.
Proof.
  unfold setupFileMonitor.
  destruct (getWallpaperPath _ env) as [p|]; [|reflexivity].
  destruct (String.eqb p ""); [reflexivity|].
  destruct (monitor_file p); reflexivity.
Qed.

(** [enable] up to its last two steps, the two timeouts. *)
Lemma enable_schedules (env : Env) (s : State) :
  exists s1,
    enable decodeURIComponent monitor_file env s
    = timeout_add 300 maximized_check (timeout_add 100 initial_check s1)
    /\ kept s1 = kept s.
Proof.
  unfold enable.
  repeat match goal with
         | |- context [connect ?e ?h ?x] =>
             let H := fresh "H" in
             assert (kept (snd (connect e h x)) = kept x) as H by reflexivity;
             destruct (connect e h x) as [? ?]; cbn [snd] in H;
             cbv beta iota zeta
         end.
  eexists. split; [reflexivity|].
  rewrite kept_setupWindowTracking.
  repeat match goal with
         | H : _ = kept (setupFileMonitor _ _ _ _) |- _ =>
             rewrite kept_setupFileMonitor in H
         | H : kept ?a = kept (?f ?v ?x) |- _ => change (kept a = kept x) in H
         end.
  repeat match goal with
         | |- kept (?f ?v ?x) = _ => change (kept x = kept s)
         end.
  congruence.
Qed.

End Scheduled.

Lemma carried_restoreOriginalStyle (s : State) :
  carried (panel (shell (restoreOriginalStyle s))) = [].
Proof.
  unfold restoreOriginalStyle. cbv zeta.
  change (panel (shell (set_panel ?p ?x))) with p.
  unfold carried, adaptive_classes. cbn [filter].
  rewrite !Classes.has_remove.
  change (String.eqb "dark" "dark") with true.
  change (String.eqb "light" "light") with true.
  change (String.eqb "translucent-dark" "translucent-dark") with true.
  change (String.eqb "translucent-light" "translucent-light") with true.
  change (String.eqb "maximized" "maximized") with true.
  cbn [negb andb]. rewrite !andb_false_r. reflexivity.
Qed.

Lemma kept_disable_enable
      (decodeURIComponent : string -> throws string)
      (monitor_file : string -> throws unit) (env : Env) (s : State) :
  timeouts (shell (disable (enable decodeURIComponent monitor_file env s)))
  = timeouts (shell s) ++ [(100, initial_check); (300, maximized_check)]
  /\ currentStyle (this (disable (enable decodeURIComponent monitor_file env s)))
     = currentStyle (this s).
Proof.
  destruct (enable_schedules decodeURIComponent monitor_file env s)
    as (sA & -> & HA).
  destruct (disable_restores
              (timeout_add 300 maximized_check (timeout_add 100 initial_check sA)))
    as (sB & -> & HB).
  change (timeouts (shell (restoreOriginalStyle sB))) with (timeouts (shell sB)).
  change (currentStyle (this (restoreOriginalStyle sB)))
    with (currentStyle (this sB)).
  unfold kept in HA, HB. cbn in HB.
  injection HA as _ Ht Hc _. injection HB as _ Ht' Hc' _.
  rewrite Ht', Hc', Ht, Hc, <- app_assoc. split; reflexivity.
Qed.

Lemma pending_callbacks_restyle
      (decodeURIComponent : string -> throws string)
      (new_from_file : string -> throws Pixbuf)
      (new_subpixbuf : Pixbuf -> Z -> Z -> Z -> Z -> throws Pixbuf)
      (monitor_file : string -> throws unit)
      (env1 env2 : Env) (s1 : State) :
  timeouts (shell s1) = [] ++ [(100, initial_check); (300, maximized_check)] ->
  currentStyle (this s1) = None ->
  exists style,
    currentStyle
      (this (steps decodeURIComponent new_from_file new_subpixbuf monitor_file
                   [(timeout 0, env1); (timeout 1, env2)] s1)) = Some style
    /\ has_style_class_name
         (panel (shell (steps decodeURIComponent new_from_file new_subpixbuf
                              monitor_file
                              [(timeout 0, env1); (timeout 1, env2)] s1)))
         style = true.
Proof.
  intros Ht1 Hc1. cbn [app] in Ht1.
  unfold steps. cbn [fold_left fst snd step].
  rewrite Ht1. cbn [nth_error run].
  set (s2 := onWallpaperChanged (drop_timeout 0 s1)).
  assert (timeouts (shell s2) = [(300, maximized_check); (100, wallpaper_callback)])
    as Ht2.
  { subst s2. unfold onWallpaperChanged, timeout_add, drop_timeout.
    cbn [shell timeouts set_shell]. rewrite Ht1. reflexivity. }
  assert (currentStyle (this s2) = None) as Hc2 by exact Hc1.
  clearbody s2. rewrite Ht2. cbn [nth_error run].
  destruct (Frame.wallpaperChanged_applies decodeURIComponent new_from_file
              new_subpixbuf monitor_file env2 (drop_timeout 1 s2))
    as (sX & Hv & ->).
  assert (currentStyle (this sX) = None) as HcX.
  { unfold view in Hv. injection Hv as _ Hv. rewrite Hv. exact Hc2. }
  eexists. split; [apply Styles.applyStyle_currentStyle|].
  rewrite Styles.applyStyle_changed by (rewrite HcX; discriminate).
  apply Styles.restyled_has.
Qed.

End Leftovers.

(** X16: [disable] removes no timeout: the two that [enable] added are still
    pending after it, with whatever was pending before. *)
Theorem disable_keeps_timeouts
        (decodeURIComponent : string -> throws string)
        (monitor_file : string -> throws unit) (env : Env) (s : State) :
  timeouts (shell (disable s)) = timeouts (shell s)
  /\ timeouts (shell (disable (enable decodeURIComponent monitor_file env s)))
     = timeouts (shell s) ++ [(100, initial_check); (300, maximized_check)].
Proof.
  split.
  - destruct (Leftovers.disable_restores s) as (s1 & -> & H).
    change (timeouts (shell (restoreOriginalStyle s1)))
      with (timeouts (shell s1)).
    unfold kept in H. injection H as _ Ht _ _. exact Ht.
  - apply Leftovers.kept_disable_enable.
Qed.

(** X17: A module disabled before its first timeout has run still styles the
    panel: [disable] leaves the panel without adaptive class, and the two
    pending callbacks then put one on it. *)
Theorem late_callback_restyles
        (decodeURIComponent : string -> throws string)
        (new_from_file : string -> throws Pixbuf)
        (new_subpixbuf : Pixbuf -> Z -> Z -> Z -> Z -> throws Pixbuf)
        (monitor_file : string -> throws unit)
        (env env1 env2 : Env) (s : State) :
  timeouts (shell s) = [] ->
  currentStyle (this s) = None ->
  let s1 := disable (enable decodeURIComponent monitor_file env s) in
  let s3 := steps decodeURIComponent new_from_file new_subpixbuf monitor_file
                  [(timeout 0, env1); (timeout 1, env2)] s1 in
  carried (panel (shell s1)) = []
  /\ exists style,
       currentStyle (this s3) = Some style
       /\ has_style_class_name (panel (shell s3)) style = true.
Proof.
  intros Ht Hc s1 s3. subst s1 s3.
  destruct (Leftovers.kept_disable_enable decodeURIComponent monitor_file env s)
    as [Ht1 Hc1].
  rewrite Ht in Ht1. rewrite Hc in Hc1.
  split.
  - destruct (Leftovers.disable_restores
                (enable decodeURIComponent monitor_file env s)) as (sB & -> & _).
    apply Leftovers.carried_restoreOriginalStyle.
  - apply Leftovers.pending_callbacks_restyle; assumption.
Qed.

Lemma late_callback_restyles_witness :
  let env := automatic "file:///w.png" [] in
  let s1 := disable (enable decode_plain monitor_any env idle) in
  let s3 := steps decode_plain
                  (one_file "/w.png" (uniform_image 20 10 x80 x80 x80))
                  gdk_pixbuf_new_subpixbuf monitor_any
                  [(timeout 0, env); (timeout 1, env)] s1 in
  carried (panel (shell s1)) = []
  /\ exists style,
       currentStyle (this s3) = Some style
       /\ has_style_class_name (panel (shell s3)) style = true.
Proof.
  apply (late_callback_restyles decode_plain
           (one_file "/w.png" (uniform_image 20 10 x80 x80 x80))
           gdk_pixbuf_new_subpixbuf monitor_any
           (automatic "file:///w.png" []) (automatic "file:///w.png" [])
           (automatic "file:///w.png" []) idle);
    reflexivity.
Defined.

(** ** Connected handlers *)

Module Handlers.

Ltac crunch :=
  cbv zeta;
  cbn [this shell fileMonitor overviewShowingConnection
       overviewHidingConnection screenShieldConnection backgroundSignals
       settingsConnections windowSignalIds actorSignalIds currentStyle
       isWindowMaximized panel connections next_id timeouts monitors
       next_monitor
       set_fileMonitor set_this set_shell cancel
       set_overviewShowingConnection set_overviewHidingConnection
       set_screenShieldConnection set_backgroundSignals
       set_settingsConnections set_windowSignalIds set_actorSignalIds
       set_connections set_currentStyle set_isWindowMaximized entries].

Lemma filter_filter {A : Type} (f g : A -> bool) (l : list A) :
  filter f (filter g l) = filter (fun x => g x && f x) l.
Proof.
  induction l as [|x l IH]; [reflexivity|].
  simpl. destruct (g x); simpl; [destruct (f x)|]; rewrite IH; reflexivity.
Qed.

Lemma disconnect_all_spec (keys : list (Emitter * Z)) (s : State) :
  disconnect_all keys s
  = set_connections
      (filter (fun c => negb (existsb (matches c) keys)) (connections (shell s)))
      s.
Proof.
  unfold disconnect_all. revert s.
  induction keys as [|k keys IH]; intros s.
  - assert (forall l : list Connection,
              filter (fun c => negb (existsb (matches c) [])) l = l) as ->
      by (induction l as [|x l IH]; [reflexivity|];
          simpl; simpl in IH; rewrite IH; reflexivity).
    destruct s as [[p c n t m nm] f]. reflexivity.
  - simpl fold_left. rewrite IH. destruct s as [[p c n t m nm] f].
    unfold disconnect, set_connections, set_shell.
    cbn [shell connections this panel next_id timeouts monitors next_monitor].
    rewrite filter_filter.
    rewrite (filter_ext _ (fun c => negb (existsb (matches c) (k :: keys))));
      [reflexivity|].
    intros x. cbn [existsb]. unfold matches at 2.
    rewrite negb_orb. reflexivity.
Qed.

Lemma disconnect_all_app (k1 k2 : list (Emitter * Z)) (s : State) :
  disconnect_all k2 (disconnect_all k1 s) = disconnect_all (k1 ++ k2) s.
Proof. unfold disconnect_all. rewrite fold_left_app. reflexivity. Qed.

Lemma disconnect_ids (e : Emitter) (ids : list Z) (s : State) :
  fold_left (fun s id => disconnect e id s) ids s
  = disconnect_all (map (fun id => (e, id)) ids) s.
Proof.
  unfold disconnect_all. revert s.
  induction ids as [|id ids IH]; intros s; [reflexivity|apply IH].
Qed.

Lemma disconnect_windows (windows : list (Z * list Z)) (s : State) :
  fold_left
    (fun s entry =>
       fold_left (fun s signalId => disconnect (metaWindow (fst entry)) signalId s)
                 (snd entry) s)
    windows s
  = disconnect_all (recorded windows []) s.
Proof.
  unfold recorded. rewrite app_nil_r. revert s.
  induction windows as [|[w ids] ws IH]; intros s; [reflexivity|].
  cbn [fold_left flat_map fst snd]. rewrite IH, disconnect_ids.
  apply disconnect_all_app.
Qed.

Lemma disconnect_actors (actors : list (Z * Z)) (s : State) :
  fold_left (fun s entry => disconnect (windowActor (fst entry)) (snd entry) s)
            actors s
  = disconnect_all (recorded [] actors) s.
Proof.
  unfold recorded, disconnect_all. cbn [flat_map app]. revert s.
  induction actors as [|[a id] acs IH]; intros s; [reflexivity|apply IH].
Qed.

Lemma disconnect_one (e : Emitter) (id : Z) (s : State) :
  disconnect e id s = disconnect_all [(e, id)] s.
Proof. reflexivity. Qed.

Lemma existsb_recorded (f : Emitter * Z -> bool)
      (windows : list (Z * list Z)) (actors : list (Z * Z)) :
  existsb f (recorded windows actors)
  = existsb f (recorded windows []) || existsb f (recorded [] actors).
Proof.
  unfold recorded. rewrite !existsb_app. cbn [map flat_map existsb].
  rewrite orb_false_r. reflexivity.
Qed.

Lemma connections_disconnect_all (keys : list (Emitter * Z)) (s : State) :
  connections (shell (disconnect_all keys s))
  = filter (fun c => negb (existsb (matches c) keys)) (connections (shell s)).
Proof. rewrite disconnect_all_spec. reflexivity. Qed.

(** The handlers connected after [disable] are those that were, without
    the ones it disconnects. *)
Lemma connections_disable (s : State) :
  connections (shell (disable s))
  = filter (fun c => negb (existsb (matches c) (disconnected (this s))))
           (connections (shell s)).
Proof.
  destruct s as [[p c n t m nm] [cs fm ws acs im os oh ss bs sc]].
  unfold disable, disconnected, one, cleanupWindowTracking.
  destruct fm as [fm|]; crunch;
    (destruct (truthy os) as [ios|]; crunch;
     rewrite ?disconnect_one, ?disconnect_all_spec; crunch);
    (destruct (truthy oh) as [ioh|]; crunch;
     rewrite ?disconnect_one, ?disconnect_all_spec; crunch);
    (destruct (truthy ss) as [iss|]; crunch;
     rewrite ?disconnect_one, ?disconnect_all_spec; crunch);
    rewrite disconnect_ids, disconnect_all_spec; crunch;
    rewrite disconnect_ids, disconnect_all_spec; crunch;
    (destruct ws as [ws|]; crunch;
     rewrite ?disconnect_windows, ?disconnect_all_spec; crunch);
    (destruct acs as [acs|]; crunch;
     rewrite ?disconnect_actors, ?disconnect_all_spec; crunch);
    unfold restoreOriginalStyle, set_panel, set_shell;
    cbn [shell connections];
    rewrite ?filter_filter;
    apply filter_ext; intros x;
    rewrite !existsb_app, ?(existsb_recorded _ ws acs);
    cbn [existsb recorded flat_map map app];
    rewrite ?orb_false_r, ?orb_false_l, ?negb_orb; cbn [negb];
    rewrite ?andb_true_r, ?andb_true_l, ?andb_assoc; reflexivity.
Qed.

End Handlers.

(** ** Window tracking *)

Module Tracking.

Import Handlers.

Lemma map_has_In {V : Type} (m : list (Z * V)) (k : Z) :
  map_has m k = true <-> In k (map fst m).
Proof.
  unfold map_has. rewrite existsb_exists. split.
  - intros (e & He & Hk). apply Z.eqb_eq in Hk. subst k.
    apply in_map, He.
  - intros H. apply in_map_iff in H. destruct H as (e & <- & He).
    exists e. split; [exact He|apply Z.eqb_refl].
Qed.

Lemma map_set_new {V : Type} (m : list (Z * V)) (k : Z) (v : V) :
  map_has m k = false -> map_set m k v = m ++ [(k, v)].
Proof.
  unfold map_has. induction m as [|e m IH]; [reflexivity|].
  simpl. destruct (fst e =? k); [discriminate|].
  intros H. rewrite IH by exact H. reflexivity.
Qed.

(** What one call of [#onWindowActorAdded] does, on maps that exist. *)
Lemma onWindowActorAdded_spec (a : Actor)
      (p : Panel) (c : list Connection) (n : Z) (t : list (Z * Callback))
      (m : list (Z * string)) (nm : Z)
      (cs : option string) (fm : option Z)
      (wm : list (Z * list Z)) (am : list (Z * Z)) (im : bool)
      (os oh ss : option Z) (bs sc : list Z) :
  onWindowActorAdded a
    (mkState (mkShell p c n t m nm)
             (mkFields cs fm (Some wm) (Some am) im os oh ss bs sc))
  = if map_has wm (get_meta_window a)
    then mkState (mkShell p c n t m nm)
                 (mkFields cs fm (Some wm) (Some am) im os oh ss bs sc)
    else mkState
           (mkShell p
              (c ++ [mkConnection (metaWindow (get_meta_window a)) n
                                  on_size_changed;
                     mkConnection (windowActor (actor_id a)) (n + 1)
                                  (on_actor_destroy (get_meta_window a)
                                                    (actor_id a))])
              (n + 1 + 1) t m nm)
           (mkFields cs fm
              (Some (map_set wm (get_meta_window a) [n]))
              (Some (map_set am (actor_id a) (n + 1)))
              im os oh ss bs sc).
Proof.
  unfold onWindowActorAdded. crunch.
  destruct (map_has wm (get_meta_window a)); [reflexivity|].
  unfold connect. crunch. rewrite <- app_assoc. reflexivity.
Qed.

Lemma recorded_app (wm wm' : list (Z * list Z)) (am am' : list (Z * Z)) :
  forall k, In k (recorded (wm ++ wm') (am ++ am'))
            <-> In k (recorded wm am) \/ In k (recorded wm' am').
Proof.
  intros k. unfold recorded.
  rewrite flat_map_app, map_app, !in_app_iff. tauto.
Qed.

Lemma existsb_In_matches (x : Connection) (keys : list (Emitter * Z)) :
  existsb (matches x) keys = true
  <-> exists k, In k keys /\ matches x k = true.
Proof. apply existsb_exists. Qed.

Lemma tracked_added (a : Actor) (n n0 : Z) (seen : list Z)
      (added : list Connection) (wm : list (Z * list Z)) (am : list (Z * Z)) :
  n0 <= n ->
  tracked n0 seen added wm am ->
  map_has wm (get_meta_window a) = false ->
  ~ In (actor_id a) seen ->
  tracked n0 (seen ++ [actor_id a])
          (added ++ [mkConnection (metaWindow (get_meta_window a)) n
                                  on_size_changed;
                     mkConnection (windowActor (actor_id a)) (n + 1)
                                  (on_actor_destroy (get_meta_window a)
                                                    (actor_id a))])
          (map_set wm (get_meta_window a) [n])
          (map_set am (actor_id a) (n + 1)).
Proof.
  intros Hn (H1 & H2 & H3) Hw Ha.
  assert (map_has am (actor_id a) = false) as Hm.
  { destruct (map_has am (actor_id a)) eqn:E; [|reflexivity].
    apply map_has_In, H3 in E. contradiction. }
  rewrite (map_set_new wm _ _ Hw), (map_set_new am _ _ Hm).
  split; [|split].
  - intros x Hx. apply existsb_In_matches.
    apply in_app_iff in Hx. destruct Hx as [Hx|[<-|[<-|[]]]].
    + apply H1, existsb_In_matches in Hx. destruct Hx as (k & Hk & Hmatch).
      exists k. split; [apply recorded_app; left; exact Hk|exact Hmatch].
    + exists (metaWindow (get_meta_window a), n).
      split; [apply recorded_app; right; left; reflexivity|].
      unfold matches. cbn. rewrite !Z.eqb_refl. reflexivity.
    + exists (windowActor (actor_id a), n + 1).
      split; [apply recorded_app; right; right; left; reflexivity|].
      unfold matches. cbn. rewrite !Z.eqb_refl. reflexivity.
  - intros k Hk. apply recorded_app in Hk. destruct Hk as [Hk|Hk].
    + apply H2, Hk.
    + cbn in Hk. destruct Hk as [<-|[<-|[]]]; cbn; lia.
  - intros b Hb. rewrite map_app, in_app_iff in Hb. apply in_app_iff.
    destruct Hb as [Hb|[<-|[]]]; [left; apply H3, Hb|right; left; reflexivity].
Qed.

Lemma tracked_seen (n : Z) (seen seen' : list Z) (added : list Connection)
      (wm : list (Z * list Z)) (am : list (Z * Z)) :
  incl seen seen' -> tracked n seen added wm am -> tracked n seen' added wm am.
Proof.
  intros Hi (H1 & H2 & H3). split; [exact H1|]. split; [exact H2|].
  intros a Ha. apply Hi, H3, Ha.
Qed.

(** The loop of [#setupWindowTracking] over the windows. *)
Lemma tracking_loop (windows : list Window) :
  forall (p : Panel) (c : list Connection) (n n0 : Z) (t : list (Z * Callback))
         (m : list (Z * string)) (nm : Z)
         (cs : option string) (fm : option Z)
         (wm : list (Z * list Z)) (am : list (Z * Z)) (im : bool)
         (os oh ss : option Z) (bs sc : list Z)
         (seen : list Z) (added : list Connection),
    n0 <= n ->
    exists added' n' wm' am',
      fold_left (fun s window => window_created window s) windows
        (mkState (mkShell p (c ++ added) n t m nm)
                 (mkFields cs fm (Some wm) (Some am) im os oh ss bs sc))
      = mkState (mkShell p (c ++ added') n' t m nm)
                (mkFields cs fm (Some wm') (Some am') im os oh ss bs sc)
      /\ n <= n'
      /\ (NoDup (seen ++ actor_ids windows) ->
          tracked n0 seen added wm am ->
          tracked n0 (seen ++ actor_ids windows) added' wm' am').
Proof.
  induction windows as [|w ws IH];
    intros p c n n0 t m nm cs fm wm am im os oh ss bs sc seen added Hn.
  - exists added, n, wm, am. cbn [fold_left actor_ids flat_map].
    rewrite app_nil_r. split; [reflexivity|]. split; [lia|].
    intros _ Ht. exact Ht.
  - cbn [fold_left]. unfold window_created at 2.
    cbn [actor_ids flat_map] in *.
    fold (actor_ids ws) in *.
    destruct (get_compositor_private w) as [a|].
    + rewrite onWindowActorAdded_spec.
      destruct (map_has wm (get_meta_window a)) eqn:Hw.
      * destruct (IH p c n n0 t m nm cs fm wm am im os oh ss bs sc
                    (seen ++ [actor_id a]) added Hn)
          as (added' & n' & wm' & am' & E & Hn' & Ht').
        exists added', n', wm', am'.
        split; [exact E|]. split; [exact Hn'|].
        intros Hnd Ht. cbn [app] in Hnd.
        rewrite <- app_assoc in Ht'. apply Ht'; [exact Hnd|].
        apply (tracked_seen _ seen); [apply incl_appl, incl_refl|exact Ht].
      * rewrite <- app_assoc.
        destruct (IH p c (n + 1 + 1) n0 t m nm cs fm
                    (map_set wm (get_meta_window a) [n])
                    (map_set am (actor_id a) (n + 1))
                    im os oh ss bs sc (seen ++ [actor_id a])
                    (added ++ [mkConnection (metaWindow (get_meta_window a)) n
                                            on_size_changed;
                               mkConnection (windowActor (actor_id a)) (n + 1)
                                 (on_actor_destroy (get_meta_window a)
                                                   (actor_id a))]))
          as (added' & n' & wm' & am' & E & Hn' & Ht'); [lia|].
        exists added', n', wm', am'.
        split; [exact E|]. split; [lia|].
        intros Hnd Ht. cbn [app] in Hnd.
        assert (~ In (actor_id a) seen) as Ha.
        { intros Hin. apply NoDup_remove_2 in Hnd. apply Hnd.
          apply in_or_app. left. exact Hin. }
        rewrite <- app_assoc in Ht'. apply Ht'; [exact Hnd|].
        apply tracked_added; assumption.
    + cbn [app] in *.
      destruct (IH p c n n0 t m nm cs fm wm am im os oh ss bs sc seen added Hn)
        as (added' & n' & wm' & am' & E & Hn' & Ht').
      exists added', n', wm', am'. repeat split; [exact E|exact Hn'|apply Ht'..];
        assumption.
Qed.

End Tracking.

Module Enabled.

Import Handlers Tracking.

Ltac evaluate :=
  cbv beta iota zeta delta
      [fst snd connect timeout_add new_fields
       this shell fileMonitor overviewShowingConnection
       overviewHidingConnection screenShieldConnection backgroundSignals
       settingsConnections windowSignalIds actorSignalIds currentStyle
       isWindowMaximized panel connections next_id timeouts monitors
       next_monitor
       set_fileMonitor set_this set_shell
       set_overviewShowingConnection set_overviewHidingConnection
       set_screenShieldConnection set_backgroundSignals
       set_settingsConnections set_windowSignalIds set_actorSignalIds
       set_connections set_currentStyle set_isWindowMaximized].

Section Shape.

Variable decodeURIComponent : string -> throws string.
Variable monitor_file : string -> throws unit.

Lemma setupFileMonitor_shape (env : Env)
      (p : Panel) (c : list Connection) (n : Z) (t : list (Z * Callback))
      (m : list (Z * string)) (nm : Z) (f : Fields) :
  exists fm' m' nm',
    setupFileMonitor decodeURIComponent monitor_file env
                     (mkState (mkShell p c n t m nm) f)
    = mkState (mkShell p c n t m' nm')
              (mkFields (currentStyle f) fm' (windowSignalIds f)
                        (actorSignalIds f) (isWindowMaximized f)
                        (overviewShowingConnection f)
                        (overviewHidingConnection f)
                        (screenShieldConnection f)
                        (backgroundSignals f) (settingsConnections f)).
Proof.
  unfold setupFileMonitor.
  destruct (getWallpaperPath _ env) as [path|];
    [|exists (fileMonitor f), m, nm; destruct f; reflexivity].
  destruct (String.eqb path "");
    [exists (fileMonitor f), m, nm; destruct f; reflexivity|].
  destruct (monitor_file path);
    [exists (fileMonitor f), m, nm; destruct f; reflexivity|].
  exists (Some nm), (m ++ [(nm, path)]), (nm + 1). reflexivity.
Qed.

(** The state [enable] leaves, from the module as constructed. *)
Lemma enable_shape (env : Env)
      (p : Panel) (c : list Connection) (n : Z) (t : list (Z * Callback))
      (m : list (Z * string)) (nm : Z) :
  exists added k wm am fm m' nm',
    enable decodeURIComponent monitor_file env
           (mkState (mkShell p c n t m nm) new_fields)
    = mkState
        (mkShell p
           ((c ++ [mkConnection backgroundSettings n on_background_changed;
                   mkConnection backgroundSettings (n + 1)
                                on_dark_background_changed;
                   mkConnection interfaceSettings (n + 2)
                                on_color_scheme_changed;
                   mkConnection settings (n + 3) on_panel_mode_changed;
                   mkConnection settings (n + 4)
                                on_luminance_threshold_changed;
                   mkConnection overview (n + 5) on_overview_showing;
                   mkConnection overview (n + 6) on_overview_hiding;
                   mkConnection screenShield (n + 7) on_active_changed]
               ++ added)
            ++ [mkConnection display k on_window_created])
           (k + 1)
           (t ++ [(100, initial_check); (300, maximized_check)]) m' nm')
        (mkFields None fm (Some wm) (Some am) false
                  (Some (n + 5)) (Some (n + 6)) (Some (n + 7))
                  [n; n + 1; n + 2] [n + 3; n + 4])
    /\ n + 8 <= k
    /\ (NoDup (actor_ids (list_windows env)) ->
        tracked (n + 8) (actor_ids (list_windows env)) added wm am).
Proof.
  unfold enable. evaluate.
  destruct (setupFileMonitor_shape env p
              (((((c ++ [mkConnection backgroundSettings n on_background_changed])
                    ++ [mkConnection backgroundSettings (n + 1)
                                     on_dark_background_changed])
                   ++ [mkConnection interfaceSettings (n + 1 + 1)
                                    on_color_scheme_changed])
                  ++ [mkConnection settings (n + 1 + 1 + 1)
                                   on_panel_mode_changed])
                 ++ [mkConnection settings (n + 1 + 1 + 1 + 1)
                                  on_luminance_threshold_changed])
              (n + 1 + 1 + 1 + 1 + 1) t m nm
              (mkFields None None None None false None None None
                        (([] ++ [n]) ++ [n + 1] ++ [n + 1 + 1])
                        (([] ++ [n + 1 + 1 + 1]) ++ [n + 1 + 1 + 1 + 1])))
    as (fm' & m' & nm' & E).
  cbn [app] in E. cbn [app]. rewrite <- !app_assoc in *. cbn [app] in *.
  rewrite E. clear E. evaluate.
  unfold setupWindowTracking. evaluate.
  match goal with
  | |- context [fold_left _ _ (mkState (mkShell ?p0 ?c0 ?n0 ?t0 ?m0 ?nm0) _)] =>
      destruct (tracking_loop (list_windows env) p0 c0 n0 (n + 8) t0 m0 nm0
                  None fm' [] [] false
                  (Some (n + 1 + 1 + 1 + 1 + 1))
                  (Some (n + 1 + 1 + 1 + 1 + 1 + 1))
                  (Some (n + 1 + 1 + 1 + 1 + 1 + 1 + 1))
                  [n; n + 1; n + 1 + 1]
                  [n + 1 + 1 + 1; n + 1 + 1 + 1 + 1] [] [])
        as (added & k & wm & am & E & Hk & Ht)
  end.
  - lia.
  - rewrite app_nil_r in E. rewrite E. clear E. evaluate.
    exists added, k, wm, am, fm', m', nm'.
    split; [|split; [lia|]].
    2:{ intros Hnd. apply Ht; [exact Hnd|].
        split; [intros x []|]. split; [intros k0 []|intros a []]. }
    replace (n + 1 + 1) with (n + 2) by lia.
    replace (n + 2 + 1) with (n + 3) by lia.
    replace (n + 3 + 1) with (n + 4) by lia.
    replace (n + 4 + 1) with (n + 5) by lia.
    replace (n + 5 + 1) with (n + 6) by lia.
    replace (n + 6 + 1) with (n + 7) by lia.
    rewrite <- !app_assoc. cbn [app]. reflexivity.
Qed.

End Shape.

End Enabled.

Module Leaks.

Import Handlers Tracking Enabled.

Lemma existsb_false {A : Type} (f : A -> bool) (l : list A) :
  (forall x, In x l -> f x = false) -> existsb f l = false.
Proof.
  intros H. destruct (existsb f l) eqn:E; [|reflexivity].
  apply existsb_exists in E. destruct E as (x & Hx & Hf).
  rewrite (H x Hx) in Hf. discriminate.
Qed.

Lemma filter_all {A : Type} (f : A -> bool) (l : list A) :
  (forall x, In x l -> f x = true) -> filter f l = l.
Proof.
  induction l as [|x l IH]; intros H; [reflexivity|].
  simpl. rewrite (H x (or_introl eq_refl)), IH; [reflexivity|].
  intros y Hy. apply H. right. exact Hy.
Qed.

Lemma filter_none {A : Type} (f : A -> bool) (l : list A) :
  (forall x, In x l -> f x = false) -> filter f l = [].
Proof.
  induction l as [|x l IH]; intros H; [reflexivity|].
  simpl. rewrite (H x (or_introl eq_refl)), IH; [reflexivity|].
  intros y Hy. apply H. right. exact Hy.
Qed.

(** The maps of the window tracking only hold handlers of windows and of
    actors. *)
Lemma recorded_emitter (wm : list (Z * list Z)) (am : list (Z * Z))
      (k : Emitter * Z) :
  In k (recorded wm am) ->
  exists i, fst k = metaWindow i \/ fst k = windowActor i.
Proof.
  unfold recorded. rewrite in_app_iff, in_flat_map, in_map_iff.
  intros [(e & _ & He)|(e & <- & _)].
  - apply in_map_iff in He. destruct He as (id & <- & _).
    exists (fst e). left. reflexivity.
  - exists (fst e). right. reflexivity.
Qed.

(** [disable] makes no call of [disconnect] on [#interfaceSettings] or on
    [global.display]. *)
Lemma disconnected_elsewhere (f : Fields) (x : Connection) :
  emitter x = interfaceSettings \/ emitter x = display ->
  existsb (matches x) (disconnected f) = false.
Proof.
  intros Hx. apply existsb_false. intros k Hk.
  unfold matches.
  assert (Emitter_eqb (emitter x) (fst k) = false) as ->; [|reflexivity].
  unfold disconnected, one in Hk.
  repeat (apply in_app_or in Hk; destruct Hk as [Hk|Hk]);
    try (destruct (truthy _); [destruct Hk as [<-|[]]|destruct Hk];
         destruct Hx as [-> | ->]; reflexivity);
    try (apply in_map_iff in Hk; destruct Hk as (id & <- & _);
         destruct Hx as [-> | ->]; reflexivity).
  apply in_flat_map in Hk. destruct Hk as (e & _ & Hk).
  apply in_map_iff in Hk. destruct Hk as (id & <- & _).
  destruct Hx as [-> | ->]; reflexivity.
Qed.

Lemma disable_keeps (s : State) (x : Connection) :
  emitter x = interfaceSettings \/ emitter x = display ->
  In x (connections (shell s)) -> In x (connections (shell (disable s))).
Proof.
  intros Hx Hin. rewrite connections_disable. apply filter_In.
  split; [exact Hin|]. rewrite disconnected_elsewhere by exact Hx. reflexivity.
Qed.

End Leaks.

(** X18: Two handlers outlive [disable]: the one of ['changed::color-scheme'],
    connected on [#interfaceSettings] but disconnected from
    [#backgroundSettings], and the one of ['window-created'] on
    [global.display], whose id is not kept.  [disable] disconnects nothing
    at all from these two objects. *)
Theorem disable_leaves_handlers
        (decodeURIComponent : string -> throws string)
        (monitor_file : string -> throws unit) (env : Env) (s : State) :
  this s = new_fields ->
  let s1 := disable (enable decodeURIComponent monitor_file env s) in
  In (mkConnection interfaceSettings (next_id (shell s) + 2)
                   on_color_scheme_changed)
     (connections (shell s1))
  /\ (exists id,
        In (mkConnection display id on_window_created) (connections (shell s1)))
  /\ (forall (s' : State) (x : Connection),
        emitter x = interfaceSettings \/ emitter x = display ->
        In x (connections (shell s')) ->
        In x (connections (shell (disable s')))).
Proof.
  intros Hnew s1. subst s1.
  destruct s as [[p c n t m nm] f]. cbn [this] in Hnew. subst f.
  cbn [shell next_id].
  destruct (Enabled.enable_shape decodeURIComponent monitor_file env
              p c n t m nm)
    as (added & k & wm & am & fm & m' & nm' & E & _ & _).
  rewrite E. clear E.
  split; [|split].
  - apply Leaks.disable_keeps; [left; reflexivity|].
    cbn [shell connections]. rewrite !in_app_iff. cbn [In]. tauto.
  - exists k. apply Leaks.disable_keeps; [right; reflexivity|].
    cbn [shell connections]. rewrite !in_app_iff. cbn [In]. tauto.
  - intros s' x. apply Leaks.disable_keeps.
Qed.

Lemma disable_leaves_handlers_witness :
  let env := automatic "file:///w.png" [normal_window 1 3] in
  let s1 := disable (enable decode_plain monitor_any env idle) in
  In (mkConnection interfaceSettings (next_id (shell idle) + 2)
                   on_color_scheme_changed)
     (connections (shell s1))
  /\ (exists id,
        In (mkConnection display id on_window_created) (connections (shell s1)))
  /\ (forall (s' : State) (x : Connection),
        emitter x = interfaceSettings \/ emitter x = display ->
        In x (connections (shell s')) ->
        In x (connections (shell (disable s')))).
Proof.
  apply (disable_leaves_handlers decode_plain monitor_any
           (automatic "file:///w.png" [normal_window 1 3]) idle).
  reflexivity.
Defined.

(** X19: [disable] undoes every other connection of [enable]: from the module
    as constructed, with distinct actors for the windows and ids handed out
    in sequence from 1 or more, the handlers connected after [enable] and
    [disable] are those connected before, and the two of
    ['changed::color-scheme'] and ['window-created']. *)
Theorem disable_disconnects_the_rest
        (decodeURIComponent : string -> throws string)
        (monitor_file : string -> throws unit) (env : Env) (s : State) :
  this s = new_fields ->
  1 <= next_id (shell s) ->
  (forall x, In x (connections (shell s)) -> handler_id x < next_id (shell s)) ->
  NoDup (actor_ids (list_windows env)) ->
  exists id,
    connections (shell (disable (enable decodeURIComponent monitor_file env s)))
    = connections (shell s)
      ++ [mkConnection interfaceSettings (next_id (shell s) + 2)
                       on_color_scheme_changed;
          mkConnection display id on_window_created].
Proof.
  intros Hnew Hn Hold Hnd.
  destruct s as [[p c n t m nm] f]. cbn [this] in Hnew. subst f.
  cbn [shell next_id connections] in *.
  destruct (Enabled.enable_shape decodeURIComponent monitor_file env
              p c n t m nm)
    as (added & k & wm & am & fm & m' & nm' & E & Hk & Ht).
  destruct (Ht Hnd) as (H1 & H2 & _). clear Ht.
  exists k. rewrite E, Handlers.connections_disable. clear E.
  cbn [shell connections this].
  unfold disconnected, one, truthy.
  cbn [overviewShowingConnection overviewHidingConnection
       screenShieldConnection backgroundSignals settingsConnections
       windowSignalIds actorSignalIds entries map].
  destruct (Z.eqb_spec (n + 5) 0); [lia|].
  destruct (Z.eqb_spec (n + 6) 0); [lia|].
  destruct (Z.eqb_spec (n + 7) 0); [lia|].
  cbn [app].
  assert (forall x,
            (forall i, emitter x <> metaWindow i) ->
            (forall i, emitter x <> windowActor i) ->
            existsb (matches x) (recorded wm am) = false) as Hrec.
  { intros x Hw Ha. apply Leaks.existsb_false. intros key Hkey.
    unfold matches.
    destruct (Leaks.recorded_emitter _ _ _ Hkey) as (i & [Ei|Ei]); rewrite Ei.
    - destruct (emitter x) eqn:Ex; try reflexivity.
      exfalso. apply (Hw id). reflexivity.
    - destruct (emitter x) eqn:Ex; try reflexivity.
      exfalso. apply (Ha id). reflexivity. }
  set (P := fun c0 : Connection => negb (existsb (matches c0) _)).
  assert (forall x, In x c -> P x = true) as Pold.
  { intros x Hx. specialize (Hold x Hx). subst P.
    cbn [existsb]. unfold matches at 1 2 3 4 5 6 7 8. cbn [fst snd].
    repeat match goal with
           | |- context [handler_id x =? ?v] =>
               destruct (Z.eqb_spec (handler_id x) v); [lia|]
           end.
    rewrite !andb_false_r. cbn [orb].
    rewrite Leaks.existsb_false; [reflexivity|].
    intros key Hkey. specialize (H2 key Hkey). unfold matches.
    destruct (Z.eqb_spec (handler_id x) (snd key)); [lia|].
    apply andb_false_r. }
  assert (forall x, In x added -> P x = false) as Padded.
  { intros x Hx. subst P. cbn [existsb].
    rewrite (H1 x Hx), !orb_true_r. reflexivity. }
  assert (forall e id h,
            (forall i, e <> metaWindow i) -> (forall i, e <> windowActor i) ->
            P (mkConnection e id h)
            = negb (existsb (matches (mkConnection e id h))
                      [(overview, n + 5); (overview, n + 6);
                       (screenShield, n + 7); (backgroundSettings, n);
                       (backgroundSettings, n + 1); (backgroundSettings, n + 2);
                       (settings, n + 3); (settings, n + 4)])) as Pfixed.
  { intros e id h Hw Ha. subst P. cbn [existsb].
    rewrite (Hrec (mkConnection e id h) Hw Ha), !orb_false_r. reflexivity. }
  assert (forall a b : Z, a <> b -> (a =? b) = false) as Hneq
    by (intros a b Hab; destruct (Z.eqb_spec a b); [contradiction|reflexivity]).
  clearbody P.
  rewrite !filter_app, (Leaks.filter_all P c Pold).
  rewrite <- app_assoc. f_equal.
  cbn [filter app].
  rewrite !Pfixed by discriminate.
  cbn [existsb matches emitter handler_id fst snd Emitter_eqb andb orb].
  rewrite !Z.eqb_refl.
  rewrite ?(Hneq (n + 2) n), ?(Hneq (n + 2) (n + 1)) by lia.
  rewrite ?orb_true_r, ?orb_false_r.
  cbn [negb orb andb].
  rewrite (Leaks.filter_none P added Padded). reflexivity.
Qed.

Lemma disable_disconnects_the_rest_witness :
  let env := automatic "file:///w.png" [normal_window 1 3; normal_window 2 0] in
  exists id,
    connections (shell (disable (enable decode_plain monitor_any env idle)))
    = connections (shell idle)
      ++ [mkConnection interfaceSettings (next_id (shell idle) + 2)
                       on_color_scheme_changed;
          mkConnection display id on_window_created].
Proof.
  apply (disable_disconnects_the_rest decode_plain monitor_any
           (automatic "file:///w.png" [normal_window 1 3; normal_window 2 0])
           idle).
  - reflexivity.
  - simpl. lia.
  - simpl. intros x [].
  - simpl. repeat constructor; simpl; intuition lia.
Defined.

Module Maps.

Import Tracking.

Lemma map_has_set {V : Type} (m : list (Z * V)) (k : Z) (v : V) :
  map_has (map_set m k v) k = true.
Proof.
  unfold map_has. induction m as [|e m IH]; simpl.
  - rewrite Z.eqb_refl. reflexivity.
  - destruct (fst e =? k) eqn:E; simpl.
    + rewrite Z.eqb_refl. reflexivity.
    + rewrite E. exact IH.
Qed.

Lemma map_delete_new {V : Type} (m : list (Z * V)) (k : Z) :
  map_has m k = false -> map_delete m k = m.
Proof.
  unfold map_has, map_delete. induction m as [|e m IH]; [reflexivity|].
  simpl. destruct (fst e =? k); [discriminate|].
  intros H. simpl. rewrite IH by exact H. reflexivity.
Qed.

Lemma map_delete_set {V : Type} (m : list (Z * V)) (k : Z) (v : V) :
  map_has m k = false -> map_delete (map_set m k v) k = m.
Proof.
  intros H. rewrite map_set_new by exact H.
  unfold map_delete. rewrite filter_app. simpl. rewrite Z.eqb_refl. simpl.
  rewrite app_nil_r. apply map_delete_new, H.
Qed.

Lemma map_get_set {V : Type} (m : list (Z * V)) (k : Z) (v : V) :
  map_has m k = false -> map_get (map_set m k v) k = Some v.
Proof.
  intros H. rewrite map_set_new by exact H.
  unfold map_get, map_has in *. induction m as [|e m IH]; simpl in *.
  - rewrite Z.eqb_refl. reflexivity.
  - destruct (fst e =? k); [discriminate|]. apply IH, H.
Qed.

End Maps.

(** X20: [#onWindowActorAdded] connects a window once: a second call for the
    same actor changes nothing. *)
Theorem onWindowActorAdded_once (a : Actor) (s : State) :
  onWindowActorAdded a (onWindowActorAdded a s) = onWindowActorAdded a s.
Proof.
  destruct s as [[p c n t m nm] [cs fm ws acs im os oh ss bs sc]].
  assert (forall wm am,
            onWindowActorAdded a
              (onWindowActorAdded a
                 (mkState (mkShell p c n t m nm)
                    (mkFields cs fm (Some wm) (Some am) im os oh ss bs sc)))
            = onWindowActorAdded a
                (mkState (mkShell p c n t m nm)
                   (mkFields cs fm (Some wm) (Some am) im os oh ss bs sc)))
    as Hsome.
  { intros wm am. rewrite (Tracking.onWindowActorAdded_spec a p c n).
    destruct (map_has wm (get_meta_window a)) eqn:E.
    - rewrite Tracking.onWindowActorAdded_spec, E. reflexivity.
    - rewrite Tracking.onWindowActorAdded_spec, Maps.map_has_set. reflexivity. }
  destruct ws as [wm|], acs as [am|].
  - apply Hsome.
  - exact (Hsome wm []).
  - exact (Hsome [] am).
  - exact (Hsome [] []).
Qed.

(** X21: A window that is tracked and then loses its actor is forgotten: the
    handler of ['size-changed'] is disconnected again, both maps are as
    they were, a check of the maximized state is pending, and only the
    handler on the destroyed actor remains. *)
Theorem window_tracking_round_trip
        (a : Actor) (s : State)
        (wm : list (Z * list Z)) (am : list (Z * Z)) :
  windowSignalIds (this s) = Some wm ->
  actorSignalIds (this s) = Some am ->
  map_has wm (get_meta_window a) = false ->
  map_has am (actor_id a) = false ->
  (forall x, In x (connections (shell s)) -> handler_id x < next_id (shell s)) ->
  let s' := onWindowActorRemoved (get_meta_window a) (actor_id a)
                                 (onWindowActorAdded a s) in
  connections (shell s')
  = connections (shell s)
    ++ [mkConnection (windowActor (actor_id a)) (next_id (shell s) + 1)
                     (on_actor_destroy (get_meta_window a) (actor_id a))]
  /\ windowSignalIds (this s') = Some wm
  /\ actorSignalIds (this s') = Some am
  /\ timeouts (shell s') = timeouts (shell s) ++ [(100, maximized_check)].
Proof.
  intros Hw Ha Hnw Hna Hold s'. subst s'.
  destruct s as [[p c n t m nm] [cs fm ws acs im os oh ss bs sc]].
  cbn [this shell windowSignalIds actorSignalIds connections next_id timeouts]
    in *.
  subst ws acs.
  rewrite Tracking.onWindowActorAdded_spec, Hnw.
  unfold onWindowActorRemoved. Handlers.crunch.
  rewrite (Maps.map_get_set wm _ _ Hnw).
  cbn [fold_left]. rewrite Handlers.disconnect_one, Handlers.disconnect_all_spec.
  Handlers.crunch.
  rewrite Maps.map_has_set. Handlers.crunch.
  rewrite (Maps.map_delete_set wm _ _ Hnw), (Maps.map_delete_set am _ _ Hna).
  unfold timeout_add. Handlers.crunch.
  repeat split.
  rewrite filter_app. cbn [filter existsb]. unfold matches at 2 3.
  cbn [emitter handler_id fst snd Emitter_eqb].
  rewrite !Z.eqb_refl. cbn [andb orb negb].
  rewrite (Leaks.filter_all _ c); [reflexivity|].
  intros x Hx. specialize (Hold x Hx). cbn [existsb]. unfold matches.
  cbn [fst snd]. destruct (Z.eqb_spec (handler_id x) n); [lia|].
  rewrite andb_false_r. reflexivity.
Qed.

Lemma window_tracking_round_trip_witness :
  let s := setupWindowTracking (automatic "file:///w.png" []) idle in
  let a := mkActor 1001 1 in
  let s' := onWindowActorRemoved (get_meta_window a) (actor_id a)
                                 (onWindowActorAdded a s) in
  connections (shell s')
  = connections (shell s)
    ++ [mkConnection (windowActor (actor_id a)) (next_id (shell s) + 1)
                     (on_actor_destroy (get_meta_window a) (actor_id a))]
  /\ windowSignalIds (this s') = Some []
  /\ actorSignalIds (this s') = Some []
  /\ timeouts (shell s') = timeouts (shell s) ++ [(100, maximized_check)].
Proof.
  apply (window_tracking_round_trip (mkActor 1001 1)
           (setupWindowTracking (automatic "file:///w.png" []) idle) [] []).
  - reflexivity.
  - reflexivity.
  - reflexivity.
  - reflexivity.
  - simpl. intros x [<-|[]]. simpl. lia.
Defined.

(** ** The wallpaper path *)

Module Paths.

Lemma prefix_app (p s : string) : String.prefix p (p ++ s) = true.
Proof.
  induction p as [|c p IH]; simpl; [destruct s; reflexivity|].
  destruct (Ascii.ascii_dec c c); [exact IH|contradiction].
Qed.

Lemma substring_all (s : string) : String.substring 0 (String.length s) s = s.
Proof.
  induction s as [|c s IH]; [reflexivity|]. simpl. rewrite IH. reflexivity.
Qed.

Lemma substring_app (p s : string) :
  String.substring (String.length p) (String.length (p ++ s) - String.length p)
                   (p ++ s) = s.
Proof.
  induction p as [|c p IH].
  - simpl. rewrite Nat.sub_0_r. apply substring_all.
  - simpl. exact IH.
Qed.

End Paths.

(** X22: [#getWallpaperPath] reads 'picture-uri-dark' when the colour scheme
    is 'prefer-dark' and 'picture-uri' otherwise; a URI of the form
    file://path loses exactly that prefix before it is decoded, any other
    is decoded as it is; a decoding that throws gives null. *)
Theorem getWallpaperPath_spec
        (decodeURIComponent : string -> throws string) (env : Env) :
  let uri := if String.eqb (color_scheme env) "prefer-dark"
             then picture_uri_dark env else picture_uri env in
  let decoded (text : string) :=
    match decodeURIComponent text with inr path => Some path | inl _ => None end in
  (forall path, uri = ("file://" ++ path)%string ->
                getWallpaperPath decodeURIComponent env = decoded path)
  /\ (String.prefix "file://" uri = false ->
      getWallpaperPath decodeURIComponent env = decoded uri).
Proof.
  intros uri decoded. subst decoded. unfold getWallpaperPath. fold uri.
  split.
  - intros path E. rewrite E.
    rewrite (Paths.prefix_app "file://" path).
    change 7%nat with (String.length "file://").
    rewrite Paths.substring_app. reflexivity.
  - intros H. rewrite H. reflexivity.
Qed.

(** ** File monitors *)

Module Monitors.

Lemma owns_watch (s s' : State) :
  watch s' = watch s -> owns_monitors s -> owns_monitors s'.
Proof.
  unfold watch, owns_monitors. intros E. injection E as -> -> _. auto.
Qed.

Lemma watch_parts (s : State) (m : list (Z * string)) (f : option Z) (n : Z) :
  watch s = (m, f, n) ->
  monitors (shell s) = m /\ fileMonitor (this s) = f
  /\ next_monitor (shell s) = n.
Proof. unfold watch. intros E. injection E as E1 E2 E3. auto. Qed.

Lemma watch_applyStyle (style : string) (s : State) :
  watch (applyStyle style s) = watch s.
Proof.
  destruct (Styles.applyStyle_cases style s) as [[-> _]| ->]; reflexivity.
Qed.

Lemma watch_updateMaximizedState (env : Env) (s : State) :
  watch (updateMaximizedState env s) = watch s.
Proof.
  unfold updateMaximizedState. destruct (Bool.eqb _ _); reflexivity.
Qed.

Lemma watch_onWindowActorAdded (a : Actor) (s : State) :
  watch (onWindowActorAdded a s) = watch s.
Proof.
  destruct s as [sh [cs fm ws acs im os oh ss bs sc]].
  unfold onWindowActorAdded.
  destruct ws as [ws|], acs as [acs|];
    cbn [this set_actorSignalIds set_windowSignalIds set_this windowSignalIds
         actorSignalIds];
    try destruct (map_has _ _); reflexivity.
Qed.

Lemma watch_window_created (w : Window) (s : State) :
  watch (window_created w s) = watch s.
Proof.
  unfold window_created. destruct (get_compositor_private w);
    [apply watch_onWindowActorAdded|reflexivity].
Qed.

Lemma watch_disconnect_all (keys : list (Emitter * Z)) (s : State) :
  watch (disconnect_all keys s) = watch s.
Proof. rewrite Handlers.disconnect_all_spec. reflexivity. Qed.

Lemma watch_onWindowActorRemoved (w a : Z) (s : State) :
  watch (onWindowActorRemoved w a s) = watch s.
Proof.
  unfold onWindowActorRemoved.
  change (watch (timeout_add ?d ?c ?x)) with (watch x).
  match goal with
  | |- watch (match actorSignalIds (this ?s1) with _ => _ end) = _ =>
      assert (watch s1 = watch s) as H1
  end.
  { destruct (windowSignalIds (this s)) as [ws|]; [|reflexivity].
    destruct (map_get ws w) as [ids|]; [|reflexivity].
    change (watch (set_windowSignalIds ?v ?x)) with (watch x).
    rewrite Handlers.disconnect_ids. apply watch_disconnect_all. }
  rewrite <- H1.
  destruct (actorSignalIds _) as [acs|]; [|reflexivity].
  destruct (map_has acs a); reflexivity.
Qed.

Lemma watch_setupWindowTracking (env : Env) (s : State) :
  watch (setupWindowTracking env s) = watch s.
Proof.
  unfold setupWindowTracking.
  change (watch (snd (connect ?e ?h ?x))) with (watch x).
  set (s0 := set_actorSignalIds _ _).
  assert (watch s0 = watch s) as <- by reflexivity.
  generalize s0. induction (list_windows env) as [|w ws IH]; intros s1;
    [reflexivity|].
  simpl. rewrite IH. apply watch_window_created.
Qed.

Lemma cancelled_none (s : State) :
  owns_monitors s ->
  fileMonitor (this match fileMonitor (this s) with
                    | Some m => set_fileMonitor None (cancel m s)
                    | None => s
                    end) = None
  /\ monitors (shell match fileMonitor (this s) with
                      | Some m => set_fileMonitor None (cancel m s)
                      | None => s
                      end) = [].
Proof.
  unfold owns_monitors. intros H.
  destruct (fileMonitor (this s)) as [m|] eqn:E.
  - cbn [set_fileMonitor set_this this fileMonitor cancel set_shell shell monitors].
    destruct (monitors (shell s)) as [|[m1 p1] [|e l]]; try discriminate H.
    cbn in H. injection H as ->. cbn. rewrite Z.eqb_refl. split; reflexivity.
  - rewrite E. split; [reflexivity|].
    destruct (monitors (shell s)); [reflexivity|discriminate H].
Qed.

Section Owned.

Variable decodeURIComponent : string -> throws string.
Variable new_from_file : string -> throws Pixbuf.
Variable new_subpixbuf : Pixbuf -> Z -> Z -> Z -> Z -> throws Pixbuf.
Variable monitor_file : string -> throws unit.

Lemma owns_setupFileMonitor (env : Env) (s : State) :
  fileMonitor (this s) = None -> monitors (shell s) = [] ->
  owns_monitors (setupFileMonitor decodeURIComponent monitor_file env s).
Proof.
  intros Hf Hm. unfold setupFileMonitor, owns_monitors.
  destruct (getWallpaperPath _ env) as [path|];
    [|rewrite Hf, Hm; reflexivity].
  destruct (String.eqb path ""); [rewrite Hf, Hm; reflexivity|].
  destruct (monitor_file path); [rewrite Hf, Hm; reflexivity|].
  cbn. rewrite Hm. reflexivity.
Qed.

Lemma owns_wallpaperChanged (env : Env) (s : State) :
  owns_monitors s ->
  owns_monitors (wallpaperChanged decodeURIComponent new_from_file
                                  new_subpixbuf monitor_file env s).
Proof.
  intros H. unfold wallpaperChanged.
  destruct (negb (String.eqb (panel_mode env) "automatic"));
    [apply (owns_watch s); [apply watch_applyStyle|exact H]|].
  destruct (isWindowMaximized (this s));
    [apply (owns_watch s); [apply watch_applyStyle|exact H]|].
  destruct (getWallpaperPath _ env) as [path|] eqn:Ep;
    [|apply (owns_watch s); [apply watch_applyStyle|exact H]].
  destruct (String.eqb path "");
    [apply (owns_watch s); [apply watch_applyStyle|exact H]|].
  cbv zeta.
  match goal with
  | |- owns_monitors (applyStyle ?st ?x) =>
      apply (owns_watch x); [apply watch_applyStyle|]
  end.
  destruct (cancelled_none s H) as [Hf Hm].
  apply owns_setupFileMonitor; assumption.
Qed.

Lemma run_owns (cb : Callback) (env : Env) (s : State) :
  owns_monitors s ->
  owns_monitors (run decodeURIComponent new_from_file new_subpixbuf
                     monitor_file cb env s).
Proof.
  intros H. destruct cb; cbn [run].
  - apply owns_wallpaperChanged, H.
  - exact H.
  - apply (owns_watch s); [apply watch_updateMaximizedState|exact H].
  - exact H.
  - exact H.
  - set (s1 := set_panel _ s).
    assert (owns_monitors s1) as H1 by exact H.
    destruct (currentStyle (this s1)) as [saved|]; [|exact H1].
    destruct (String.eqb saved ""); [exact H1|].
    apply (owns_watch (set_currentStyle None s1));
      [apply watch_applyStyle|exact H1].
Qed.

Lemma handle_owns (h : Handler) (created : Window) (env : Env) (s : State) :
  owns_monitors s -> owns_monitors (handle h created env s).
Proof.
  intros H. apply (owns_watch s); [|exact H].
  destruct h; cbn [handle]; try reflexivity.
  - destruct (negb (locked env)); reflexivity.
  - apply watch_window_created.
  - apply watch_updateMaximizedState.
  - apply watch_onWindowActorRemoved.
Qed.

Lemma step_owns (ev : Event) (env : Env) (s : State) :
  owns_monitors s ->
  owns_monitors (step decodeURIComponent new_from_file new_subpixbuf
                      monitor_file ev env s).
Proof.
  intros H. destruct ev as [n|e id w|m e]; cbn [step].
  - destruct (nth_error _ n) as [[d cb]|]; [|exact H].
    apply run_owns. exact H.
  - destruct (connection_of e id s); [apply handle_owns, H|exact H].
  - unfold monitor_changed. destruct (map_has _ _); [|exact H].
    destruct e; exact H.
Qed.

Lemma steps_owns (events : list (Event * Env)) (s : State) :
  owns_monitors s ->
  owns_monitors (steps decodeURIComponent new_from_file new_subpixbuf
                       monitor_file events s).
Proof.
  revert s. induction events as [|[ev env] events IH]; intros s H; [exact H|].
  apply IH, step_owns, H.
Qed.

Lemma enable_owns (env : Env) (s : State) :
  fileMonitor (this s) = None -> monitors (shell s) = [] ->
  owns_monitors (enable decodeURIComponent monitor_file env s).
Proof.
  intros Hf Hm. unfold enable.
  repeat match goal with
         | |- context [connect ?e ?h ?x] =>
             let H := fresh "H" in
             assert (watch (snd (connect e h x)) = watch x) as H by reflexivity;
             destruct (connect e h x) as [? ?]; cbn [snd] in H;
             cbv beta iota zeta
         end.
  match goal with
  | |- owns_monitors (timeout_add _ _ (timeout_add _ _ ?x)) =>
      change (owns_monitors x)
  end.
  match goal with
  | |- owns_monitors (setupWindowTracking env ?x) =>
      apply (owns_watch x); [apply watch_setupWindowTracking|]
  end.
  repeat match goal with
         | H : watch ?a = watch (?f ?v ?x) |- _ =>
             change (watch a = watch x) in H
         end.
  match goal with
  | H : watch ?a = watch (setupFileMonitor _ _ _ (?f ?v ?x)) |- _ =>
      assert (watch x = watch s) as Hx by congruence;
      assert (owns_monitors a) as Ha
  end.
  { match goal with
    | H : watch ?a = watch (setupFileMonitor _ _ _ _) |- owns_monitors ?a =>
        apply (owns_watch _ _ H)
    end.
    unfold watch in Hx. injection Hx as Hx1 Hx2 _.
    apply owns_setupFileMonitor; [rewrite <- Hf|rewrite <- Hm]; assumption. }
  match goal with
  | |- owns_monitors (?f ?v ?x) => change (owns_monitors x)
  end.
  match goal with
  | Ha : owns_monitors ?a |- owns_monitors ?b =>
      apply (owns_watch a); [congruence|exact Ha]
  end.
Qed.

Lemma watch_cleanupWindowTracking (s : State) :
  watch (cleanupWindowTracking s) = watch s.
Proof.
  unfold cleanupWindowTracking.
  match goal with
  | |- watch (match actorSignalIds (this ?y) with _ => _ end) = _ =>
      assert (watch y = watch s) as Hy
  end.
  { destruct (windowSignalIds _) as [ws|]; [|reflexivity].
    change (watch (set_windowSignalIds ?v ?z)) with (watch z).
    rewrite Handlers.disconnect_windows. apply watch_disconnect_all. }
  rewrite <- Hy.
  destruct (actorSignalIds _) as [acs|]; [|reflexivity].
  change (watch (set_actorSignalIds ?v ?z)) with (watch z).
  rewrite Handlers.disconnect_actors. apply watch_disconnect_all.
Qed.

Lemma disable_cancels (s : State) :
  owns_monitors s ->
  monitors (shell (disable s)) = []
  /\ fileMonitor (this (disable s)) = None.
Proof.
  intros H. destruct (cancelled_none s H) as [Hf Hm].
  assert (fst (watch (disable s)) = ([], None)) as E.
  { unfold disable. cbv zeta.
    change (watch (restoreOriginalStyle ?x)) with (watch x).
    rewrite watch_cleanupWindowTracking.
    change (watch (set_settingsConnections ?v ?x)) with (watch x).
    rewrite Handlers.disconnect_ids, watch_disconnect_all.
    change (watch (set_backgroundSignals ?v ?x)) with (watch x).
    rewrite Handlers.disconnect_ids, watch_disconnect_all.
    repeat match goal with
           | |- fst (watch match truthy ?c with Some _ => _ | None => ?x end)
                = _ =>
               transitivity (fst (watch x));
               [destruct (truthy c); reflexivity|]
           end.
    unfold watch. cbn [fst]. rewrite Hf, Hm. reflexivity. }
  split; [exact (f_equal fst E)|exact (f_equal snd E)].
Qed.

(** What [#setupFileMonitor] does to the monitors depends on nothing but
    the monitors. *)
Lemma watch_setupFileMonitor (env : Env) (x y : State) :
  watch x = watch y ->
  watch (setupFileMonitor decodeURIComponent monitor_file env x)
  = watch (setupFileMonitor decodeURIComponent monitor_file env y).
Proof.
  intros E. unfold setupFileMonitor.
  destruct (getWallpaperPath _ env) as [path|]; [|exact E].
  destruct (String.eqb path ""); [exact E|].
  destruct (monitor_file path); [exact E|].
  unfold watch in *. injection E as E1 E2 E3.
  cbn. rewrite E1, E3. reflexivity.
Qed.

(** With a path that can be monitored, [#setupFileMonitor] adds a monitor
    and holds it, whatever it held. *)
Lemma setupFileMonitor_creates (env : Env) (s : State) (path : string) :
  getWallpaperPath decodeURIComponent env = Some path ->
  path <> ""%string ->
  monitor_file path = inr tt ->
  watch (setupFileMonitor decodeURIComponent monitor_file env s)
  = (monitors (shell s) ++ [(next_monitor (shell s), path)],
     Some (next_monitor (shell s)), next_monitor (shell s) + 1).
Proof.
  intros Hp Hne Hm. unfold setupFileMonitor. rewrite Hp.
  destruct (String.eqb_spec path ""); [contradiction|].
  rewrite Hm. reflexivity.
Qed.

(** Of [enable], only [#setupFileMonitor] touches the monitors, and it
    cancels none. *)
Lemma watch_enable (env : Env) (s : State) :
  watch (enable decodeURIComponent monitor_file env s)
  = watch (setupFileMonitor decodeURIComponent monitor_file env s).
Proof.
  unfold enable.
  repeat match goal with
         | |- context [connect ?e ?h ?x] =>
             let H := fresh "H" in
             assert (watch (snd (connect e h x)) = watch x) as H by reflexivity;
             destruct (connect e h x) as [? ?]; cbn [snd] in H;
             cbv beta iota zeta
         end.
  match goal with
  | |- watch (timeout_add _ _ (timeout_add _ _ ?x)) = _ =>
      change (watch (timeout_add 300 maximized_check
                       (timeout_add 100 initial_check x)))
        with (watch x)
  end.
  rewrite watch_setupWindowTracking.
  repeat match goal with
         | H : watch ?a = watch (?f ?v ?x) |- _ =>
             change (watch a = watch x) in H
         end.
  match goal with
  | H : watch ?a = watch (setupFileMonitor _ _ _ (?f ?v ?x)) |- _ =>
      assert (watch x = watch s) as Hx by congruence;
      rewrite (watch_setupFileMonitor env (f v x) s) in H by exact Hx
  end.
  repeat match goal with
         | |- watch (?f ?v ?x) = _ =>
             change (watch (f v x)) with (watch x)
         end.
  congruence.
Qed.

(** In automatic mode, without a maximized window and with a path that
    can be monitored, the wallpaper callback leaves one monitor alive, on
    that path, and holds it. *)
Lemma wallpaperChanged_monitors (env : Env) (s : State) (path : string) :
  owns_monitors s ->
  panel_mode env = "automatic"%string ->
  isWindowMaximized (this s) = false ->
  getWallpaperPath decodeURIComponent env = Some path ->
  path <> ""%string ->
  monitor_file path = inr tt ->
  watch (wallpaperChanged decodeURIComponent new_from_file new_subpixbuf
                          monitor_file env s)
  = ([(next_monitor (shell s), path)], Some (next_monitor (shell s)),
     next_monitor (shell s) + 1).
Proof.
  intros H Hmode Hmax Hp Hne Hm. unfold wallpaperChanged.
  rewrite Hmode, Hmax, Hp.
  change (negb (String.eqb "automatic" "automatic")) with false. cbv iota.
  destruct (String.eqb_spec path ""); [contradiction|].
  cbv zeta. rewrite watch_applyStyle.
  destruct (cancelled_none s H) as [Hf Hn].
  set (s0 := match fileMonitor (this s) with
             | Some m => set_fileMonitor None (cancel m s)
             | None => s
             end) in *.
  assert (next_monitor (shell s0) = next_monitor (shell s)) as Hnext
    by (subst s0; destruct (fileMonitor (this s)); reflexivity).
  rewrite (setupFileMonitor_creates env s0 path Hp Hne Hm).
  rewrite Hn, Hnext. reflexivity.
Qed.

(** A pending wallpaper callback, and [enable] after it. *)
Lemma late_monitor (k : nat) (delay : Z) (env : Env) (s : State)
      (path : string) :
  owns_monitors s ->
  nth_error (timeouts (shell s)) k = Some (delay, wallpaper_callback) ->
  panel_mode env = "automatic"%string ->
  isWindowMaximized (this s) = false ->
  getWallpaperPath decodeURIComponent env = Some path ->
  path <> ""%string ->
  monitor_file path = inr tt ->
  exists m m',
    m <> m'
    /\ watch (steps decodeURIComponent new_from_file new_subpixbuf monitor_file
                    [(timeout k, env)] s)
       = ([(m, path)], Some m, m')
    /\ watch (enable decodeURIComponent monitor_file env
                 (steps decodeURIComponent new_from_file new_subpixbuf
                        monitor_file [(timeout k, env)] s))
       = ([(m, path); (m', path)], Some m', m' + 1).
Proof.
  intros H Hk Hmode Hmax Hp Hne Hmon.
  unfold steps. cbn [fold_left fst snd step]. rewrite Hk. cbn [run].
  pose proof (wallpaperChanged_monitors env (drop_timeout k s) path H Hmode
                Hmax Hp Hne Hmon) as E.
  change (next_monitor (shell (drop_timeout k s)))
    with (next_monitor (shell s)) in E.
  set (s3 := wallpaperChanged _ _ _ _ env (drop_timeout k s)) in *.
  clearbody s3.
  exists (next_monitor (shell s)), (next_monitor (shell s) + 1).
  split; [lia|]. split; [exact E|].
  rewrite watch_enable.
  rewrite (setupFileMonitor_creates env s3 path Hp Hne Hmon).
  unfold watch in E. injection E as -> _ ->. reflexivity.
Qed.

End Owned.

End Monitors.

(** X23: Who holds the file monitors.  From the module as constructed and
    a shell without monitors, after [enable] and any run of events the
    only monitor not cancelled is the one in [#fileMonitor]; [disable]
    cancels it and holds none; and this stays so through whatever runs
    after [disable].  It is no guarantee that a disabled module has no
    monitor: a wallpaper callback still pending runs after [disable] as
    before it, and in automatic mode, with a wallpaper that can be
    monitored and no maximized window, it sets up a monitor, which stays
    alive; when the same object is enabled again, [enable] sets up another
    without cancelling that one, and two are alive, one of them held. *)
Theorem monitors_owned
        (decodeURIComponent : string -> throws string)
        (new_from_file : string -> throws Pixbuf)
        (new_subpixbuf : Pixbuf -> Z -> Z -> Z -> Z -> throws Pixbuf)
        (monitor_file : string -> throws unit)
        (env : Env) (events later : list (Event * Env)) (s : State) :
  this s = new_fields ->
  monitors (shell s) = [] ->
  let go :=
    steps decodeURIComponent new_from_file new_subpixbuf monitor_file in
  let s1 := go events (enable decodeURIComponent monitor_file env s) in
  let s2 := go later (disable s1) in
  owns_monitors s1
  /\ monitors (shell (disable s1)) = []
  /\ fileMonitor (this (disable s1)) = None
  /\ owns_monitors s2
  /\ (forall k delay env' path,
        nth_error (timeouts (shell s2)) k = Some (delay, wallpaper_callback) ->
        panel_mode env' = "automatic"%string ->
        isWindowMaximized (this s2) = false ->
        getWallpaperPath decodeURIComponent env' = Some path ->
        path <> ""%string ->
        monitor_file path = inr tt ->
        let s3 := go [(timeout k, env')] s2 in
        let s4 := enable decodeURIComponent monitor_file env' s3 in
        exists m m',
          m <> m'
          /\ monitors (shell s3) = [(m, path)]
          /\ fileMonitor (this s3) = Some m
          /\ monitors (shell s4) = [(m, path); (m', path)]
          /\ fileMonitor (this s4) = Some m').
Proof.
  intros Hnew Hm go s1 s2.
  assert (owns_monitors s1) as H1.
  { apply Monitors.steps_owns, Monitors.enable_owns; [|exact Hm].
    rewrite Hnew. reflexivity. }
  destruct (Monitors.disable_cancels s1 H1) as [Hd Hf].
  assert (owns_monitors s2) as H2.
  { apply Monitors.steps_owns. unfold owns_monitors. rewrite Hd, Hf.
    reflexivity. }
  split; [exact H1|]. split; [exact Hd|]. split; [exact Hf|].
  split; [exact H2|].
  clearbody s2. clear Hd Hf H1. clearbody s1. subst go.
  intros k delay env' path Hk Hmode Hmax Hp Hne Hmon s3 s4. subst s4 s3.
  destruct (Monitors.late_monitor decodeURIComponent new_from_file
              new_subpixbuf monitor_file k delay env' s2 path
              H2 Hk Hmode Hmax Hp Hne Hmon) as (m & m' & Hneq & E3 & E4).
  apply Monitors.watch_parts in E3, E4.
  destruct E3 as (E3m & E3f & _), E4 as (E4m & E4f & _).
  exists m, m'. split; [exact Hneq|]. repeat split; assumption.
Qed.

Lemma monitors_owned_witness :
  let decode := decode_plain in
  let files := one_file "/w.png" (uniform_image 20 10 x80 x80 x80) in
  let env := automatic "file:///w.png" [] in
  let go := steps decode files gdk_pixbuf_new_subpixbuf monitor_any in
  let s1 := go [] (enable decode monitor_any env idle) in
  let s2 := go [(timeout 0, env)] (disable s1) in
  owns_monitors s1
  /\ monitors (shell (disable s1)) = []
  /\ fileMonitor (this (disable s1)) = None
  /\ owns_monitors s2
  /\ (forall k delay env' path,
        nth_error (timeouts (shell s2)) k = Some (delay, wallpaper_callback) ->
        panel_mode env' = "automatic"%string ->
        isWindowMaximized (this s2) = false ->
        getWallpaperPath decode env' = Some path ->
        path <> ""%string ->
        monitor_any path = inr tt ->
        let s3 := go [(timeout k, env')] s2 in
        let s4 := enable decode monitor_any env' s3 in
        exists m m',
          m <> m'
          /\ monitors (shell s3) = [(m, path)]
          /\ fileMonitor (this s3) = Some m
          /\ monitors (shell s4) = [(m, path); (m', path)]
          /\ fileMonitor (this s4) = Some m').
Proof.
  exact (monitors_owned decode_plain
           (one_file "/w.png" (uniform_image 20 10 x80 x80 x80))
           gdk_pixbuf_new_subpixbuf monitor_any
           (automatic "file:///w.png" []) []
           [(timeout 0, automatic "file:///w.png" [])] idle
           eq_refl eq_refl).
Defined.

(** The run the last part is about: the module is enabled and disabled at
    once, its first timeout then asks for the wallpaper callback, which
    runs as the second; the same object is then enabled again. *)
Example monitors_after_disable :
  let env := automatic "file:///w.png" [] in
  let go :=
    steps decode_plain (one_file "/w.png" (uniform_image 20 10 x80 x80 x80))
          gdk_pixbuf_new_subpixbuf monitor_any in
  let s2 :=
    go [(timeout 0, env)] (disable (enable decode_plain monitor_any env idle)) in
  let s3 := go [(timeout 1, env)] s2 in
  let s4 := enable decode_plain monitor_any env s3 in
  watch s2 = ([], None, 2)
  /\ nth_error (timeouts (shell s2)) 1 = Some (100, wallpaper_callback)
  /\ isWindowMaximized (this s2) = false
  /\ getWallpaperPath decode_plain env = Some "/w.png"%string
  /\ watch s3 = ([(2, "/w.png"%string)], Some 2, 3)
  /\ watch s4 = ([(2, "/w.png"%string); (3, "/w.png"%string)], Some 3, 4).
Proof. vm_compute. repeat split; reflexivity. Qed.

(** ** The mode tables of the preferences *)

(** X24: [modeMap] and [reverseModeMap] are inverse to each other on the five
    modes; a position outside them selects no mode ([undefined]); a mode
    that is none of the five, and no inherited property either, shows as
    the first entry. *)
Theorem modeMap_round_trip (inherited : string -> bool) :
  (forall selected mode,
     PanelPrefs.selected_mode selected = Some mode ->
     PanelPrefs.initial_selection inherited mode = Some selected)
  /\ (forall mode,
        In mode PanelPrefs.reverseModeMap ->
        exists selected,
          PanelPrefs.initial_selection inherited mode = Some selected
          /\ PanelPrefs.selected_mode selected = Some mode)
  /\ (forall selected,
        PanelPrefs.selected_mode selected = None
        <-> selected < 0 \/ 5 <= selected)
  /\ (forall mode,
        ~ In mode PanelPrefs.reverseModeMap -> inherited mode = false ->
        PanelPrefs.initial_selection inherited mode = Some 0).
Proof.
  assert (forall selected,
            selected < 0 \/ 5 <= selected
            \/ selected = 0 \/ selected = 1 \/ selected = 2
            \/ selected = 3 \/ selected = 4) as Hcases by (intros; lia).
  split; [|split; [|split]].
  - intros selected mode H. unfold PanelPrefs.selected_mode in H.
    destruct (Z.ltb_spec selected 0); [discriminate|].
    destruct (Hcases selected) as [?|[?|[->|[->|[->|[->| ->]]]]]]; try lia;
      try (injection H as <-; reflexivity).
    assert (nth_error PanelPrefs.reverseModeMap (Z.to_nat selected) = None)
      as E by (apply nth_error_None; simpl; lia).
    congruence.
  - intros mode H. unfold PanelPrefs.reverseModeMap in H. simpl in H.
    destruct H as [<-|[<-|[<-|[<-|[<-|[]]]]]];
      [exists 0|exists 1|exists 2|exists 3|exists 4]; split; reflexivity.
  - intros selected. unfold PanelPrefs.selected_mode.
    destruct (Z.ltb_spec selected 0); [split; [lia|reflexivity]|].
    rewrite nth_error_None. simpl. lia.
  - intros mode Hout Hinh.
    unfold PanelPrefs.initial_selection, PanelPrefs.modeMap_get.
    assert (find (fun e : string * Z => String.eqb (fst e) mode)
                 PanelPrefs.modeMap = None) as ->.
    { unfold PanelPrefs.modeMap. cbn [find fst].
      unfold PanelPrefs.reverseModeMap in Hout. cbn [In] in Hout.
      repeat match goal with
             | |- context [String.eqb ?k mode] =>
                 destruct (String.eqb_spec k mode); [exfalso; tauto|]
             end.
      reflexivity. }
    rewrite Hinh. reflexivity.
Qed.

